(** * Khatwa: local persistence, backup codec and import coordination

    A shallow embedding of the persistence layer of the Khatwa task tracker
    (lib/db.ts, lib/import-export.ts, hooks/use-task-store.ts,
    hooks/use-document-store.ts, components/settings-menu.tsx and the task
    operations of components/item-list.tsx), with the properties of its
    specification stated and proved over that embedding. *)

From Stdlib Require Import PrimFloat FloatOps SpecFloat Uint63 Ascii String ZArith.
From stdpp Require Import pretty.
From stdpp Require Import gmap strings list fin_maps.

Local Open Scope string_scope.
Set Warnings "-register-all".

(** ** JavaScript values

    The backup codec validates a value of TypeScript type [unknown] that comes
    out of [JSON.parse], and the store keeps whatever record it is handed.
    Numbers are IEEE binary64, as in JavaScript; an object is its list of own
    properties in insertion order. *)

Module Js.

Inductive JsVal : Type :=
| JUndefined
| JNull
| JBool (b : bool)
| JNum (n : float)
| JStr (s : string)
| JArr (xs : list JsVal)
| JObj (props : list (string * JsVal)).

(** The result of [typeof v]. *)
Inductive JsType := TUndefined | TObject | TBoolean | TNumber | TString.

Definition typeof (v : JsVal) : JsType :=
  match v with
  | JUndefined => TUndefined
  | JNull => TObject
  | JBool _ => TBoolean
  | JNum _ => TNumber
  | JStr _ => TString
  | JArr _ => TObject
  | JObj _ => TObject
  end.

Definition isType (t : JsType) (v : JsVal) : bool :=
  match t, typeof v with
  | TUndefined, TUndefined | TObject, TObject | TBoolean, TBoolean
  | TNumber, TNumber | TString, TString => true
  | _, _ => false
  end.

(** ToBoolean: what [!v] and [if (v)] test. *)
Definition truthy (v : JsVal) : bool :=
  match v with
  | JUndefined | JNull => false
  | JBool b => b
  | JNum n => negb (PrimFloat.eqb n 0 || PrimFloat.is_nan n)
  | JStr s => negb (String.eqb s "")
  | JArr _ | JObj _ => true
  end.

(** [Array.isArray]. *)
Definition isArray (v : JsVal) : bool :=
  match v with JArr _ => true | _ => false end.

(** First own property of that name in a property list. *)
Fixpoint assoc (name : string) (props : list (string * JsVal)) : option JsVal :=
  match props with
  | [] => None
  | (k, v) :: rest => if String.eqb k name then Some v else assoc name rest
  end.

(** Property read [v.name] for the names the program uses ([version], [id],
    [taskId], ...): a missing property reads as [undefined]; an array has
    none of these names. *)
Definition getProp (name : string) (v : JsVal) : JsVal :=
  match v with
  | JObj props => default JUndefined (assoc name props)
  | _ => JUndefined
  end.

(** The elements a [for ... of] loop, [map] or [filter] visits. *)
Definition elements (v : JsVal) : list JsVal :=
  match v with JArr xs => xs | _ => [] end.

(** [v === s] for a string [s]. *)
Definition isStr (s : string) (v : JsVal) : bool :=
  match v with JStr s' => String.eqb s' s | _ => false end.

(** [v === null]. *)
Definition isNull (v : JsVal) : bool :=
  match v with JNull => true | _ => false end.

(** [a ?? b]. *)
Definition nullish (v : JsVal) : bool :=
  match v with JUndefined | JNull => true | _ => false end.

Definition coalesce (a b : JsVal) : JsVal := if nullish a then b else a.

(** SameValueZero, the equality of [Set.prototype.has] and
    [Array.prototype.includes].  Two objects are the same value only when they
    are the same reference; the values compared in this program are distinct
    allocations of the parser, hence never the same object. *)
Definition sameValueZero (a b : JsVal) : bool :=
  match a, b with
  | JUndefined, JUndefined | JNull, JNull => true
  | JBool x, JBool y => Bool.eqb x y
  | JNum x, JNum y => PrimFloat.eqb x y || (PrimFloat.is_nan x && PrimFloat.is_nan y)
  | JStr x, JStr y => String.eqb x y
  | _, _ => false
  end.

Definition includes (xs : list JsVal) (v : JsVal) : bool :=
  existsb (fun x => sameValueZero x v) xs.

End Js.

Import Js.

Notation "v .[ name ]" := (getProp name v) (at level 1, left associativity, format "v .[ name ]").

(** ** JSON

    [image v] is the value [JSON.parse(JSON.stringify(v))] returns, by the
    rules of ECMAScript for the values of [JsVal]: a property whose value is
    [undefined] is left out, [undefined] in an array and a number that is not
    finite become [null], negative zero becomes zero, and everything else is
    kept as it is. *)

Module Json.

Fixpoint image (v : JsVal) : JsVal :=
  match v with
  | JUndefined | JNull => JNull
  | JBool b => JBool b
  | JNum n =>
    if PrimFloat.is_finite n then JNum (if PrimFloat.eqb n 0 then 0%float else n)
    else JNull
  | JStr s => JStr s
  | JArr xs => JArr (map image xs)
  | JObj props =>
    JObj ((fix members (ps : list (string * JsVal)) : list (string * JsVal) :=
             match ps with
             | [] => []
             | (k, x) :: rest =>
               match x with
               | JUndefined => members rest
               | _ => (k, image x) :: members rest
               end
             end) props)
  end.

(** The members of the image of an object. *)
Fixpoint members (props : list (string * JsVal)) : list (string * JsVal) :=
  match props with
  | [] => []
  | (k, x) :: rest =>
    match x with
    | JUndefined => members rest
    | _ => (k, image x) :: members rest
    end
  end.

End Json.

(** ** The host platform

    Built-ins of the JavaScript runtime the code calls.  [JSON_parse] returns
    [None] where [JSON.parse] throws a [SyntaxError]; [JSON_stringify] is
    [JSON.stringify(v, null, 2)]; [Number_toString] is the conversion a
    template literal applies to a number; [String_trim] is
    [String.prototype.trim]. *)
Class Platform := {
  JSON_parse : string → option JsVal;
  JSON_stringify : JsVal → string;
  Number_toString : float → string;
  String_trim : string → string;
}.

(** ** lib/db.ts: the record store

    Three Dexie tables with an inbound primary key ([tasks] and [documents] by
    [id], [settings] by [key]).  A table is a finite map from key to record.
    The keys are strings, as the record types of db.ts have them and as every
    caller passes them (the hooks generate the ids, the import validates
    them).  IndexedDB also takes a number, a date or an array as a key: a
    record with such an [id] is outside what these tables represent, and
    [keyOf] has no key for it, as for a record without an [id]; the
    properties below that speak of a failure are stated for string ids.  A
    transaction either commits its result or fails and leaves the store as
    it was, which is why the fallible operations return a [Result]. *)

Module Db.

(** What a rejected promise carries: a key that is already taken, a record
    without a usable key, or a property read on [undefined]. *)
Inductive Error := ConstraintError | DataError | TypeError.

Inductive Result (A : Type) : Type :=
| Ok (a : A)
| Err (e : Error).
Arguments Ok {A} a.
Arguments Err {A} e.

#[global] Instance Result_bind : MBind Result := λ A B k m,
  match m with Ok a => k a | Err e => Err e end.

(** *** Dexie tables *)

Definition keyOf (r : JsVal) : option string :=
  match r.["id"] with JStr k => Some k | _ => None end.

(** [table.add(r)]: fails when the key is taken. *)
Definition add (r : JsVal) (t : gmap string JsVal) : Result (gmap string JsVal) :=
  match keyOf r with
  | None => Err DataError
  | Some k => match t !! k with
              | Some _ => Err ConstraintError
              | None => Ok (<[k := r]> t)
              end
  end.

(** [table.bulkAdd(rs)]; inside a transaction one failed add aborts it. *)
Fixpoint bulkAdd (rs : list JsVal) (t : gmap string JsVal) : Result (gmap string JsVal) :=
  match rs with
  | [] => Ok t
  | r :: rest => t' ← add r t; bulkAdd rest t'
  end.

(** [table.put(r)]: insert or replace. *)
Definition put (r : JsVal) (t : gmap string JsVal) : Result (gmap string JsVal) :=
  match keyOf r with
  | None => Err DataError
  | Some k => Ok (<[k := r]> t)
  end.

(** [table.clear()]. *)
Definition clear (t : gmap string JsVal) : gmap string JsVal := ∅.

(** [table.toArray()]: the records, each once, in an order fixed by the
    table's contents (Dexie lists them by ascending key; nothing below depends
    on which order it is). *)
Definition toArray (t : gmap string JsVal) : list JsVal := (map_to_list t).*2.

(** *** The database and the helper functions of db.ts *)

Record Store := {
  tasks : gmap string JsVal;
  settings : gmap string JsVal;
  documents : gmap string JsVal;
}.

Definition empty : Store := {| tasks := ∅; settings := ∅; documents := ∅ |}.

Definition getAllTasks (s : Store) : list JsVal := toArray (tasks s).

Definition saveTasks (ts : list JsVal) (s : Store) : Result Store :=
  let cleared := clear (tasks s) in
  t ← (if (0 <? length ts)%nat then bulkAdd ts cleared else Ok cleared);
  Ok {| tasks := t; settings := settings s; documents := documents s |}.

(** [record?.value]: [undefined] when the key is absent. *)
Definition getSetting (key : string) (s : Store) : JsVal :=
  default JUndefined (settings s !! key).

Definition setSetting (key : string) (value : JsVal) (s : Store) : Store :=
  {| tasks := tasks s; settings := <[key := value]> (settings s); documents := documents s |}.

Definition getAllDocuments (s : Store) : list JsVal := toArray (documents s).

Definition saveDocument (doc : JsVal) (s : Store) : Result Store :=
  d ← put doc (documents s);
  Ok {| tasks := tasks s; settings := settings s; documents := d |}.

Definition deleteDocument (id : string) (s : Store) : Store :=
  {| tasks := tasks s; settings := settings s; documents := delete id (documents s) |}.

(** [db.documents.where('taskId').equals(taskId).delete()]. *)
Definition deleteDocumentsByTaskId (taskId : string) (s : Store) : Store :=
  {| tasks := tasks s; settings := settings s;
     documents := filter (λ kv, isStr taskId (kv.2).["taskId"] = false) (documents s) |}.

(** What IndexedDB accepts as a key, among the values of [JsVal]: a string, a
    number other than NaN, or an array of keys. *)
Fixpoint validKey (v : JsVal) : bool :=
  match v with
  | JStr _ => true
  | JNum n => negb (PrimFloat.is_nan n)
  | JArr xs => forallb validKey xs
  | _ => false
  end.

(** [table.bulkDelete(keys)]: a value that is no key is refused; a key under
    which nothing is stored is skipped (the tables here hold string keys
    only). *)
Definition bulkDelete (keys : list JsVal) (t : gmap string JsVal) : Result (gmap string JsVal) :=
  foldl (λ r key,
           t ← r;
           match key with
           | JStr k => Ok (delete k t)
           | _ => if validKey key then Ok t else Err DataError
           end)
        (Ok t) keys.

(** [db.documents.where('taskId').equals(taskId).toArray()]. *)
Definition getDocumentsByTaskId (taskId : string) (s : Store) : list JsVal :=
  toArray (filter (λ kv, isStr taskId (kv.2).["taskId"] = true) (documents s)).

(** [db.documents.get(id)]: [undefined] when the key is absent. *)
Definition getDocument (id : string) (s : Store) : JsVal :=
  default JUndefined (documents s !! id).




End Db.

(** ** lib/import-export.ts: validation *)

Module ImportExport.
Section WithPlatform.
Context `{Platform}.

(** Export format version. *)
Definition EXPORT_VERSION : float := 1%float.

Record ValidationResult := { valid : bool; error : option string }.

Definition ok : ValidationResult := {| valid := true; error := None |}.
Definition fail (msg : string) : ValidationResult := {| valid := false; error := Some msg |}.

(** A [for (const x of xs) { ... return ...; }] loop whose body either
    returns from the enclosing function or falls through to the next
    element. *)
Fixpoint forOf {A R : Type} (body : A → option R) (xs : list A) : option R :=
  match xs with
  | [] => None
  | x :: rest => match body x with Some r => Some r | None => forOf body rest end
  end.

(** Body of the loop over [obj.tasks]. *)
Definition checkTask (task : JsVal) : option ValidationResult :=
  if negb (truthy task) || negb (isType TObject task) then
    Some (fail "Invalid task entry")
  else if negb (isType TString task.["id"]) || negb (isType TString task.["label"]) then
    Some (fail "Task missing required fields (id, label)")
  else if negb (isArray task.["subTasks"]) then
    Some (fail "Task missing subTasks array")
  else None.

(** Body of the loop over [obj.documents]. *)
Definition checkDocument (doc : JsVal) : option ValidationResult :=
  if negb (truthy doc) || negb (isType TObject doc) then
    Some (fail "Invalid document entry")
  else if negb (isType TString doc.["id"]) || negb (isType TString doc.["taskId"])
          || negb (isType TString doc.["title"]) then
    Some (fail "Document missing required fields (id, taskId, title)")
  else None.

Definition validViewModes : list JsVal := [JStr "list"; JStr "columns"; JStr "documents"].

Definition versionTooNew (v : float) : string :=
  "Export version " ++ Number_toString v ++ " is newer than supported version "
  ++ Number_toString EXPORT_VERSION ++ ". Please update the app.".

Definition validateImportData (data : JsVal) : ValidationResult :=
  if negb (truthy data) || negb (isType TObject data) then
    fail "Invalid data format: expected an object"
  else
    let obj := data in
    match obj.["version"] with
    | JNum version =>
      if PrimFloat.ltb EXPORT_VERSION version then fail (versionTooNew version)
      else if negb (isArray obj.["tasks"]) then fail "Missing or invalid tasks array"
      else match forOf checkTask (elements obj.["tasks"]) with
      | Some r => r
      | None =>
        if negb (isArray obj.["documents"]) then fail "Missing or invalid documents array"
        else match forOf checkDocument (elements obj.["documents"]) with
        | Some r => r
        | None =>
          if negb (truthy obj.["settings"]) || negb (isType TObject obj.["settings"]) then
            fail "Missing or invalid settings object"
          else
            let settings := obj.["settings"] in
            if negb (isType TObject settings.["columnById"]) || isNull settings.["columnById"]
            then fail "Missing or invalid settings.columnById"
            else if negb (includes validViewModes settings.["viewMode"]) then
              fail "Invalid settings.viewMode"
            else ok
        end
      end
    | _ => fail "Missing or invalid version number"
    end.

(** *** Export, parse, import *)

(** The envelope [exportAllData] builds; [exportedAt] is
    [new Date().toISOString()] at the time of the call. *)
Definition exportEnvelope (exportedAt : string) (s : Db.Store) : JsVal :=
  let tasks := Db.getAllTasks s in
  let documents := Db.getAllDocuments s in
  let columnById := Db.getSetting "columnById" s in
  let viewMode := Db.getSetting "viewMode" s in
  JObj [ ("version", JNum EXPORT_VERSION);
         ("exportedAt", JStr exportedAt);
         ("tasks", JArr tasks);
         ("documents", JArr documents);
         ("settings", JObj [ ("columnById", coalesce columnById (JObj []));
                             ("viewMode", coalesce viewMode (JStr "list")) ]) ].

Definition exportAllData (exportedAt : string) (s : Db.Store) : string :=
  JSON_stringify (exportEnvelope exportedAt s).

Record ParseResult := { data : option JsVal; parseError : option string }.

Definition parseImportFile (content : string) : ParseResult :=
  match JSON_parse content with
  | None => {| data := None;
               parseError := Some "Invalid JSON format. Please check the file contents." |}
  | Some parsed =>
    let validation := validateImportData parsed in
    if negb (valid validation) then {| data := None; parseError := error validation |}
    else {| data := Some parsed; parseError := None |}
  end.

(** [validDocuments] of [importAllData]: the documents whose [taskId] is in
    the set of task ids. *)
Definition validDocuments (tasks documents : list JsVal) : list JsVal :=
  let validTaskIds := map (getProp "id") tasks in
  filter (λ doc, includes validTaskIds doc.["taskId"] = true) documents.

(** [importAllData]: one read-write transaction over the three tables, which
    commits as a whole or leaves the store as it was.  Its argument is typed
    [KhatwaExportData]; on a value without the two arrays or the settings
    object the property reads throw. *)
Definition importAllData (data : JsVal) (s : Db.Store) : Db.Result Db.Store :=
  match data.["tasks"], data.["documents"] with
  | JArr tasks, JArr documents =>
    if nullish data.["settings"] then Db.Err Db.TypeError
    else
      let validDocs := validDocuments tasks documents in
      let tasks0 := Db.clear (Db.tasks s) in
      let documents0 := Db.clear (Db.documents s) in
      let settings0 := Db.clear (Db.settings s) in
      t ← (if (0 <? length tasks)%nat then Db.bulkAdd tasks tasks0 else Db.Ok tasks0);
      d ← (if (0 <? length validDocs)%nat then Db.bulkAdd validDocs documents0
           else Db.Ok documents0);
      Db.Ok {| Db.tasks := t;
               Db.documents := d;
               Db.settings := <["viewMode" := data.["settings"].["viewMode"]]>
                              (<["columnById" := data.["settings"].["columnById"]]> settings0) |}
  | _, _ => Db.Err Db.TypeError
  end.

(** [cleanupOrphanedDocuments]: resolves to the number of documents it
    deleted. *)
Definition cleanupOrphanedDocuments (s : Db.Store) : Db.Result (nat * Db.Store) :=
  let tasks := Db.toArray (Db.tasks s) in
  let documents := Db.toArray (Db.documents s) in
  let validTaskIds := map (getProp "id") tasks in
  let orphanedDocIds :=
    map (getProp "id")
        (filter (λ doc, includes validTaskIds doc.["taskId"] = false) documents) in
  d ← (if (0 <? length orphanedDocIds)%nat
       then Db.bulkDelete orphanedDocIds (Db.documents s)
       else Db.Ok (Db.documents s));
  Db.Ok (length orphanedDocIds,
         {| Db.tasks := Db.tasks s; Db.settings := Db.settings s; Db.documents := d |}).

End WithPlatform.
End ImportExport.


(** ** The typed records of the hooks and what they hand to the store *)

Record SubTask := {
  st_id : string;
  st_label : string;
  st_completed : bool;
}.

Record TaskRecord := {
  task_id : string;
  task_label : string;
  task_link : option string;
  task_subTasks : list SubTask;
}.

Record DocumentRecord := {
  doc_id : string;
  doc_taskId : string;
  doc_title : string;
  doc_content : JsVal;
  doc_createdAt : float;
  doc_updatedAt : float;
}.

Inductive ColumnId := Column1 | Column2 | Column3.

(** The view modes the application sets: use-task-store.ts declares the first
    three, and item-list.tsx also passes ["calendar"], for its calendar view,
    which the hook keeps and stores like the others. *)
Inductive ViewMode := ViewList | ViewColumns | ViewDocuments | ViewCalendar.

#[global] Instance ColumnId_eq_dec : EqDecision ColumnId.
Proof. solve_decision. Defined.

#[global] Instance ViewMode_eq_dec : EqDecision ViewMode.
Proof. solve_decision. Defined.

Definition columnIdName (c : ColumnId) : string :=
  match c with Column1 => "column-1" | Column2 => "column-2" | Column3 => "column-3" end.

Definition viewModeName (v : ViewMode) : string :=
  match v with
  | ViewList => "list"
  | ViewColumns => "columns"
  | ViewDocuments => "documents"
  | ViewCalendar => "calendar"
  end.

(** The JavaScript objects behind the typed records: what the structured
    clone of a record puts in a table. *)
Definition subTaskToJs (st : SubTask) : JsVal :=
  JObj [ ("id", JStr (st_id st)); ("label", JStr (st_label st));
         ("completed", JBool (st_completed st)) ].

Definition taskToJs (t : TaskRecord) : JsVal :=
  JObj ([ ("id", JStr (task_id t)); ("label", JStr (task_label t)) ]
        ++ match task_link t with Some l => [ ("link", JStr l) ] | None => [] end
        ++ [ ("subTasks", JArr (map subTaskToJs (task_subTasks t))) ]).

Definition documentToJs (d : DocumentRecord) : JsVal :=
  JObj [ ("id", JStr (doc_id d)); ("taskId", JStr (doc_taskId d));
         ("title", JStr (doc_title d)); ("content", doc_content d);
         ("createdAt", JNum (doc_createdAt d)); ("updatedAt", JNum (doc_updatedAt d)) ].

Definition columnByIdToJs (m : gmap string ColumnId) : JsVal :=
  JObj (map (λ kv, (kv.1, JStr (columnIdName kv.2))) (map_to_list m)).

(** ** The environment the hooks run in

    One logical thread: a millisecond clock that drives [setTimeout], the
    record store, the [importInProgress] flag of db.ts, and the trace of the
    store calls issued so far (oldest first).  IndexedDB runs the
    transactions on one table in the order in which they were created, so a
    call takes effect on [store] in the order of issue; what is not
    immediate is the answer, and an [async] function that awaits it goes on
    in a later event.  A store call whose promise rejects is caught and
    logged by its caller, so a failed call leaves the store as it was. *)

Inductive StoreOp :=
| OpSaveTasks (items : list TaskRecord)
| OpSetColumnById (columnById : gmap string ColumnId)
| OpSetViewMode (viewMode : ViewMode)
| OpSaveDocument (doc : DocumentRecord)
| OpDeleteDocument (id : string)
| OpDeleteDocumentsByTaskId (taskId : string).

Record Env := {
  clock : nat;
  store : Db.Store;
  importInProgress : bool;
  issued : list StoreOp;
}.

Definition orKeep (s : Db.Store) (r : Db.Result Db.Store) : Db.Store :=
  match r with Db.Ok s' => s' | Db.Err _ => s end.

Definition applyOp (op : StoreOp) (s : Db.Store) : Db.Store :=
  match op with
  | OpSaveTasks items => orKeep s (Db.saveTasks (map taskToJs items) s)
  | OpSetColumnById m => Db.setSetting "columnById" (columnByIdToJs m) s
  | OpSetViewMode v => Db.setSetting "viewMode" (JStr (viewModeName v)) s
  | OpSaveDocument d => orKeep s (Db.saveDocument (documentToJs d) s)
  | OpDeleteDocument id => Db.deleteDocument id s
  | OpDeleteDocumentsByTaskId taskId => Db.deleteDocumentsByTaskId taskId s
  end.

(** Issue one store call. *)
Definition perform (op : StoreOp) (e : Env) : Env :=
  {| clock := clock e; store := applyOp op (store e);
     importInProgress := importInProgress e; issued := issued e ++ [op] |}.

Definition setImportInProgress (value : bool) (e : Env) : Env :=
  {| clock := clock e; store := store e; importInProgress := value; issued := issued e |}.

Definition isImportInProgress (e : Env) : bool := importInProgress e.

Definition tick (dt : nat) (e : Env) : Env :=
  {| clock := clock e + dt; store := store e;
     importInProgress := importInProgress e; issued := issued e |}.

(** Is a timer with that deadline due? *)
Definition due {A : Type} (deadline : A → nat) (timer : option A) (now : nat) : bool :=
  match timer with Some t => (deadline t <=? now)%nat | None => false end.

(** ** hooks/use-task-store.ts

    The hook owns [items], [columnById] and [viewMode].  Each has a
    persistence effect that runs after a render in which the value changed:
    the cleanup of the previous run clears that slice's timer, and the new run
    returns at once while [hasHydratedRef] is unset, otherwise starts a timer
    of [DEBOUNCE_MS] whose callback closes over the rendered value.  The
    callers of [setItems] and [setColumnById] hand over a new array or object
    (where an updater returns the previous one, the caller below does not
    call the setter); [viewMode] is a string, and setting the string the
    state already holds renders nothing, so no effect runs. *)

Module TaskStore.

Definition DEBOUNCE_MS : nat := 300.

(** A live [setTimeout]: when it fires and the value its closure captured. *)
Record Timer (A : Type) := { deadline : nat; captured : A }.
Arguments deadline {A} _.
Arguments captured {A} _.

Record State := {
  items : list TaskRecord;
  columnById : gmap string ColumnId;
  viewMode : ViewMode;
  hasHydratedRef : bool;
  itemsTimeout : option (Timer (list TaskRecord));
  columnByIdTimeout : option (Timer (gmap string ColumnId));
  viewModeTimeout : option (Timer ViewMode);
}.

(** One run of a persistence effect at time [now] for the rendered [value]. *)
Definition persistEffect {A : Type} (hydrated : bool) (now : nat) (value : A) : option (Timer A) :=
  if negb hydrated then None
  else Some {| deadline := now + DEBOUNCE_MS; captured := value |}.

Definition setItems (f : list TaskRecord → list TaskRecord) (e : Env) (h : State) : State :=
  let items' := f (items h) in
  {| items := items'; columnById := columnById h; viewMode := viewMode h;
     hasHydratedRef := hasHydratedRef h;
     itemsTimeout := persistEffect (hasHydratedRef h) (clock e) items';
     columnByIdTimeout := columnByIdTimeout h; viewModeTimeout := viewModeTimeout h |}.

Definition setColumnById (f : gmap string ColumnId → gmap string ColumnId)
    (e : Env) (h : State) : State :=
  let columnById' := f (columnById h) in
  {| items := items h; columnById := columnById'; viewMode := viewMode h;
     hasHydratedRef := hasHydratedRef h;
     itemsTimeout := itemsTimeout h;
     columnByIdTimeout := persistEffect (hasHydratedRef h) (clock e) columnById';
     viewModeTimeout := viewModeTimeout h |}.

Definition setViewMode (v : ViewMode) (e : Env) (h : State) : State :=
  if decide (v = viewMode h) then h
  else
    {| items := items h; columnById := columnById h; viewMode := v;
       hasHydratedRef := hasHydratedRef h;
       itemsTimeout := itemsTimeout h; columnByIdTimeout := columnByIdTimeout h;
       viewModeTimeout := persistEffect (hasHydratedRef h) (clock e) v |}.

(** The timer callbacks.  A fired timer is gone, whatever its callback did. *)
Definition itemsTimerFired (e : Env) (h : State) : Env * State :=
  match itemsTimeout h with
  | None => (e, h)
  | Some t =>
    (if isImportInProgress e then e else perform (OpSaveTasks (captured t)) e,
     {| items := items h; columnById := columnById h; viewMode := viewMode h;
        hasHydratedRef := hasHydratedRef h; itemsTimeout := None;
        columnByIdTimeout := columnByIdTimeout h; viewModeTimeout := viewModeTimeout h |})
  end.

Definition columnByIdTimerFired (e : Env) (h : State) : Env * State :=
  match columnByIdTimeout h with
  | None => (e, h)
  | Some t =>
    (if isImportInProgress e then e else perform (OpSetColumnById (captured t)) e,
     {| items := items h; columnById := columnById h; viewMode := viewMode h;
        hasHydratedRef := hasHydratedRef h; itemsTimeout := itemsTimeout h;
        columnByIdTimeout := None; viewModeTimeout := viewModeTimeout h |})
  end.

Definition viewModeTimerFired (e : Env) (h : State) : Env * State :=
  match viewModeTimeout h with
  | None => (e, h)
  | Some t =>
    (if isImportInProgress e then e else perform (OpSetViewMode (captured t)) e,
     {| items := items h; columnById := columnById h; viewMode := viewMode h;
        hasHydratedRef := hasHydratedRef h; itemsTimeout := itemsTimeout h;
        columnByIdTimeout := columnByIdTimeout h; viewModeTimeout := None |})
  end.

(** Let [dt] milliseconds pass with no call into the hook: every timer whose
    deadline is reached fires.  The three callbacks write disjoint parts of
    the store and start no timer, so they are run slice by slice. *)
Definition runTimers (e : Env) (h : State) : Env * State :=
  let '(e1, h1) := if due deadline (itemsTimeout h) (clock e)
                   then itemsTimerFired e h else (e, h) in
  let '(e2, h2) := if due deadline (columnByIdTimeout h1) (clock e)
                   then columnByIdTimerFired e1 h1 else (e1, h1) in
  if due deadline (viewModeTimeout h2) (clock e)
  then viewModeTimerFired e2 h2 else (e2, h2).

Definition advance (dt : nat) (e : Env) (h : State) : Env * State :=
  runTimers (tick dt e) h.

Definition flushPendingSaves (e : Env) (h : State) : Env * State :=
  (perform (OpSetViewMode (viewMode h))
     (perform (OpSetColumnById (columnById h))
        (perform (OpSaveTasks (items h)) e)),
   {| items := items h; columnById := columnById h; viewMode := viewMode h;
      hasHydratedRef := hasHydratedRef h; itemsTimeout := None;
      columnByIdTimeout := None; viewModeTimeout := None |}).

End TaskStore.

(** ** hooks/use-document-store.ts *)

Module DocumentStore.

Definition DEBOUNCE_MS : nat := 300.

(** [pendingSavesRef] is a JavaScript [Map]: keyed by document id, iterated in
    the order the keys were first set. *)
Fixpoint mapSet (k : string) (v : DocumentRecord) (m : list (string * DocumentRecord))
    : list (string * DocumentRecord) :=
  match m with
  | [] => [(k, v)]
  | (k', v') :: rest =>
    if String.eqb k' k then (k, v) :: rest else (k', v') :: mapSet k v rest
  end.

Definition mapDelete (k : string) (m : list (string * DocumentRecord))
    : list (string * DocumentRecord) :=
  filter (λ kv, kv.1 ≠ k) m.

Definition mapValues (m : list (string * DocumentRecord)) : list DocumentRecord := m.*2.

(** [saveTimeout] is the deadline of the live timer, if any: a handle left in
    [saveTimeoutRef] after its timer fired only makes [clearTimeout] a no-op. *)
Record State := {
  documents : list DocumentRecord;
  pendingSaves : list (string * DocumentRecord);
  saveTimeout : option nat;
}.

Definition scheduleSave (document : DocumentRecord) (e : Env) (h : State) : State :=
  {| documents := documents h;
     pendingSaves := mapSet (doc_id document) document (pendingSaves h);
     saveTimeout := Some (clock e + DEBOUNCE_MS) |}.

(** One turn of the loop
    [for (const doc of saves) { try { await saveDocument(doc) } catch ... }]:
    the store call for the next document is issued, and the loop waits for
    the store to answer.  While it waits any other event may run; what the
    loop has yet to save is its own copy, out of reach of the pending map. *)
Definition saveNext (saves : list DocumentRecord) (e : Env) : Env * list DocumentRecord :=
  match saves with
  | [] => (e, [])
  | doc :: rest => (perform (OpSaveDocument doc) e, rest)
  end.

(** The loop run to its end, when no other event arrives between its turns. *)
Definition saveAll (saves : list DocumentRecord) (e : Env) : Env :=
  foldl (λ e doc, perform (OpSaveDocument doc) e) e saves.

(** The callback of the timer [scheduleSave] starts, up to the first [await]
    of its loop: it tests the flag, copies the pending saves, clears the map
    and issues the first save.  The third component is what the loop has yet
    to save. *)
Definition saveTimerStarted (e : Env) (h : State) : Env * State * list DocumentRecord :=
  let cleared := {| documents := documents h; pendingSaves := []; saveTimeout := None |} in
  if isImportInProgress e then (e, cleared, [])
  else
    let saves := mapValues (pendingSaves h) in
    let '(e1, rest) := saveNext saves e in
    (e1, cleared, rest).

(** The callback run to its end: no other event arrives while its loop waits
    for the store. *)
Definition saveTimerFired (e : Env) (h : State) : Env * State :=
  let '(e1, h1, rest) := saveTimerStarted e h in
  (saveAll rest e1, h1).

Definition runTimers (e : Env) (h : State) : Env * State :=
  if due id (saveTimeout h) (clock e) then saveTimerFired e h else (e, h).

(** Let [dt] milliseconds pass with no call into the hook, the save loop of a
    timer that fires running to its end. *)
Definition advance (dt : nat) (e : Env) (h : State) : Env * State :=
  runTimers (tick dt e) h.

Definition emptyContent : JsVal :=
  JObj [ ("type", JStr "doc"); ("content", JArr [ JObj [ ("type", JStr "paragraph") ] ]) ].

(** [newId] is the value of [createDocumentId()], [now] that of [Date.now()]. *)
Definition addDocument (newId : string) (now : float) (taskId title : string)
    (e : Env) (h : State) : DocumentRecord * State :=
  let newDoc := {| doc_id := newId; doc_taskId := taskId;
                   doc_title := if String.eqb title "" then "Untitled" else title;
                   doc_content := emptyContent;
                   doc_createdAt := now; doc_updatedAt := now |} in
  (newDoc,
   scheduleSave newDoc e
     {| documents := documents h ++ [newDoc]; pendingSaves := pendingSaves h;
        saveTimeout := saveTimeout h |}).

(** [Partial<Pick<DocumentRecord, 'title' | 'content'>>]. *)
Record Updates := { upd_title : option string; upd_content : option JsVal }.

Definition applyUpdates (updates : Updates) (now : float) (doc : DocumentRecord)
    : DocumentRecord :=
  {| doc_id := doc_id doc; doc_taskId := doc_taskId doc;
     doc_title := default (doc_title doc) (upd_title updates);
     doc_content := default (doc_content doc) (upd_content updates);
     doc_createdAt := doc_createdAt doc; doc_updatedAt := now |}.

(** [setDocuments(prev => prev.map(doc => ...))]: each document with that id
    is replaced and handed to [scheduleSave], in list order. *)
Definition updateDocument (id : string) (updates : Updates) (now : float)
    (e : Env) (h : State) : State :=
  let docs' := map (λ doc, if String.eqb (doc_id doc) id
                           then applyUpdates updates now doc else doc) (documents h) in
  let updated := filter (λ doc, doc_id doc = id) docs' in
  foldl (λ h doc, scheduleSave doc e h)
        {| documents := docs'; pendingSaves := pendingSaves h; saveTimeout := saveTimeout h |}
        updated.

Definition deleteDocument (id : string) (e : Env) (h : State) : Env * State :=
  (perform (OpDeleteDocument id) e,
   {| documents := filter (λ doc, doc_id doc ≠ id) (documents h);
      pendingSaves := mapDelete id (pendingSaves h);
      saveTimeout := saveTimeout h |}).

(** The updater handed to [setDocuments] cancels the pending saves; it is run
    with the call, before any timer can fire. *)
Definition deleteDocumentsByTaskId (taskId : string) (e : Env) (h : State) : Env * State :=
  let docsToDelete := filter (λ doc, doc_taskId doc = taskId) (documents h) in
  (perform (OpDeleteDocumentsByTaskId taskId) e,
   {| documents := filter (λ doc, doc_taskId doc ≠ taskId) (documents h);
      pendingSaves := foldl (λ m doc, mapDelete (doc_id doc) m) (pendingSaves h) docsToDelete;
      saveTimeout := saveTimeout h |}).

Definition getDocumentsByTaskId (taskId : string) (h : State) : list DocumentRecord :=
  filter (λ doc, doc_taskId doc = taskId) (documents h).

(** [flushPendingSaves] up to the first [await] of its loop, with what the
    loop has yet to save. *)
Definition flushStarted (e : Env) (h : State) : Env * State * list DocumentRecord :=
  let saves := mapValues (pendingSaves h) in
  let '(e1, rest) := saveNext saves e in
  (e1, {| documents := documents h; pendingSaves := []; saveTimeout := None |}, rest).

(** [flushPendingSaves] run to its end: no other event arrives while its loop
    waits for the store. *)
Definition flushPendingSaves (e : Env) (h : State) : Env * State :=
  let '(e1, h1, rest) := flushStarted e h in
  (saveAll rest e1, h1).

End DocumentStore.

(** ** components/item-list.tsx: the task operations that reach the hooks *)

Module ItemList.

Definition DEFAULT_COLUMN : ColumnId := Column1.

(** [columnById] is a plain object, so a property read that finds no own
    entry goes on to [Object.prototype].  These are the names it has there:
    under each a function, under [__proto__] the prototype itself, none of
    them nullish. *)
Definition objectPrototypeNames : list string :=
  [ "constructor"; "hasOwnProperty"; "isPrototypeOf"; "propertyIsEnumerable";
    "toLocaleString"; "toString"; "valueOf"; "__defineGetter__"; "__defineSetter__";
    "__lookupGetter__"; "__lookupSetter__"; "__proto__" ].

(** [columnById[id] ?? DEFAULT_COLUMN]: the own entry; without one, the
    default, unless [id] names a member of [Object.prototype], which is then
    what the expression yields: [None], no column. *)
Definition columnOf (columnById : gmap string ColumnId) (id : string) : option ColumnId :=
  match columnById !! id with
  | Some column => Some column
  | None => if bool_decide (id ∈ objectPrototypeNames) then None else Some DEFAULT_COLUMN
  end.

Record App := {
  env : Env;
  taskStore : TaskStore.State;
  documentStore : DocumentStore.State;
  editingItemId : option string;
}.

Definition removeItem (idToRemove : string) (a : App) : App :=
  let '(e1, d1) := DocumentStore.deleteDocumentsByTaskId idToRemove (env a) (documentStore a) in
  let t1 := TaskStore.setItems
              (λ prevItems, filter (λ item, task_id item ≠ idToRemove) prevItems)
              e1 (taskStore a) in
  let t2 := TaskStore.setColumnById (λ prevColumns, delete idToRemove prevColumns) e1 t1 in
  {| env := e1; taskStore := t2; documentStore := d1; editingItemId := editingItemId a |}.

(** [st.id === subTaskId ? { ...st, completed: !st.completed } : st]. *)
Definition toggle (subTaskId : string) (st : SubTask) : SubTask :=
  if String.eqb (st_id st) subTaskId
  then {| st_id := st_id st; st_label := st_label st; st_completed := negb (st_completed st) |}
  else st.

(** [toggleSubTask]: returns at once when [editingItemId] is falsy ([null] or
    the empty string).  The callback of [prevItems.map] rewrites the task
    being edited and, when some sub-task is now completed and
    [columnById[item.id] ?? DEFAULT_COLUMN] of the rendered [columnById] is
    column-1, calls [setColumnById] to map it to column-2. *)
Definition toggleSubTask (subTaskId : string) (a : App) : App :=
  match editingItemId a with
  | None => a
  | Some editingId =>
    if String.eqb editingId "" then a
    else
      let columnById := TaskStore.columnById (taskStore a) in
      let updatedSubTasks (item : TaskRecord) := map (toggle subTaskId) (task_subTasks item) in
      let updateItem (item : TaskRecord) :=
        if negb (String.eqb (task_id item) editingId) then item
        else {| task_id := task_id item; task_label := task_label item;
                task_link := task_link item; task_subTasks := updatedSubTasks item |} in
      let moves (item : TaskRecord) : bool :=
        String.eqb (task_id item) editingId
        && existsb st_completed (updatedSubTasks item)
        && bool_decide (columnOf columnById (task_id item) = Some Column1) in
      let moved := List.filter moves (TaskStore.items (taskStore a)) in
      let t1 := TaskStore.setItems (map updateItem) (env a) (taskStore a) in
      let t2 := foldl (λ t item,
                         TaskStore.setColumnById (λ prev, <[task_id item := Column2]> prev)
                                                 (env a) t)
                      t1 moved in
      {| env := env a; taskStore := t2; documentStore := documentStore a;
         editingItemId := editingItemId a |}
  end.

(** Let [dt] milliseconds pass with no user event: both hooks run their due
    timers, the save loop of the document hook to its end. *)
Definition advance (dt : nat) (a : App) : App :=
  let e0 := tick dt (env a) in
  let '(e1, t1) := TaskStore.runTimers e0 (taskStore a) in
  let '(e2, d1) := DocumentStore.runTimers e1 (documentStore a) in
  {| env := e2; taskStore := t1; documentStore := d1; editingItemId := editingItemId a |}.

(** The same passing of time with the callback of the document hook's timer
    taken up to the first [await] of its loop.  The second component is what
    that loop has yet to save: nothing when the timer was not due, when the
    flag was set or when one document was pending. *)
Definition timersFire (dt : nat) (a : App) : App * list DocumentRecord :=
  let e0 := tick dt (env a) in
  let '(e1, t1) := TaskStore.runTimers e0 (taskStore a) in
  if due id (DocumentStore.saveTimeout (documentStore a)) (clock e1) then
    let '(e2, d1, rest) := DocumentStore.saveTimerStarted e1 (documentStore a) in
    ({| env := e2; taskStore := t1; documentStore := d1; editingItemId := editingItemId a |},
     rest)
  else
    ({| env := e1; taskStore := t1; documentStore := documentStore a;
        editingItemId := editingItemId a |},
     []).

(** The store has answered a save loop that was waiting with [saves] to go:
    the loop takes its next turn. *)
Definition saveLoopResumes (saves : list DocumentRecord) (a : App) : App * list DocumentRecord :=
  let '(e1, rest) := DocumentStore.saveNext saves (env a) in
  ({| env := e1; taskStore := taskStore a; documentStore := documentStore a;
      editingItemId := editingItemId a |},
   rest).

(** [Array.prototype.sort] with a comparator: the sort is stable, so for a
    consistent comparator its result is the one of this insertion sort. *)
Fixpoint sortInsert {A : Type} (compareFn : A → A → Z) (x : A) (sorted : list A) : list A :=
  match sorted with
  | [] => [x]
  | y :: rest =>
    if (compareFn x y <=? 0)%Z then x :: y :: rest
    else y :: sortInsert compareFn x rest
  end.

Definition arraySort {A : Type} (compareFn : A → A → Z) (xs : list A) : list A :=
  foldr (sortInsert compareFn) [] xs.

(** [Number(b)]. *)
Definition Number_ofBool (b : bool) : Z := if b then 1%Z else 0%Z.

Definition sortSubTasks (subTasks : list SubTask) : list SubTask :=
  arraySort (λ a b, (Number_ofBool (st_completed a) - Number_ofBool (st_completed b))%Z)
            subTasks.

(** [itemsByColumn]: one array per column, filled by one pass over [items].
    It is computed in every render of the component. *)
Record Columns := {
  column1 : list TaskRecord;
  column2 : list TaskRecord;
  column3 : list TaskRecord;
}.


(** [map[column].push(item)]. *)
Definition push (column : ColumnId) (item : TaskRecord) (m : Columns) : Columns :=
  match column with
  | Column1 => {| column1 := column1 m ++ [item]; column2 := column2 m; column3 := column3 m |}
  | Column2 => {| column1 := column1 m; column2 := column2 m ++ [item]; column3 := column3 m |}
  | Column3 => {| column1 := column1 m; column2 := column2 m; column3 := column3 m ++ [item] |}
  end.

(** [None] when [map[column].push(item)] throws a [TypeError]: [column] is no
    column, so [map[column]] is [undefined]. *)
Definition itemsByColumn (items : list TaskRecord) (columnById : gmap string ColumnId)
    : option Columns :=
  foldl (λ r item,
           m ← r;
           column ← columnOf columnById (task_id item);
           Some (push column item m))
        (Some {| column1 := []; column2 := []; column3 := [] |})
        items.

(** [handleDrop]: [itemId] is the text of the drag.  An updater that returns
    the previous map leaves the state as it is, so no effect runs. *)
Definition handleDrop (itemId : string) (columnId : ColumnId) (a : App) : App :=
  if String.eqb itemId "" then a
  else if bool_decide (TaskStore.columnById (taskStore a) !! itemId = Some columnId) then a
  else
    {| env := env a;
       taskStore := TaskStore.setColumnById (λ prevColumns, <[itemId := columnId]> prevColumns)
                                            (env a) (taskStore a);
       documentStore := documentStore a; editingItemId := editingItemId a |}.

Section WithPlatform.
Context `{Platform}.

(** The text fields of the component, each a [useState] cell. *)
Record Form := {
  inputValue : string;
  editingLabel : string;
  editingLink : string;
  subTaskInput : string;
  isEditMode : bool;
}.

(** [newId] is the value of [createItemId()]. *)
Definition addItem (newId : string) (f : Form) (a : App) : Form * App :=
  let nextValue := String_trim (inputValue f) in
  if String.eqb nextValue "" then (f, a)
  else
    let t1 := TaskStore.setItems
                (λ prevItems, (prevItems ++ [ {| task_id := newId; task_label := nextValue;
                                                 task_link := None;
                                                 task_subTasks := [] |} ])%list)
                (env a) (taskStore a) in
    let t2 := TaskStore.setColumnById (λ prevColumns, <[newId := DEFAULT_COLUMN]> prevColumns)
                                      (env a) t1 in
    ({| inputValue := ""; editingLabel := editingLabel f; editingLink := editingLink f;
        subTaskInput := subTaskInput f; isEditMode := isEditMode f |},
     {| env := env a; taskStore := t2; documentStore := documentStore a;
        editingItemId := editingItemId a |}).

(** [saveEdit]: [editingLink.trim() || undefined] leaves the task without a
    link when the field is blank. *)
Definition saveEdit (f : Form) (a : App) : Form * App :=
  match editingItemId a with
  | None => (f, a)
  | Some editingId =>
    if String.eqb editingId "" then (f, a)
    else
      let nextLabel := String_trim (editingLabel f) in
      if String.eqb nextLabel "" then (f, a)
      else
        let nextLink := if String.eqb (String_trim (editingLink f)) "" then None
                        else Some (String_trim (editingLink f)) in
        let t1 := TaskStore.setItems
                    (map (λ item, if String.eqb (task_id item) editingId
                                  then {| task_id := task_id item; task_label := nextLabel;
                                          task_link := nextLink;
                                          task_subTasks := task_subTasks item |}
                                  else item))
                    (env a) (taskStore a) in
        ({| inputValue := inputValue f; editingLabel := editingLabel f;
            editingLink := editingLink f; subTaskInput := subTaskInput f;
            isEditMode := false |},
         {| env := env a; taskStore := t1; documentStore := documentStore a;
            editingItemId := editingItemId a |})
  end.

Definition addSubTask (newId : string) (f : Form) (a : App) : Form * App :=
  let nextValue := String_trim (subTaskInput f) in
  match editingItemId a with
  | None => (f, a)
  | Some editingId =>
    if String.eqb nextValue "" || String.eqb editingId "" then (f, a)
    else
      let t1 := TaskStore.setItems
                  (map (λ item, if String.eqb (task_id item) editingId
                                then {| task_id := task_id item; task_label := task_label item;
                                        task_link := task_link item;
                                        task_subTasks :=
                                          (task_subTasks item
                                           ++ [ {| st_id := newId; st_label := nextValue;
                                                   st_completed := false |} ])%list |}
                                else item))
                  (env a) (taskStore a) in
      ({| inputValue := inputValue f; editingLabel := editingLabel f;
          editingLink := editingLink f; subTaskInput := ""; isEditMode := isEditMode f |},
       {| env := env a; taskStore := t1; documentStore := documentStore a;
          editingItemId := editingItemId a |})
  end.

End WithPlatform.

Definition removeSubTask (subTaskId : string) (a : App) : App :=
  match editingItemId a with
  | None => a
  | Some editingId =>
    if String.eqb editingId "" then a
    else
      {| env := env a;
         taskStore :=
           TaskStore.setItems
             (map (λ item, if String.eqb (task_id item) editingId
                           then {| task_id := task_id item; task_label := task_label item;
                                   task_link := task_link item;
                                   task_subTasks :=
                                     filter (λ st, st_id st ≠ subTaskId) (task_subTasks item) |}
                           else item))
             (env a) (taskStore a);
         documentStore := documentStore a; editingItemId := editingItemId a |}
  end.

End ItemList.

(** ** components/settings-menu.tsx: the import flow *)

Module SettingsMenu.
Section WithPlatform.
Context `{Platform}.

Inductive DialogMode := DialogNone | DialogExport | DialogImport | DialogConfirmImport.

Record State := {
  dialogMode : DialogMode;
  importText : string;
  error : option string;
  isLoading : bool;
  pageReloaded : bool;
}.

Definition handleCloseDialog (m : State) : State :=
  {| dialogMode := DialogNone; importText := ""; error := None;
     isLoading := isLoading m; pageReloaded := pageReloaded m |}.

(** [parseError || !data]. *)
Definition rejected (r : ImportExport.ParseResult) : bool :=
  match ImportExport.parseError r with
  | Some msg => negb (String.eqb msg "")
  | None => false
  end
  || match ImportExport.data r with None => true | Some _ => false end.

(** [handleConfirmImport].  On a rejected text it sets the error and returns;
    otherwise it sets the suspend flag and imports, then closes the dialog and
    reloads the page, or, when the import throws, clears the flag and reports
    the failure. *)
Definition handleConfirmImport (m : State) (e : Env) : State * Env :=
  let r := ImportExport.parseImportFile (String_trim (importText m)) in
  if rejected r then
    ({| dialogMode := dialogMode m; importText := importText m;
        error := Some (default "Failed to parse data" (ImportExport.parseError r));
        isLoading := false; pageReloaded := pageReloaded m |}, e)
  else
    match ImportExport.data r with
    | None => (m, e) (* excluded by the test above *)
    | Some data =>
      let e1 := setImportInProgress true e in
      match ImportExport.importAllData data (store e1) with
      | Db.Ok s' =>
        let closed := handleCloseDialog m in
        ({| dialogMode := dialogMode closed; importText := importText closed;
            error := error closed; isLoading := false; pageReloaded := true |},
         {| clock := clock e1; store := s'; importInProgress := importInProgress e1;
            issued := issued e1 |})
      | Db.Err _ =>
        ({| dialogMode := dialogMode m; importText := importText m;
            error := Some "Failed to import data. Please try again.";
            isLoading := false; pageReloaded := pageReloaded m |},
         setImportInProgress false e1)
      end
    end.

(** [importPreview], a [useState] cell of its own. *)
Record ImportPreview := { taskCount : nat; documentCount : nat }.

(** [handlePreviewImport]: the counts are the lengths of the two arrays of the
    parsed backup.  On a blank or rejected text only the error changes. *)
Definition handlePreviewImport (m : State) (importPreview : option ImportPreview)
    : State * option ImportPreview :=
  let trimmed := String_trim (importText m) in
  if String.eqb trimmed "" then
    ({| dialogMode := dialogMode m; importText := importText m;
        error := Some "Please paste your backup data.";
        isLoading := isLoading m; pageReloaded := pageReloaded m |}, importPreview)
  else
    let r := ImportExport.parseImportFile trimmed in
    if rejected r then
      ({| dialogMode := dialogMode m; importText := importText m;
          error := Some (default "Failed to parse data" (ImportExport.parseError r));
          isLoading := isLoading m; pageReloaded := pageReloaded m |}, importPreview)
    else
      match ImportExport.data r with
      | None => (m, importPreview) (* excluded by the test above *)
      | Some data =>
        ({| dialogMode := DialogConfirmImport; importText := importText m;
            error := None; isLoading := isLoading m; pageReloaded := pageReloaded m |},
         Some {| taskCount := length (elements data.["tasks"]);
                 documentCount := length (elements data.["documents"]) |})
      end.

End WithPlatform.
End SettingsMenu.

(** ** components/document-editor-modal.tsx: the autosave of the editor

    The modal keeps [title], [content] and [hasChanges] as state, and the
    handle of its autosave timer and [skipFlushRef] in refs.  Its parent is
    reached through the callbacks [onSave] and [onDelete] alone, so the
    parent's state is a parameter.  Two effects matter here.  The autosave
    effect depends on [title], [content] and [hasChanges]: when one of them
    changed it clears the timer and, [hasChanges] being set, starts one of
    500 ms whose callback hands the rendered title and content to [onSave].
    The mount effect depends on [flushPendingSave], a [useCallback] over the
    same three values: when one of them changed, its cleanup runs first, and
    unless [skipFlushRef] is set it calls the [flushPendingSave] of the
    previous render. *)

Module DocumentEditorModal.
Section WithParent.
Context `{Platform} {P : Type}.
Variable onSave : DocumentStore.Updates → P → P.
Variable onDelete : P → P.

Record State := {
  title : string;
  content : JsVal;
  hasChanges : bool;
  saveTimeoutRef : option (TaskStore.Timer DocumentStore.Updates);
  skipFlushRef : bool;
}.

(** The first render for the document [doc]. *)
Definition mount (doc : DocumentRecord) : State :=
  {| title := doc_title doc; content := doc_content doc; hasChanges := false;
     saveTimeoutRef := None; skipFlushRef := false |}.

(** [{ title: title.trim() || "Untitled", content }]. *)
Definition updates (title : string) (content : JsVal) : DocumentStore.Updates :=
  {| DocumentStore.upd_title :=
       Some (if String.eqb (String_trim title) "" then "Untitled" else String_trim title);
     DocumentStore.upd_content := Some content |}.

(** [flushPendingSave] as the render [rendered] created it, run when the refs
    are those of [s]. *)
Definition flushPendingSave (rendered s : State) (p : P) : State * P :=
  if negb (hasChanges rendered) then (s, p)
  else
    ({| title := title s; content := content s; hasChanges := hasChanges s;
        saveTimeoutRef := None; skipFlushRef := skipFlushRef s |},
     onSave (updates (title rendered) (content rendered)) p).

(** The effects after a render, at time [now], in which [setHasChanges(true)]
    and a new title or content changed the state: the cleanup of the mount
    effect, then the cleanup and the new run of the autosave effect. *)
Definition rerender (now : nat) (title' : string) (content' : JsVal) (s : State) (p : P)
    : State * P :=
  let next := {| title := title'; content := content'; hasChanges := true;
                 saveTimeoutRef := saveTimeoutRef s; skipFlushRef := skipFlushRef s |} in
  let '(s1, p1) := if skipFlushRef s then (next, p) else flushPendingSave s next p in
  ({| title := title s1; content := content s1; hasChanges := hasChanges s1;
      saveTimeoutRef :=
        Some {| TaskStore.deadline := now + 500;
                TaskStore.captured := updates title' content' |};
      skipFlushRef := skipFlushRef s1 |},
   p1).

(** [onChange] of the title input.  Setting the values the state already has
    renders nothing. *)
Definition changeTitle (now : nat) (value : string) (s : State) (p : P) : State * P :=
  if String.eqb value (title s) && hasChanges s then (s, p)
  else rerender now value (content s) s p.

(** [onChange] of the editor: [newContent] is a new object each time. *)
Definition changeContent (now : nat) (newContent : JsVal) (s : State) (p : P) : State * P :=
  rerender now (title s) newContent s p.

(** The callback of the autosave timer. *)
Definition saveTimerFired (s : State) (p : P) : State * P :=
  match saveTimeoutRef s with
  | None => (s, p)
  | Some t =>
    ({| title := title s; content := content s; hasChanges := hasChanges s;
        saveTimeoutRef := None; skipFlushRef := skipFlushRef s |},
     onSave (TaskStore.captured t) p)
  end.

(** The clock reaches [now] with no event in the modal. *)
Definition advance (now : nat) (s : State) (p : P) : State * P :=
  if due TaskStore.deadline (saveTimeoutRef s) now then saveTimerFired s p else (s, p).

(** [handleClose(options)], up to the animation that precedes [onClose]. *)
Definition handleClose (skipSave : bool) (s : State) (p : P) : State * P :=
  let '(s1, p1) := if skipSave then (s, p) else flushPendingSave s s p in
  ({| title := title s1; content := content s1; hasChanges := hasChanges s1;
      saveTimeoutRef := saveTimeoutRef s1; skipFlushRef := true |},
   p1).

Definition handleDelete (s : State) (p : P) : State * P :=
  handleClose true
    {| title := title s; content := content s; hasChanges := hasChanges s;
       saveTimeoutRef := saveTimeoutRef s; skipFlushRef := true |}
    (onDelete p).

End WithParent.

(** The [onSave] that item-list.tsx and documents-view.tsx pass to the modal:
    [updateDocument] of the document hook, for the document being edited.
    [dateNow] gives the value of [Date.now()] at a time of the clock. *)
Definition saveToHook (id : string) (dateNow : nat → float) (updates : DocumentStore.Updates)
    (w : Env * DocumentStore.State) : Env * DocumentStore.State :=
  (w.1, DocumentStore.updateDocument id updates (dateNow (clock w.1)) w.1 w.2).

(** The [onDelete] they pass: [deleteDocument] of the document hook. *)
Definition deleteFromHook (id : string) (w : Env * DocumentStore.State)
    : Env * DocumentStore.State :=
  DocumentStore.deleteDocument id w.1 w.2.

End DocumentEditorModal.

(** ** A reference platform

    An executable instance of [Platform], used to run the model on concrete
    backups.  It implements the JSON grammar and the two-space layout of
    [JSON.stringify(v, null, 2)] for strings of one-byte characters and for
    numbers that are integers below 2^53: any other number literal is
    reported as a syntax error, and any other number prints as NaN.  [trim]
    strips the white space of the JSON grammar. *)

Module Reference.

Definition dq : ascii := "034"%char.
Definition nl : ascii := "010"%char.
Definition chr (c : ascii) : string := String c EmptyString.

Definition hexDigit (n : N) : ascii :=
  ascii_of_N (if (n <? 10)%N then 48 + n else 87 + n).

Definition escapeChar (c : ascii) : string :=
  if Ascii.eqb c dq then String "\" (chr dq)
  else if Ascii.eqb c "\" then "\\"
  else if Ascii.eqb c nl then "\n"
  else if Ascii.eqb c "009" then "\t"
  else if Ascii.eqb c "013" then "\r"
  else if Ascii.eqb c "008" then "\b"
  else if Ascii.eqb c "012" then "\f"
  else if (N_of_ascii c <? 32)%N then
    "\u00" ++ chr (hexDigit (N_of_ascii c / 16)) ++ chr (hexDigit (N_of_ascii c mod 16))
  else chr c.

Fixpoint escape (s : string) : string :=
  match s with
  | EmptyString => EmptyString
  | String c rest => escapeChar c ++ escape rest
  end.

Definition quote (s : string) : string := chr dq ++ escape s ++ chr dq.

(** The integer a float denotes, when it is one. *)
Definition floatToZ (x : float) : option Z :=
  match FloatOps.Prim2SF x with
  | SpecFloat.S754_zero _ => Some 0%Z
  | SpecFloat.S754_finite sign m e =>
    let magnitude :=
      if (0 <=? e)%Z then Some (Z.pos m * 2 ^ e)%Z
      else if (Z.pos m mod 2 ^ (- e) =? 0)%Z then Some (Z.pos m / 2 ^ (- e))%Z
      else None in
    (λ z, if sign then (- z)%Z else z) <$> magnitude
  | _ => None
  end.

Definition numberToString (x : float) : string :=
  match floatToZ x with
  | Some z => if (Z.abs z <? 2 ^ 53)%Z then pretty z else "NaN"
  | None => "NaN"
  end.

Fixpoint join (sep : string) (parts : list string) : string :=
  match parts with
  | [] => EmptyString
  | [p] => p
  | p :: rest => p ++ sep ++ join sep rest
  end.

Fixpoint stringify (indent : string) (v : JsVal) : string :=
  let inner := indent ++ "  " in
  let block (opening closing : string) (lines : list string) : string :=
    opening ++ chr nl ++ join ("," ++ chr nl) lines ++ chr nl ++ indent ++ closing in
  match v with
  | JUndefined | JNull => "null"
  | JBool b => if b then "true" else "false"
  | JNum n => if PrimFloat.is_finite n then numberToString n else "null"
  | JStr s => quote s
  | JArr xs =>
    match xs with
    | [] => "[]"
    | _ => block "[" "]" (map (λ x, inner ++ stringify inner x) xs)
    end
  | JObj props =>
    let members :=
      (fix go (ps : list (string * JsVal)) : list string :=
         match ps with
         | [] => []
         | (k, x) :: rest =>
           match x with
           | JUndefined => go rest
           | _ => (inner ++ quote k ++ ": " ++ stringify inner x) :: go rest
           end
         end) props in
    match members with
    | [] => "{}"
    | _ => block "{" "}" members
    end
  end.

Definition isWs (c : ascii) : bool :=
  Ascii.eqb c " " || Ascii.eqb c nl || Ascii.eqb c "009" || Ascii.eqb c "013".

Fixpoint skipWs (s : string) : string :=
  match s with
  | String c rest => if isWs c then skipWs rest else s
  | EmptyString => s
  end.

Definition isDigit (c : ascii) : bool :=
  (48 <=? N_of_ascii c)%N && (N_of_ascii c <=? 57)%N.

(** The digits at the front of [s], as a number, with how many there were. *)
Fixpoint digits (s : string) (acc : N) (count : nat) : N * nat * string :=
  match s with
  | String c rest =>
    if isDigit c then digits rest (10 * acc + (N_of_ascii c - 48))%N (S count)
    else (acc, count, s)
  | EmptyString => (acc, count, s)
  end.

Definition parseNat (s : string) : option (N * string) :=
  let '(n, count, rest) := digits s 0%N 0 in
  match count, s with
  | O, _ => None
  | S (S _), String "0" _ => None
  | _, _ => if (n <? 2 ^ 53)%N then Some (n, rest) else None
  end.

Definition natToFloat (n : N) : float := PrimFloat.of_uint63 (Uint63.of_Z (Z.of_N n)).

Definition parseNumber (s : string) : option (JsVal * string) :=
  match s with
  | String "-" rest =>
    '(n, rest') ← parseNat rest; Some (JNum (PrimFloat.opp (natToFloat n)), rest')
  | _ => '(n, rest') ← parseNat s; Some (JNum (natToFloat n), rest')
  end.

Definition hexValue (c : ascii) : option N :=
  let n := N_of_ascii c in
  if isDigit c then Some (n - 48)%N
  else if (97 <=? n)%N && (n <=? 102)%N then Some (n - 87)%N
  else if (65 <=? n)%N && (n <=? 70)%N then Some (n - 55)%N
  else None.

(** The rest of a string literal after its opening quote. *)
Fixpoint parseStringBody (s : string) : option (string * string) :=
  match s with
  | EmptyString => None
  | String c rest =>
    if Ascii.eqb c dq then Some (EmptyString, rest)
    else if Ascii.eqb c "\" then
      match rest with
      | String "u" (String a (String b (String x (String y rest')))) =>
        ha ← hexValue a; hb ← hexValue b; hx ← hexValue x; hy ← hexValue y;
        (if (ha =? 0)%N && (hb =? 0)%N && (hx <? 8)%N
         then '(str, after) ← parseStringBody rest';
              Some (String (ascii_of_N (16 * hx + hy)) str, after)
         else None)
      | String e rest' =>
        esc ← (if Ascii.eqb e dq then Some dq
               else if Ascii.eqb e "\" then Some "\"%char
               else if Ascii.eqb e "/" then Some "/"%char
               else if Ascii.eqb e "b" then Some "008"%char
               else if Ascii.eqb e "f" then Some "012"%char
               else if Ascii.eqb e "n" then Some nl
               else if Ascii.eqb e "r" then Some "013"%char
               else if Ascii.eqb e "t" then Some "009"%char
               else None);
        '(str, after) ← parseStringBody rest';
        Some (String esc str, after)
      | EmptyString => None
      end
    else if (N_of_ascii c <? 32)%N then None
    else '(str, after) ← parseStringBody rest; Some (String c str, after)
  end.

(** [obj[k] = v] while an object literal is read: a repeated key keeps its
    place and takes the later value. *)
Fixpoint objSet (k : string) (v : JsVal) (props : list (string * JsVal))
    : list (string * JsVal) :=
  match props with
  | [] => [(k, v)]
  | (k', v') :: rest =>
    if String.eqb k' k then (k, v) :: rest else (k', v') :: objSet k v rest
  end.

Fixpoint parseValue (fuel : nat) (s : string) : option (JsVal * string) :=
  match fuel with
  | O => None
  | S fuel' =>
    match skipWs s with
    | EmptyString => None
    | String "n" (String "u" (String "l" (String "l" rest))) => Some (JNull, rest)
    | String "t" (String "r" (String "u" (String "e" rest))) => Some (JBool true, rest)
    | String "f" (String "a" (String "l" (String "s" (String "e" rest)))) =>
      Some (JBool false, rest)
    | String "[" rest =>
      match skipWs rest with
      | String "]" after => Some (JArr [], after)
      | _ =>
        '(xs, after) ←
          (fix elems (n : nat) (s : string) : option (list JsVal * string) :=
             match n with
             | O => None
             | S n' =>
               '(v, s1) ← parseValue fuel' s;
               match skipWs s1 with
               | String "," s2 => '(vs, s3) ← elems n' s2; Some (v :: vs, s3)
               | String "]" s2 => Some ([v], s2)
               | _ => None
               end
             end) fuel' rest;
        Some (JArr xs, after)
      end
    | String "{" rest =>
      match skipWs rest with
      | String "}" after => Some (JObj [], after)
      | _ =>
        '(props, after) ←
          (fix members (n : nat) (s : string) (acc : list (string * JsVal))
               : option (list (string * JsVal) * string) :=
             match n with
             | O => None
             | S n' =>
               match skipWs s with
               | String c s0 =>
                 if Ascii.eqb c dq then
                   '(k, s1) ← parseStringBody s0;
                   match skipWs s1 with
                   | String ":" s2 =>
                     '(v, s3) ← parseValue fuel' s2;
                     match skipWs s3 with
                     | String "," s4 => members n' s4 (objSet k v acc)
                     | String "}" s4 => Some (objSet k v acc, s4)
                     | _ => None
                     end
                   | _ => None
                   end
                 else None
               | EmptyString => None
               end
             end) fuel' rest [];
        Some (JObj props, after)
      end
    | String c rest =>
      if Ascii.eqb c dq then '(str, after) ← parseStringBody rest; Some (JStr str, after)
      else parseNumber (String c rest)
    end
  end.

Definition parse (text : string) : option JsVal :=
  '(v, rest) ← parseValue (S (String.length text)) text;
  match skipWs rest with EmptyString => Some v | _ => None end.

Definition reverse (s : string) : string :=
  string_of_list_ascii (rev (list_ascii_of_string s)).

Definition trim (s : string) : string := reverse (skipWs (reverse (skipWs s))).

(** Backup texts are written below with [']  where the file has a double
    quote. *)
Fixpoint text (s : string) : string :=
  match s with
  | EmptyString => EmptyString
  | String c rest => String (if Ascii.eqb c "'" then dq else c) (text rest)
  end.

Definition platform : Platform :=
  {| JSON_parse := parse;
     JSON_stringify := stringify EmptyString;
     Number_toString := numberToString;
     String_trim := trim |}.

End Reference.

(** ** The validation contract, in the words of the specification

    Five checks, in this order: (1) the top-level value is an object; (2)
    [version] is a number and does not exceed the supported version; (3)
    [tasks] is an array whose every element has string [id], string [label]
    and an array [subTasks]; (4) [documents] is an array whose every element
    has string [id], [taskId], [title]; (5) [settings] is an object with an
    object [columnById] and a [viewMode] drawn from the supported enum, which
    the specification gives as list, columns, documents, calendar.  An object
    is what JavaScript calls one: [typeof v === 'object'] and not [null]. *)

Module Contract.

Inductive Check := CheckObject | CheckVersion | CheckTasks | CheckDocuments | CheckSettings.

Definition isObject (v : JsVal) : bool := isType TObject v && negb (isNull v).

Definition hasTaskFields (t : JsVal) : bool :=
  isType TString t.["id"] && isType TString t.["label"] && isArray t.["subTasks"].

Definition hasDocumentFields (d : JsVal) : bool :=
  isType TString d.["id"] && isType TString d.["taskId"] && isType TString d.["title"].

Definition supportedViewModes : list JsVal :=
  [JStr "list"; JStr "columns"; JStr "documents"; JStr "calendar"].

Definition holds (c : Check) (v : JsVal) : bool :=
  match c with
  | CheckObject => isObject v
  | CheckVersion =>
    match v.["version"] with
    | JNum n => negb (PrimFloat.ltb ImportExport.EXPORT_VERSION n)
    | _ => false
    end
  | CheckTasks => isArray v.["tasks"] && forallb hasTaskFields (elements v.["tasks"])
  | CheckDocuments =>
    isArray v.["documents"] && forallb hasDocumentFields (elements v.["documents"])
  | CheckSettings =>
    isObject v.["settings"] && isObject v.["settings"].["columnById"]
    && includes supportedViewModes v.["settings"].["viewMode"]
  end.

Definition checks : list Check :=
  [CheckObject; CheckVersion; CheckTasks; CheckDocuments; CheckSettings].

(** The first check, in order, that the value fails. *)
Definition firstFailure (v : JsVal) : option Check :=
  List.find (λ c, negb (holds c v)) checks.

(** The reasons the validator reports for a failure of each check. *)
Definition reasons `{Platform} (c : Check) (v : JsVal) : list string :=
  match c with
  | CheckObject => ["Invalid data format: expected an object"]
  | CheckVersion =>
    "Missing or invalid version number"
    :: match v.["version"] with JNum n => [ImportExport.versionTooNew n] | _ => [] end
  | CheckTasks =>
    ["Missing or invalid tasks array"; "Invalid task entry";
     "Task missing required fields (id, label)"; "Task missing subTasks array"]
  | CheckDocuments =>
    ["Missing or invalid documents array"; "Invalid document entry";
     "Document missing required fields (id, taskId, title)"]
  | CheckSettings =>
    ["Missing or invalid settings object"; "Missing or invalid settings.columnById";
     "Invalid settings.viewMode"]
  end.

End Contract.

(** ** Store states *)

Module StoreState.

(** Each record sits under its own [id]: the tables have inbound keys. *)
Definition wellKeyed (t : gmap string JsVal) : bool :=
  forallb (λ kv, match Db.keyOf kv.2 with Some k => String.eqb k kv.1 | None => false end)
          (map_to_list t).



(** No-orphan invariant: every stored document's [taskId] is the [id] of a
    stored task. *)
Definition noOrphans (s : Db.Store) : Prop :=
  ∀ k d, Db.documents s !! k = Some d →
         ∃ k' t, Db.tasks s !! k' = Some t ∧ d.["taskId"] = t.["id"].

Definition noOrphansb (s : Db.Store) : bool :=
  forallb (λ d, includes (map (getProp "id") (Db.getAllTasks s)) d.["taskId"])
          (Db.getAllDocuments s).

(** No stored document belongs to that task. *)
Definition noDocumentsOf (taskId : string) (s : Db.Store) : Prop :=
  ∀ k v, Db.documents s !! k = Some v → isStr taskId v.["taskId"] = false.



End StoreState.

(** ** Runs of the hooks *)

(** The store calls issued between two environments of one run. *)
Definition newlyIssued (before after : Env) : list StoreOp :=
  drop (length (issued before)) (issued after).

Definition savesTasks (op : StoreOp) : bool :=
  match op with OpSaveTasks _ => true | _ => false end.

Definition savesColumnById (op : StoreOp) : bool :=
  match op with OpSetColumnById _ => true | _ => false end.

Definition savesViewMode (op : StoreOp) : bool :=
  match op with OpSetViewMode _ => true | _ => false end.

Module TaskRun.
Import TaskStore.

(** What a caller can do with the task hook, and the passing of time. *)
Inductive Action :=
| SetItems (f : list TaskRecord → list TaskRecord)
| SetColumnById (f : gmap string ColumnId → gmap string ColumnId)
| SetViewMode (v : ViewMode)
| FlushPendingSaves
| Elapse (dt : nat).

Definition step (a : Action) (w : Env * State) : Env * State :=
  match a with
  | SetItems f => (w.1, setItems f w.1 w.2)
  | SetColumnById f => (w.1, setColumnById f w.1 w.2)
  | SetViewMode v => (w.1, setViewMode v w.1 w.2)
  | FlushPendingSaves => flushPendingSaves w.1 w.2
  | Elapse dt => advance dt w.1 w.2
  end.




End TaskRun.

Module DocumentRun.
Import DocumentStore.

(** What a caller can do with the document hook, and the passing of time.
    In [step] a timer callback or a flush runs to its end before the next
    action; the runs in which it does not are further down. *)
Inductive Action :=
| AddDocument (newId : string) (now : float) (taskId title : string)
| UpdateDocument (id : string) (updates : Updates) (now : float)
| DeleteDocument (id : string)
| DeleteDocumentsByTaskId (taskId : string)
| FlushPendingSaves
| Elapse (dt : nat).

Definition step (a : Action) (w : Env * State) : Env * State :=
  match a with
  | AddDocument newId now taskId title => (w.1, (addDocument newId now taskId title w.1 w.2).2)
  | UpdateDocument id updates now => (w.1, updateDocument id updates now w.1 w.2)
  | DeleteDocument id => deleteDocument id w.1 w.2
  | DeleteDocumentsByTaskId taskId => deleteDocumentsByTaskId taskId w.1 w.2
  | FlushPendingSaves => flushPendingSaves w.1 w.2
  | Elapse dt => advance dt w.1 w.2
  end.

Definition run (actions : list Action) (w : Env * State) : Env * State :=
  foldl (λ w a, step a w) w actions.

(** The hook once hydration has loaded [docs]. *)
Definition hydrated (docs : list DocumentRecord) : State :=
  {| documents := docs; pendingSaves := []; saveTimeout := None |}.

(** Every pending save is filed under its document's id, and that id is the
    id of a document in memory, of the same task. *)
Definition consistent (h : State) : bool :=
  forallb (λ kv, String.eqb (doc_id kv.2) kv.1
                 && existsb (λ doc, String.eqb (doc_id doc) kv.1
                                    && String.eqb (doc_taskId doc) (doc_taskId kv.2))
                            (documents h))
          (pendingSaves h).

(** No pending save is of a document of that task. *)
Definition nonePendingOf (taskId : string) (h : State) : Prop :=
  ∀ k doc, (k, doc) ∈ pendingSaves h → doc_taskId doc ≠ taskId.





(** [createDocumentId()] returns an id that no document in memory has. *)
Definition usesFreshId (a : Action) (h : State) : bool :=
  match a with
  | AddDocument newId _ _ _ =>
    negb (existsb (λ doc, String.eqb (doc_id doc) newId) (documents h))
  | _ => true
  end.

(** A run in which every [addDocument] draws a fresh id. *)
Fixpoint freshRun (actions : list Action) (w : Env * State) : bool :=
  match actions with
  | [] => true
  | a :: rest => usesFreshId a w.2 && freshRun rest (step a w)
  end.

(** The documents table that holds the documents in memory and nothing
    else. *)
Definition mirror (h : State) : gmap string JsVal :=
  list_to_map (map (λ doc, (doc_id doc, documentToJs doc)) (documents h)).

(** The store and the hook agree up to the pending saves: no id is repeated,
    in memory or among the pending saves; every stored document is a version
    of a document in memory; every document in memory is stored as it is or
    pending as it is; and nothing else is pending. *)
Definition synced (w : Env * State) : Prop :=
  NoDup (doc_id <$> documents w.2)
  ∧ NoDup (pendingSaves w.2).*1
  ∧ (∀ k v, Db.documents (store w.1) !! k = Some v →
            ∃ doc, doc ∈ documents w.2 ∧ doc_id doc = k
                   ∧ v.["taskId"] = JStr (doc_taskId doc))
  ∧ (∀ doc, doc ∈ documents w.2 →
            (doc_id doc, doc) ∈ pendingSaves w.2
            ∨ Db.documents (store w.1) !! doc_id doc = Some (documentToJs doc))
  ∧ (∀ k doc, (k, doc) ∈ pendingSaves w.2 → doc ∈ documents w.2 ∧ doc_id doc = k).

(** *** Runs with events between the turns of a save loop

    A timer callback or a flush that has issued its first save waits for the
    store before each further one, and [step] above lets it run to its end.
    In the runs below it waits: the world holds, besides the environment and
    the hook, the save loops under way, each as the documents it has yet to
    save, and an event is a call into the hook, taken up to the first
    [await] of the loop it starts, or the next turn of one of the loops. *)
Record World := {
  env : Env;
  hook : State;
  loops : list (list DocumentRecord);
}.

Inductive Event :=
| Call (a : Action)
| LoopResumes (i : nat).

Definition begin (a : Action) (w : World) : World :=
  match a with
  | FlushPendingSaves =>
    let '(e1, h1, rest) := flushStarted (env w) (hook w) in
    {| env := e1; hook := h1; loops := loops w ++ [rest] |}
  | Elapse dt =>
    let e0 := tick dt (env w) in
    if due id (saveTimeout (hook w)) (clock e0) then
      let '(e1, h1, rest) := saveTimerStarted e0 (hook w) in
      {| env := e1; hook := h1; loops := loops w ++ [rest] |}
    else {| env := e0; hook := hook w; loops := loops w |}
  | _ =>
    let '(e1, h1) := step a (env w, hook w) in
    {| env := e1; hook := h1; loops := loops w |}
  end.

Definition resume (i : nat) (w : World) : World :=
  match loops w !! i with
  | Some saves =>
    let '(e1, rest) := saveNext saves (env w) in
    {| env := e1; hook := hook w; loops := <[i := rest]> (loops w) |}
  | None => w
  end.

Definition react (ev : Event) (w : World) : World :=
  match ev with
  | Call a => begin a w
  | LoopResumes i => resume i w
  end.

Definition play (events : list Event) (w : World) : World :=
  foldl (λ w ev, react ev w) w events.

(** No save loop has a document left to save. *)
Definition settled (w : World) : bool :=
  forallb (λ saves : list DocumentRecord, match saves with [] => true | _ => false end)
          (loops w).

(** Every call of the run arrives when no save loop has a document left to
    save, and every [addDocument] draws a fresh id. *)
Fixpoint unhurried (events : list Event) (w : World) : bool :=
  match events with
  | [] => true
  | ev :: rest =>
    match ev with
    | Call a => settled w && usesFreshId a (hook w)
    | LoopResumes _ => true
    end
    && unhurried rest (react ev w)
  end.

(** The environment once the loops under way have run to their end, oldest
    first. *)
Definition finished (w : World) : Env := saveAll (concat (loops w)) (env w).

(** At most one of the loops has documents left to save, namely [saves]. *)
Definition waiting (saves : list DocumentRecord) (loops : list (list DocumentRecord)) : Prop :=
  (loops = [] ∧ saves = [])
  ∨ ∃ before after, loops = (before ++ saves :: after)%list
                    ∧ Forall (λ l, l = []) before ∧ Forall (λ l, l = []) after.

(** The hook agrees with the store as it will be once the one loop under way
    has run to its end, and no import is in progress. *)
Definition agreed (w : World) : Prop :=
  ∃ saves, waiting saves (loops w)
           ∧ synced (saveAll saves (env w), hook w)
           ∧ isImportInProgress (env w) = false.

End DocumentRun.

(** Runs of the application after a user event, with the turns of the save
    loops under way as events of their own. *)
Module AppRun.

Record World := {
  app : ItemList.App;
  loops : list (list DocumentRecord);
}.

Inductive Event :=
| Elapses (dt : nat)
| LoopResumes (i : nat).

Definition react (ev : Event) (w : World) : World :=
  match ev with
  | Elapses dt =>
    let '(a1, rest) := ItemList.timersFire dt (app w) in
    {| app := a1; loops := loops w ++ [rest] |}
  | LoopResumes i =>
    match loops w !! i with
    | Some saves =>
      let '(a1, rest) := ItemList.saveLoopResumes saves (app w) in
      {| app := a1; loops := <[i := rest]> (loops w) |}
    | None => w
    end
  end.

Definition play (events : list Event) (w : World) : World :=
  foldl (λ w ev, react ev w) w events.

(** The world holds no document of the task: not in the store, not among the
    pending saves, not in a save loop under way. *)
Definition clean (taskId : string) (w : World) : Prop :=
  StoreState.noDocumentsOf taskId (store (ItemList.env (app w)))
  ∧ DocumentRun.nonePendingOf taskId (ItemList.documentStore (app w))
  ∧ Forall (Forall (λ doc, doc_taskId doc ≠ taskId)) (loops w).

End AppRun.

Module EditorRun.
Import DocumentEditorModal.
Section WithParent.
Context `{Platform} {P : Type}.
Variable onSave : DocumentStore.Updates → P → P.

(** What the user can change in the modal. *)
Inductive Edit :=
| EditTitle (value : string)
| EditContent (newContent : JsVal).

Definition change (now : nat) (edit : Edit) (s : State) (p : P) : State * P :=
  match edit with
  | EditTitle value => changeTitle onSave now value s p
  | EditContent newContent => changeContent onSave now newContent s p
  end.

(** The title and content after an edit. *)
Definition edited (edit : Edit) (r : string * JsVal) : string * JsVal :=
  match edit with
  | EditTitle value => (value, r.2)
  | EditContent newContent => (r.1, newContent)
  end.

(** A series of edits from time [now] on: each follows the previous one
    after the given number of milliseconds.  The result carries the time of
    the last one. *)
Fixpoint burst (changes : list (nat * Edit)) (now : nat) (s : State) (p : P)
    : nat * (State * P) :=
  match changes with
  | [] => (now, (s, p))
  | (gap, edit) :: rest =>
    let '(s1, p1) := advance onSave (now + gap) s p in
    let '(s2, p2) := change (now + gap) edit s1 p1 in
    burst rest (now + gap) s2 p2
  end.

(** The title and content each edit of a series finds. *)
Fixpoint found (edits : list Edit) (r : string * JsVal) : list (string * JsVal) :=
  match edits with
  | [] => []
  | edit :: rest => r :: found rest (edited edit r)
  end.

(** No edit of the series sets the title to the one it finds. *)
Fixpoint retitles (edits : list Edit) (r : string * JsVal) : bool :=
  match edits with
  | [] => true
  | edit :: rest =>
    match edit with
    | EditTitle value => negb (String.eqb value r.1)
    | EditContent _ => true
    end
    && retitles rest (edited edit r)
  end.

End WithParent.
End EditorRun.

Module ItemRun.
Import ItemList.
Section WithPlatform.
Context `{Platform}.

(** The handlers of the component that change a task. *)
Inductive Action :=
| AddItem (newId : string)
| RemoveItem (idToRemove : string)
| HandleDrop (itemId : string) (columnId : ColumnId)
| SaveEdit
| AddSubTask (newId : string)
| ToggleSubTask (subTaskId : string)
| RemoveSubTask (subTaskId : string).

Definition step (action : Action) (w : Form * App) : Form * App :=
  match action with
  | AddItem newId => addItem newId w.1 w.2
  | RemoveItem idToRemove => (w.1, removeItem idToRemove w.2)
  | HandleDrop itemId columnId => (w.1, handleDrop itemId columnId w.2)
  | SaveEdit => saveEdit w.1 w.2
  | AddSubTask newId => addSubTask newId w.1 w.2
  | ToggleSubTask subTaskId => (w.1, toggleSubTask subTaskId w.2)
  | RemoveSubTask subTaskId => (w.1, removeSubTask subTaskId w.2)
  end.

(** Every task and every sub-task has a label. *)
Definition labelled (items : list TaskRecord) : bool :=
  forallb (λ item, negb (String.eqb (task_label item) "")
                   && forallb (λ st, negb (String.eqb (st_label st) ""))
                              (task_subTasks item))
          items.

End WithPlatform.
End ItemRun.

(** ** Concrete states used to run the model *)

Module Fixtures.

Definition idle : Env :=
  {| clock := 0; store := Db.empty; importInProgress := false; issued := [] |}.

Definition menu (importText : string) : SettingsMenu.State :=
  {| SettingsMenu.dialogMode := SettingsMenu.DialogConfirmImport;
     SettingsMenu.importText := importText;
     SettingsMenu.error := None;
     SettingsMenu.isLoading := false;
     SettingsMenu.pageReloaded := false |}.

(** A backup of format version 2, otherwise well-shaped. *)
Definition version2 : string :=
  Reference.text
    " {'version': 2, 'exportedAt': 'later', 'tasks': [], 'documents': [],
       'settings': {'columnById': {}, 'viewMode': 'list'}} ".

Definition version2Parsed : JsVal :=
  JObj [ ("version", JNum 2); ("exportedAt", JStr "later"); ("tasks", JArr []);
         ("documents", JArr []);
         ("settings", JObj [ ("columnById", JObj []); ("viewMode", JStr "list") ]) ].

(** A backup with one task, one document of that task and one document whose
    task is not in the backup. *)
Definition task1 : JsVal :=
  JObj [ ("id", JStr "t1"); ("label", JStr "write"); ("subTasks", JArr []) ].

Definition note (id taskId : string) : JsVal :=
  JObj [ ("id", JStr id); ("taskId", JStr taskId); ("title", JStr "note");
         ("content", JObj [ ("type", JStr "doc") ]);
         ("createdAt", JNum 5); ("updatedAt", JNum 7) ].

Definition backup : JsVal :=
  JObj [ ("version", JNum 1); ("exportedAt", JStr "now");
         ("tasks", JArr [ task1 ]);
         ("documents", JArr [ note "d1" "t1"; note "d2" "ghost" ]);
         ("settings", JObj [ ("columnById", JObj [ ("t1", JStr "column-2") ]);
                             ("viewMode", JStr "columns") ]) ].

Definition imported : Db.Store :=
  {| Db.tasks := {[ "t1" := task1 ]};
     Db.settings := {[ "columnById" := JObj [ ("t1", JStr "column-2") ];
                       "viewMode" := JStr "columns" ]};
     Db.documents := {[ "d1" := note "d1" "t1" ]} |}.

(** The same store with the document of the missing task still in it: the
    state after [d2] was written and before its task was. *)
Definition orphaned : Db.Store :=
  {| Db.tasks := Db.tasks imported;
     Db.settings := Db.settings imported;
     Db.documents := <[ "d2" := note "d2" "ghost" ]> (Db.documents imported) |}.

(** Documents in memory, and the store that holds [d1]. *)
Definition doc (id taskId title : string) : DocumentRecord :=
  {| doc_id := id; doc_taskId := taskId; doc_title := title;
     doc_content := JObj [ ("type", JStr "doc") ];
     doc_createdAt := 5; doc_updatedAt := 7 |}.

(** The document hook 100 ms after an edit of [d1]: the edit is in memory and
    pending, the store still has the old title. *)
Definition editing : DocumentStore.State :=
  {| DocumentStore.documents := [ doc "d1" "t1" "edited" ];
     DocumentStore.pendingSaves := [ ("d1", doc "d1" "t1" "edited") ];
     DocumentStore.saveTimeout := Some 200 |}.

Definition task (id label : string) : TaskRecord :=
  {| task_id := id; task_label := label; task_link := None; task_subTasks := [] |}.

(** The task hook 100 ms after [t1] was renamed. *)
Definition renaming : TaskStore.State :=
  {| TaskStore.items := [ task "t1" "rewrite" ];
     TaskStore.columnById := {[ "t1" := Column2 ]};
     TaskStore.viewMode := ViewColumns;
     TaskStore.hasHydratedRef := true;
     TaskStore.itemsTimeout :=
       Some {| TaskStore.deadline := 200; TaskStore.captured := [ task "t1" "rewrite" ] |};
     TaskStore.columnByIdTimeout := None;
     TaskStore.viewModeTimeout := None |}.

(** Both hooks hydrated and at rest. *)
Definition resting : TaskStore.State :=
  {| TaskStore.items := [ task "t1" "write" ];
     TaskStore.columnById := {[ "t1" := Column2 ]};
     TaskStore.viewMode := ViewColumns;
     TaskStore.hasHydratedRef := true;
     TaskStore.itemsTimeout := None;
     TaskStore.columnByIdTimeout := None;
     TaskStore.viewModeTimeout := None |}.

Definition loaded : DocumentStore.State :=
  DocumentRun.hydrated [ doc "d1" "t1" "note" ].


Definition suspended : Env :=
  {| clock := 0; store := imported; importInProgress := true; issued := [] |}.

Definition running : Env :=
  {| clock := 0; store := imported; importInProgress := false; issued := [] |}.

(** The application while [d1] has an unsaved edit and its task [t1] is about
    to be removed. *)
Definition beforeRemove : ItemList.App :=
  {| ItemList.env := running; ItemList.taskStore := resting;
     ItemList.documentStore := editing; ItemList.editingItemId := None |}.

(** The application with the editor open on [t1], which is in the first
    column and has one open sub-task. *)
Definition step1 : SubTask := {| st_id := "s1"; st_label := "outline"; st_completed := false |}.

Definition planning : ItemList.App :=
  {| ItemList.env := running;
     ItemList.taskStore :=
       {| TaskStore.items :=
            [ {| task_id := "t1"; task_label := "write"; task_link := None;
                 task_subTasks := [ step1 ] |} ];
          TaskStore.columnById := {[ "t1" := Column1 ]};
          TaskStore.viewMode := ViewColumns;
          TaskStore.hasHydratedRef := true;
          TaskStore.itemsTimeout := None;
          TaskStore.columnByIdTimeout := None;
          TaskStore.viewModeTimeout := None |};
     ItemList.documentStore := loaded;
     ItemList.editingItemId := Some "t1" |}.

(** Two tasks, and the store that holds them and nothing else. *)
Definition twoTasks : list JsVal := [ task1; taskToJs (task "t2" "read") ].

Definition savedTwo : Db.Store :=
  {| Db.tasks := {[ "t1" := task1; "t2" := taskToJs (task "t2" "read") ]};
     Db.settings := ∅;
     Db.documents := ∅ |}.

(** The text of a backup of [orphaned], and the import dialog with that text
    pasted into it. *)
Definition orphanedText : string :=
  ImportExport.exportAllData (H := Reference.platform) "now" orphaned.

Definition pasted (importText : string) : SettingsMenu.State :=
  {| SettingsMenu.dialogMode := SettingsMenu.DialogImport;
     SettingsMenu.importText := importText;
     SettingsMenu.error := None;
     SettingsMenu.isLoading := false;
     SettingsMenu.pageReloaded := false |}.

(** A backup that names the task [t1] twice, and its text. *)
Definition repeated : JsVal :=
  JObj [ ("version", JNum 1); ("exportedAt", JStr "now");
         ("tasks", JArr [ task1; task1 ]);
         ("documents", JArr []);
         ("settings", JObj [ ("columnById", JObj []); ("viewMode", JStr "list") ]) ].

Definition repeatedText : string := JSON_stringify (Platform := Reference.platform) repeated.

(** A session of the document hook: a second document is added, the first
    is retitled twice, the second is deleted again, with time passing in
    between. *)
Definition retitle (title : string) : DocumentStore.Updates :=
  {| DocumentStore.upd_title := Some title; DocumentStore.upd_content := None |}.

Definition session : list DocumentRun.Action :=
  [ DocumentRun.AddDocument "d2" 10 "t1" "";
    DocumentRun.UpdateDocument "d1" (retitle "draft") 11;
    DocumentRun.Elapse 100;
    DocumentRun.UpdateDocument "d1" (retitle "final") 12;
    DocumentRun.Elapse 400;
    DocumentRun.DeleteDocument "d2";
    DocumentRun.UpdateDocument "d1" (retitle "printed") 13 ].

(** The parent of an editor modal, as the list of what [onSave] was handed,
    and three edits in quick succession. *)
Definition record (updates : DocumentStore.Updates) (calls : list DocumentStore.Updates)
    : list DocumentStore.Updates :=
  (calls ++ [ updates ])%list.

Definition keystrokes : list (nat * EditorRun.Edit) :=
  [ (120, EditorRun.EditTitle "no");
    (90, EditorRun.EditTitle "not");
    (200, EditorRun.EditContent (JObj [ ("type", JStr "doc"); ("content", JArr []) ])) ].

(** The store after the user chose the calendar view and the timer of
    [viewMode] fired. *)
Definition calendar : Db.Store :=
  applyOp (OpSetViewMode ViewCalendar) imported.


(** The application 100 ms after [d1] and [d3], both of task [t1], were
    edited: both edits are pending. *)
Definition twoEdits : DocumentStore.State :=
  {| DocumentStore.documents := [ doc "d1" "t1" "edited"; doc "d3" "t1" "other" ];
     DocumentStore.pendingSaves :=
       [ ("d1", doc "d1" "t1" "edited"); ("d3", doc "d3" "t1" "other") ];
     DocumentStore.saveTimeout := Some 200 |}.

Definition beforeSave : ItemList.App :=
  {| ItemList.env := running; ItemList.taskStore := resting;
     ItemList.documentStore := twoEdits; ItemList.editingItemId := None |}.

(** The same session as a run of events: the timer that fires after 400 ms
    finds two documents pending, and the next call waits until its loop has
    saved the second. *)
Definition patientSession : list DocumentRun.Event :=
  [ DocumentRun.Call (DocumentRun.AddDocument "d2" 10 "t1" "");
    DocumentRun.Call (DocumentRun.UpdateDocument "d1" (retitle "draft") 11);
    DocumentRun.Call (DocumentRun.Elapse 100);
    DocumentRun.Call (DocumentRun.UpdateDocument "d1" (retitle "final") 12);
    DocumentRun.Call (DocumentRun.Elapse 400);
    DocumentRun.LoopResumes 0;
    DocumentRun.Call (DocumentRun.DeleteDocument "d2");
    DocumentRun.Call (DocumentRun.UpdateDocument "d1" (retitle "printed") 13) ].

(** The text fields while a new task is being typed. *)
Definition typing (inputValue : string) : ItemList.Form :=
  {| ItemList.inputValue := inputValue; ItemList.editingLabel := "";
     ItemList.editingLink := ""; ItemList.subTaskInput := "";
     ItemList.isEditMode := false |}.

End Fixtures.

(** * Properties *)

(** ** Validation *)

Section Validation.
Context `{Platform}.
Import ImportExport.

Lemma checkTask_None (t : JsVal) :
  checkTask t = None ↔ Contract.hasTaskFields t = true.
Proof.
  unfold checkTask, Contract.hasTaskFields.
  destruct (isType TString t.["id"]) eqn:Hid, (isType TString t.["label"]) eqn:Hlabel,
    (isArray t.["subTasks"]) eqn:Hsub; cbn [negb orb andb];
    try (destruct (negb (truthy t) || negb (isType TObject t)); split; discriminate).
  destruct t; try discriminate Hid. done.
Qed.

Lemma checkDocument_None (d : JsVal) :
  checkDocument d = None ↔ Contract.hasDocumentFields d = true.
Proof.
  unfold checkDocument, Contract.hasDocumentFields.
  destruct (isType TString d.["id"]) eqn:Hid, (isType TString d.["taskId"]) eqn:Htask,
    (isType TString d.["title"]) eqn:Htitle; cbn [negb orb andb];
    try (destruct (negb (truthy d) || negb (isType TObject d)); split; discriminate).
  destruct d; try discriminate Hid. done.
Qed.

Lemma forOf_None {A R : Type} (body : A → option R) (ok : A → bool) (xs : list A) :
  (∀ x, body x = None ↔ ok x = true) →
  forOf body xs = None ↔ forallb ok xs = true.
Proof.
  intros Hbody. induction xs as [| x xs IH]; cbn; [done |].
  destruct (body x) eqn:Hx.
  - assert (ok x = false) as ->.
    { destruct (ok x) eqn:Hok; [| done]. apply Hbody in Hok. congruence. }
    split; discriminate.
  - apply Hbody in Hx. rewrite Hx. exact IH.
Qed.

Lemma forOf_Some {A R : Type} (body : A → option R) (xs : list A) (r : R) :
  forOf body xs = Some r → ∃ x, x ∈ xs ∧ body x = Some r.
Proof.
  induction xs as [| x xs IH]; cbn; [discriminate |].
  destruct (body x) eqn:Hx.
  - intros [= <-]. exists x. split; [left | done].
  - intros Hr. destruct (IH Hr) as (y & Hy & Hby). exists y. split; [by right | done].
Qed.

Lemma checkTask_Some (t : JsVal) (r : ValidationResult) :
  checkTask t = Some r →
  valid r = false ∧ ∃ msg, error r = Some msg ∧ msg ≠ "" ∧ msg ∈ Contract.reasons Contract.CheckTasks t.
Proof.
  unfold checkTask. cbn [Contract.reasons].
  repeat case_match; intros [= <-]; (split; [done |]); eexists; (split; [done |]);
    (split; [done |]); set_solver.
Qed.

Lemma checkDocument_Some (d : JsVal) (r : ValidationResult) :
  checkDocument d = Some r →
  valid r = false ∧ ∃ msg, error r = Some msg ∧ msg ≠ "" ∧ msg ∈ Contract.reasons Contract.CheckDocuments d.
Proof.
  unfold checkDocument. cbn [Contract.reasons].
  repeat case_match; intros [= <-]; (split; [done |]); eexists; (split; [done |]);
    (split; [done |]); set_solver.
Qed.

Lemma versionTooNew_nonempty (n : float) : versionTooNew n ≠ "".
Proof. unfold versionTooNew. cbn. discriminate. Qed.

Lemma notObject (v : JsVal) :
  negb (truthy v) || negb (isType TObject v) = negb (Contract.isObject v).
Proof. destruct v; cbn; rewrite ?orb_true_r; done. Qed.

Lemma notObjectOrNull (v : JsVal) :
  negb (isType TObject v) || isNull v = negb (Contract.isObject v).
Proof. by destruct v. Qed.

(** The view modes of the validator are those of the specification without
    calendar. *)
Lemma validViewModes_supported (x : JsVal) :
  includes validViewModes x
  = includes Contract.supportedViewModes x && negb (isStr "calendar" x).
Proof.
  destruct x as [| | b | n | s | xs | props]; try reflexivity.
  unfold includes, validViewModes, Contract.supportedViewModes.
  cbn [existsb sameValueZero isStr].
  destruct (String.eqb_spec s "calendar") as [-> | Hne]; [reflexivity |].
  rewrite !orb_false_r, andb_true_r.
  destruct (String.eqb_spec "calendar" s) as [<- | _]; [done |].
  by rewrite orb_false_r.
Qed.

(** The validator answers valid exactly when the five checks hold and the
    view mode is not calendar, and its valid answer carries no reason. *)
Lemma validateImportData_valid (v : JsVal) :
  valid (validateImportData v)
  = forallb (λ c, Contract.holds c v) Contract.checks
    && negb (isStr "calendar" v.["settings"].["viewMode"])
  ∧ (valid (validateImportData v) = true → validateImportData v = ok).
Proof.
  unfold validateImportData, Contract.checks. cbn [forallb Contract.holds].
  rewrite notObject.
  destruct (Contract.isObject v); [| by cbn].
  destruct (v.["version"]) as [| | b | n | s | xs | props]; try by cbn.
  destruct (PrimFloat.ltb EXPORT_VERSION n); [by cbn |].
  destruct (isArray v.["tasks"]); [| by cbn].
  destruct (forOf checkTask (elements v.["tasks"])) as [r |] eqn:Hloop.
  { apply forOf_Some in Hloop as (t & Hin & Ht).
    assert (forallb Contract.hasTaskFields (elements v.["tasks"]) = false) as ->.
    { apply not_true_is_false. rewrite forallb_forall. intros Hall.
      apply list_elem_of_In, Hall, checkTask_None in Hin. congruence. }
    apply checkTask_Some in Ht as [Hr _]. cbn. by rewrite Hr. }
  apply (forOf_None checkTask _ _ checkTask_None) in Hloop as ->.
  destruct (isArray v.["documents"]); [| by cbn].
  destruct (forOf checkDocument (elements v.["documents"])) as [r |] eqn:Hloop.
  { apply forOf_Some in Hloop as (d & Hin & Hd).
    assert (forallb Contract.hasDocumentFields (elements v.["documents"]) = false) as ->.
    { apply not_true_is_false. rewrite forallb_forall. intros Hall.
      apply list_elem_of_In, Hall, checkDocument_None in Hin. congruence. }
    apply checkDocument_Some in Hd as [Hr _]. cbn. by rewrite Hr. }
  apply (forOf_None checkDocument _ _ checkDocument_None) in Hloop as ->.
  rewrite notObject, notObjectOrNull, validViewModes_supported.
  destruct (Contract.isObject v.["settings"]); [| by cbn].
  destruct (Contract.isObject v.["settings"].["columnById"]); [| by cbn].
  destruct (includes Contract.supportedViewModes v.["settings"].["viewMode"]); [| by cbn].
  by destruct (isStr "calendar" v.["settings"].["viewMode"]).
Qed.

(** Closes a case in which the validator returned [fail msg]. *)
Ltac reported :=
  cbn; (split; [reflexivity |]);
  eexists; (split; [reflexivity |]);
  (split; [first [discriminate | apply versionTooNew_nonempty] |]);
  cbn [Contract.reasons]; try (match goal with H : _ = JNum _ |- _ => rewrite H end);
  set_solver.

(** C4.  [validateImportData] runs the five checks of the specification in
    their order and stops at the first one that fails, with a non-empty
    reason that belongs to that check, and every input gets a result
    object.  When all five hold it answers valid, except for the view mode
    calendar: the specification's enum has it and item-list.tsx stores it,
    the validator's list has not, so a value that passes the five checks
    with that view mode is answered invalid.  The backup the application
    exports after the user chose the calendar view is such a value. *)
Theorem validateImportData_misses_calendar :
  (∀ v : JsVal,
     match Contract.firstFailure v with
     | Some c =>
       valid (validateImportData v) = false
       ∧ ∃ msg, error (validateImportData v) = Some msg ∧ msg ≠ ""
                ∧ msg ∈ Contract.reasons c v
     | None =>
       validateImportData v
       = if isStr "calendar" v.["settings"].["viewMode"]
         then fail "Invalid settings.viewMode" else ok
     end)
  ∧ Db.getSetting "viewMode" Fixtures.calendar = JStr "calendar"
  ∧ forallb (λ c, Contract.holds c (exportEnvelope "now" Fixtures.calendar)) Contract.checks
    = true
  ∧ validateImportData (exportEnvelope "now" Fixtures.calendar)
    = fail "Invalid settings.viewMode".
Proof.
  split; [| by vm_compute].
  intros v.
  unfold validateImportData, Contract.firstFailure, Contract.checks.
  cbn [find forallb Contract.holds]. rewrite notObject.
  destruct (Contract.isObject v) eqn:Hobj; [| reported].
  destruct (v.["version"]) as [| | b | n | s | xs | props] eqn:Hver; try reported.
  destruct (PrimFloat.ltb EXPORT_VERSION n) eqn:Hnew; [reported |].
  destruct (isArray v.["tasks"]) eqn:Htasks; [| reported].
  destruct (forOf checkTask (elements v.["tasks"])) as [r |] eqn:Hloop.
  { assert (forallb Contract.hasTaskFields (elements v.["tasks"]) = false) as ->.
    { destruct (forallb _ _) eqn:Hall; [| done].
      apply (forOf_None checkTask _ _ checkTask_None) in Hall. congruence. }
    apply forOf_Some in Hloop as (t & _ & Ht).
    apply checkTask_Some in Ht as (Hr & msg & Hmsg & Hne & Hin).
    cbn. rewrite Hr. split; [done |]. by exists msg. }
  apply (forOf_None checkTask _ _ checkTask_None) in Hloop as ->.
  destruct (isArray v.["documents"]) eqn:Hdocs; [| reported].
  destruct (forOf checkDocument (elements v.["documents"])) as [r |] eqn:Hloop.
  { assert (forallb Contract.hasDocumentFields (elements v.["documents"]) = false) as ->.
    { destruct (forallb _ _) eqn:Hall; [| done].
      apply (forOf_None checkDocument _ _ checkDocument_None) in Hall. congruence. }
    apply forOf_Some in Hloop as (d & _ & Hd).
    apply checkDocument_Some in Hd as (Hr & msg & Hmsg & Hne & Hin).
    cbn. rewrite Hr. split; [done |]. by exists msg. }
  apply (forOf_None checkDocument _ _ checkDocument_None) in Hloop as ->.
  rewrite notObject, notObjectOrNull, validViewModes_supported.
  destruct (Contract.isObject v.["settings"]) eqn:Hset; [| reported].
  destruct (Contract.isObject v.["settings"].["columnById"]) eqn:Hcol; [| reported].
  destruct (includes Contract.supportedViewModes v.["settings"].["viewMode"]) eqn:Hview;
    [| reported].
  cbn. by destruct (isStr "calendar" v.["settings"].["viewMode"]).
Qed.

End Validation.

(** ** Version rejection *)

Section VersionRejection.
Context `{Platform}.
Import ImportExport.

(** C3. An input whose [version] is a number greater than the supported
    version 1 is answered invalid by [validateImportData], with the
    upgrade-required reason; and when the text in the import dialog parses to
    such an input, [handleConfirmImport] surfaces that reason and leaves the
    environment (store, suspend flag, trace of store calls) exactly as it was. *)
Theorem newer_version_rejected (m : SettingsMenu.State) (e : Env)
    (parsed : JsVal) (version : float) :
  JSON_parse (String_trim (SettingsMenu.importText m)) = Some parsed →
  parsed.["version"] = JNum version →
  PrimFloat.ltb EXPORT_VERSION version = true →
  validateImportData parsed = fail (versionTooNew version)
  ∧ (SettingsMenu.handleConfirmImport m e).2 = e
  ∧ SettingsMenu.error (SettingsMenu.handleConfirmImport m e).1 = Some (versionTooNew version).
Proof.
  intros Hparse Hversion Hnewer.
  assert (validateImportData parsed = fail (versionTooNew version)) as Hinvalid.
  { unfold validateImportData. destruct parsed; try discriminate Hversion.
    cbn [truthy isType typeof negb orb]. rewrite Hversion, Hnewer. done. }
  split; [done |].
  unfold SettingsMenu.handleConfirmImport, SettingsMenu.rejected, parseImportFile.
  rewrite Hparse, Hinvalid. cbn. by rewrite orb_true_r.
Qed.

End VersionRejection.

Lemma newer_version_rejected_witness :
  ImportExport.validateImportData (H := Reference.platform) Fixtures.version2Parsed
  = ImportExport.fail (ImportExport.versionTooNew (H := Reference.platform) 2)
  ∧ (SettingsMenu.handleConfirmImport (H := Reference.platform)
       (Fixtures.menu Fixtures.version2) Fixtures.idle).2 = Fixtures.idle
  ∧ SettingsMenu.error
      (SettingsMenu.handleConfirmImport (H := Reference.platform)
         (Fixtures.menu Fixtures.version2) Fixtures.idle).1
    = Some "Export version 2 is newer than supported version 1. Please update the app.".
Proof.
  apply (newer_version_rejected (H := Reference.platform)
           (Fixtures.menu Fixtures.version2) Fixtures.idle Fixtures.version2Parsed 2);
    vm_compute; reflexivity.
Defined.

(** ** The record store *)

Section DbFacts.

Lemma add_Ok (r : JsVal) (t t' : gmap string JsVal) :
  Db.add r t = Db.Ok t' →
  ∃ k, Db.keyOf r = Some k ∧ t !! k = None ∧ t' = <[k := r]> t.
Proof.
  unfold Db.add. destruct (Db.keyOf r) as [k |]; [| discriminate].
  destruct (t !! k) eqn:Hk; [discriminate |]. intros [= <-]. by exists k.
Qed.

Lemma bulkAdd_cons (r : JsVal) (rs : list JsVal) (t : gmap string JsVal) :
  Db.bulkAdd (r :: rs) t
  = match Db.add r t with Db.Ok t1 => Db.bulkAdd rs t1 | Db.Err e => Db.Err e end.
Proof. reflexivity. Qed.

(** After a successful [bulkAdd] the table holds what it held before and, under
    its own key, each added record. *)
Lemma bulkAdd_Ok (rs : list JsVal) :
  ∀ (t t' : gmap string JsVal), Db.bulkAdd rs t = Db.Ok t' →
  ∀ k v, t' !! k = Some v ↔ t !! k = Some v ∨ (v ∈ rs ∧ Db.keyOf v = Some k).
Proof.
  induction rs as [| r rs IH]; intros t t' Hadd k v.
  - injection Hadd as <-. split; [by left |]. intros [Hk | [Hin _]]; [done |].
    by apply elem_of_nil in Hin.
  - rewrite bulkAdd_cons in Hadd. destruct (Db.add r t) as [t1 | err] eqn:Hr; [| done].
    apply add_Ok in Hr as (k0 & Hkey & Hfree & ->).
    rewrite (IH _ _ Hadd k v), elem_of_cons. split.
    + intros [Hk | [Hin Hv]]; [| by right; split; [right |]].
      destruct (decide (k0 = k)) as [<- | Hne].
      * rewrite lookup_insert_eq in Hk. injection Hk as <-. right. split; [by left | done].
      * rewrite lookup_insert_ne in Hk by done. by left.
    + intros [Hk | [[-> | Hin] Hv]]; [| | by right].
      * left. rewrite lookup_insert_ne; [done |]. intros <-. congruence.
      * left. assert (k = k0) as -> by congruence. apply lookup_insert_eq.
Qed.

(** [bulkAdd] succeeds when the keys are strings, pairwise different and free. *)
Lemma bulkAdd_succeeds (rs : list JsVal) :
  ∀ (t : gmap string JsVal) (ks : list string),
  Db.keyOf <$> rs = Some <$> ks → NoDup ks → (∀ k, k ∈ ks → t !! k = None) →
  ∃ t', Db.bulkAdd rs t = Db.Ok t'.
Proof.
  induction rs as [| r rs IH]; intros t ks Hkeys Hnodup Hfree.
  - by exists t.
  - destruct ks as [| k ks]; [discriminate |]. cbn in Hkeys.
    injection Hkeys as Hk Hrest. apply NoDup_cons in Hnodup as [Hfresh Hnodup].
    rewrite bulkAdd_cons. unfold Db.add. rewrite Hk, (Hfree k) by left.
    apply (IH _ ks Hrest Hnodup). intros k' Hin.
    rewrite lookup_insert_ne; [apply Hfree; by right |]. by intros <-.
Qed.

Lemma bulkAdd_guarded (rs : list JsVal) (t : gmap string JsVal) :
  (if (0 <? length rs)%nat then Db.bulkAdd rs t else Db.Ok t) = Db.bulkAdd rs t.
Proof. by destruct rs. Qed.

End DbFacts.

(** ** Import *)

Section Importing.
Context `{Platform}.
Import ImportExport.

Lemma valid_holds (data : JsVal) (c : Contract.Check) :
  valid (validateImportData data) = true → Contract.holds c data = true.
Proof.
  destruct (validateImportData_valid data) as [-> _].
  unfold Contract.checks. cbn [forallb]. rewrite !andb_true_iff.
  intros [(? & ? & ? & ? & ? & _) _]. by destruct c.
Qed.

Lemma isType_string (v : JsVal) : isType TString v = true → ∃ s, v = JStr s.
Proof. destruct v; try discriminate. by eexists. Qed.

Lemma isArray_elements (v : JsVal) : isArray v = true → v = JArr (elements v).
Proof. by destruct v. Qed.

(** [Set.prototype.has] on a set of strings, asked for a string. *)
Lemma includes_strings (xs : list JsVal) (v : JsVal) :
  isType TString v = true →
  includes xs v = true ↔ v ∈ xs.
Proof.
  intros [s ->]%isType_string. unfold includes. rewrite existsb_exists. split.
  - intros (x & Hin & Heq). destruct x; try discriminate.
    apply String.eqb_eq in Heq as ->. by apply list_elem_of_In.
  - intros Hin. exists (JStr s). split; [by apply list_elem_of_In |].
    apply String.eqb_refl.
Qed.

Lemma keyOf_hasTaskFields (t : JsVal) :
  Contract.hasTaskFields t = true → ∃ k, Db.keyOf t = Some k.
Proof.
  unfold Contract.hasTaskFields, Db.keyOf. rewrite !andb_true_iff.
  intros [[[s ->]%isType_string _] _]. by exists s.
Qed.

(** C1. For a validated backup, a successful [importAllData] leaves in the
    store exactly the backup's documents whose [taskId] is the [id] of a task
    of the same backup, exactly the backup's tasks, and the two settings; so
    every stored document's [taskId] is the [id] of a stored task. *)
Theorem importAllData_drops_orphans (data : JsVal) (s s' : Db.Store) :
  valid (validateImportData data) = true →
  importAllData data s = Db.Ok s' →
  (∀ k d, Db.documents s' !! k = Some d ↔
          d ∈ elements data.["documents"] ∧ Db.keyOf d = Some k
          ∧ ∃ t, t ∈ elements data.["tasks"] ∧ d.["taskId"] = t.["id"])
  ∧ (∀ k t, Db.tasks s' !! k = Some t ↔
            t ∈ elements data.["tasks"] ∧ Db.keyOf t = Some k)
  ∧ Db.settings s' = <["viewMode" := data.["settings"].["viewMode"]]>
                       (<["columnById" := data.["settings"].["columnById"]]> ∅)
  ∧ StoreState.noOrphans s'.
Proof.
  intros Hvalid Himport.
  pose proof (valid_holds data Contract.CheckTasks Hvalid) as Htasks.
  pose proof (valid_holds data Contract.CheckDocuments Hvalid) as Hdocs.
  pose proof (valid_holds data Contract.CheckSettings Hvalid) as Hsettings.
  cbn [Contract.holds] in Htasks, Hdocs, Hsettings.
  apply andb_true_iff in Htasks as [Htasks Htyped], Hdocs as [Hdocs Hdtyped].
  apply andb_true_iff in Hsettings as [[Hsettings _]%andb_true_iff _].
  rewrite forallb_forall in Htyped, Hdtyped.
  unfold importAllData in Himport.
  rewrite (isArray_elements _ Htasks), (isArray_elements _ Hdocs) in Himport.
  set (tasks := elements data.["tasks"]) in *.
  set (docs := elements data.["documents"]) in *.
  assert (nullish data.["settings"] = false) as Hnn by by destruct (data.["settings"]).
  unfold Db.clear in Himport. rewrite Hnn, !bulkAdd_guarded in Himport.
  destruct (Db.bulkAdd tasks ∅) as [t |] eqn:Ht; [| done].
  destruct (Db.bulkAdd (validDocuments tasks docs) ∅) as [d |] eqn:Hd; [| done].
  injection Himport as <-. cbn [Db.documents Db.tasks Db.settings].
  pose proof (bulkAdd_Ok _ _ _ Ht) as Hstored.
  pose proof (bulkAdd_Ok _ _ _ Hd) as Hkept.
  assert (∀ k x, t !! k = Some x ↔ x ∈ tasks ∧ Db.keyOf x = Some k) as Htable.
  { intros k x. rewrite Hstored, lookup_empty. split; [by intros [? | ?] | by right]. }
  assert (∀ k x, d !! k = Some x ↔
                 x ∈ docs ∧ Db.keyOf x = Some k
                 ∧ ∃ y, y ∈ tasks ∧ x.["taskId"] = y.["id"]) as Hdtable.
  { intros k x. rewrite Hkept, lookup_empty. unfold validDocuments.
    rewrite list_elem_of_filter. split.
    - intros [? | [[Hhas Hin] Hkey]]; [done |]. split; [done |]. split; [done |].
      apply includes_strings in Hhas.
      + apply list_elem_of_fmap in Hhas as (y & Hy & Hin'). by exists y.
      + apply list_elem_of_In, Hdtyped in Hin. unfold Contract.hasDocumentFields in Hin.
        rewrite !andb_true_iff in Hin. tauto.
    - intros (Hin & Hkey & y & Hy & Heq). right. split; [| done]. split; [| done].
      apply includes_strings.
      + apply list_elem_of_In, Hdtyped in Hin. unfold Contract.hasDocumentFields in Hin.
        rewrite !andb_true_iff in Hin. tauto.
      + rewrite Heq. by apply list_elem_of_fmap_2. }
  split; [done |]. split; [done |]. split; [done |].
  intros k x [_ [_ (y & Hy & Heq)]]%Hdtable.
  destruct (keyOf_hasTaskFields y) as [k' Hk']; [by apply Htyped, list_elem_of_In |].
  exists k', y. split; [| done]. by apply Htable.
Qed.

(** A validated backup imports when its task ids, and the ids of the documents
    it keeps, are pairwise different. *)
Lemma importAllData_succeeds (data : JsVal) (s : Db.Store) (tks dks : list string) :
  valid (validateImportData data) = true →
  Db.keyOf <$> elements data.["tasks"] = Some <$> tks → NoDup tks →
  Db.keyOf <$> validDocuments (elements data.["tasks"]) (elements data.["documents"])
    = Some <$> dks → NoDup dks →
  ∃ s', importAllData data s = Db.Ok s'.
Proof.
  intros Hvalid Htk Htnd Hdk Hdnd.
  pose proof (valid_holds data Contract.CheckTasks Hvalid) as Htasks.
  pose proof (valid_holds data Contract.CheckDocuments Hvalid) as Hdocs.
  pose proof (valid_holds data Contract.CheckSettings Hvalid) as Hsettings.
  cbn [Contract.holds] in Htasks, Hdocs, Hsettings.
  apply andb_true_iff in Htasks as [Htasks _], Hdocs as [Hdocs _].
  apply andb_true_iff in Hsettings as [[Hsettings _]%andb_true_iff _].
  unfold importAllData.
  rewrite (isArray_elements _ Htasks), (isArray_elements _ Hdocs).
  assert (nullish data.["settings"] = false) as -> by by destruct (data.["settings"]).
  unfold Db.clear. rewrite !bulkAdd_guarded.
  destruct (bulkAdd_succeeds _ ∅ tks Htk Htnd) as [t ->]; [by intros; apply lookup_empty |].
  destruct (bulkAdd_succeeds _ ∅ dks Hdk Hdnd) as [d ->]; [by intros; apply lookup_empty |].
  by eexists.
Qed.

End Importing.

Lemma importAllData_drops_orphans_witness :
  let s' := Fixtures.imported in
  (∀ k d, Db.documents s' !! k = Some d ↔
          d ∈ elements Fixtures.backup.["documents"] ∧ Db.keyOf d = Some k
          ∧ ∃ t, t ∈ elements Fixtures.backup.["tasks"] ∧ d.["taskId"] = t.["id"])
  ∧ (∀ k t, Db.tasks s' !! k = Some t ↔
            t ∈ elements Fixtures.backup.["tasks"] ∧ Db.keyOf t = Some k)
  ∧ Db.settings s' = <["viewMode" := JStr "columns"]>
                       (<["columnById" := JObj [ ("t1", JStr "column-2") ]]> ∅)
  ∧ StoreState.noOrphans s'.
Proof.
  apply (importAllData_drops_orphans (H := Reference.platform)
           Fixtures.backup Db.empty Fixtures.imported);
    vm_compute; reflexivity.
Defined.

(** ** Export and import *)

Section RoundTrip.
Context `{Platform}.
Import ImportExport.

Lemma wellKeyed_lookup (t : gmap string JsVal) (k : string) (v : JsVal) :
  StoreState.wellKeyed t = true → (k, v) ∈ map_to_list t → Db.keyOf v = Some k.
Proof.
  unfold StoreState.wellKeyed. rewrite forallb_forall. intros Hall Hin.
  specialize (Hall (k, v)). cbn in Hall.
  destruct (Db.keyOf v) as [k' |]; [| by discriminate Hall; apply list_elem_of_In].
  f_equal. apply String.eqb_eq, Hall. by apply list_elem_of_In.
Qed.

(** Adding the records of an association list with distinct, free keys builds
    the map of that list. *)
Lemma bulkAdd_pairs (l : list (string * JsVal)) :
  ∀ t0 : gmap string JsVal,
  NoDup l.*1 → (∀ k v, (k, v) ∈ l → Db.keyOf v = Some k) →
  (∀ k, k ∈ l.*1 → t0 !! k = None) →
  Db.bulkAdd l.*2 t0 = Db.Ok (list_to_map l ∪ t0).
Proof.
  induction l as [| [k v] l IH]; intros t0 Hnodup Hkeys Hfree.
  - cbn. by rewrite (left_id_L ∅ (∪)).
  - cbn [fmap list_fmap fst snd] in *. apply NoDup_cons in Hnodup as [Hfresh Hnodup].
    rewrite bulkAdd_cons. unfold Db.add.
    rewrite (Hkeys k v) by left. rewrite (Hfree k) by left.
    rewrite IH.
    + f_equal. cbn [list_to_map foldr curry fst snd]. rewrite <- insert_union_l.
      symmetry. apply insert_union_r. by apply not_elem_of_list_to_map_1.
    + done.
    + intros k' v' Hin. apply Hkeys. by right.
    + intros k' Hin. rewrite lookup_insert_ne; [apply Hfree; by right |]. by intros <-.
Qed.

(** Re-adding what [toArray] lists rebuilds the table. *)
Lemma bulkAdd_toArray (t : gmap string JsVal) :
  StoreState.wellKeyed t = true → Db.bulkAdd (Db.toArray t) ∅ = Db.Ok t.
Proof.
  intros Hkeyed. unfold Db.toArray. rewrite bulkAdd_pairs.
  - by rewrite list_to_map_to_list, (right_id_L ∅ (∪)).
  - apply NoDup_fst_map_to_list.
  - intros k v. by apply wellKeyed_lookup.
  - intros k _. apply lookup_empty.
Qed.

Lemma filter_all {A : Type} (P : A → Prop) `{∀ x, Decision (P x)} (l : list A) :
  Forall P l → filter P l = l.
Proof.
  induction 1 as [| x l Hx _ IH]; [done |].
  rewrite filter_cons_True by done. by rewrite IH.
Qed.



Lemma envelope_version (exportedAt : string) (s : Db.Store) :
  (exportEnvelope exportedAt s).["version"] = JNum EXPORT_VERSION.
Proof. reflexivity. Qed.

Lemma envelope_tasks (exportedAt : string) (s : Db.Store) :
  (exportEnvelope exportedAt s).["tasks"] = JArr (Db.getAllTasks s).
Proof. reflexivity. Qed.

Lemma envelope_documents (exportedAt : string) (s : Db.Store) :
  (exportEnvelope exportedAt s).["documents"] = JArr (Db.getAllDocuments s).
Proof. reflexivity. Qed.

Lemma envelope_columnById (exportedAt : string) (s : Db.Store) :
  (exportEnvelope exportedAt s).["settings"].["columnById"]
  = coalesce (Db.getSetting "columnById" s) (JObj []).
Proof. reflexivity. Qed.

Lemma envelope_viewMode (exportedAt : string) (s : Db.Store) :
  (exportEnvelope exportedAt s).["settings"].["viewMode"]
  = coalesce (Db.getSetting "viewMode" s) (JStr "list").
Proof. reflexivity. Qed.

Lemma envelope_settings (exportedAt : string) (s : Db.Store) :
  Contract.isObject (exportEnvelope exportedAt s).["settings"] = true.
Proof. reflexivity. Qed.

(** *** What JSON keeps of a record *)

















End RoundTrip.



(** ** The hooks and the store *)

Section HookWrites.

(** Splits every timer test and flag test in the goal. *)
Ltac timers :=
  repeat (cbn in *;
          match goal with
          | |- context [if ?c then _ else _] => destruct c eqn:?
          | |- context [match ?t with Some _ => _ | None => _ end] => destruct t eqn:?
          end);
  cbn in *; try congruence; try done.

Lemma isImportInProgress_tick (dt : nat) (e : Env) :
  isImportInProgress (tick dt e) = isImportInProgress e.
Proof. reflexivity. Qed.

(** The turns of a save loop, one after the other, are the loop run to its
    end. *)
Lemma saveNext_saveAll (saves : list DocumentRecord) (e : Env) :
  DocumentStore.saveAll (DocumentStore.saveNext saves e).2 (DocumentStore.saveNext saves e).1
  = DocumentStore.saveAll saves e.
Proof. by destruct saves. Qed.

(** The timer callback and the flush, each run to its end without another
    event in between. *)
Lemma saveTimerFired_eq (e : Env) (h : DocumentStore.State) :
  DocumentStore.saveTimerFired e h
  = if isImportInProgress e then
      (e, {| DocumentStore.documents := DocumentStore.documents h;
             DocumentStore.pendingSaves := []; DocumentStore.saveTimeout := None |})
    else
      (DocumentStore.saveAll (DocumentStore.mapValues (DocumentStore.pendingSaves h)) e,
       {| DocumentStore.documents := DocumentStore.documents h;
          DocumentStore.pendingSaves := []; DocumentStore.saveTimeout := None |}).
Proof.
  unfold DocumentStore.saveTimerFired, DocumentStore.saveTimerStarted.
  destruct (isImportInProgress e); [done |].
  by destruct (DocumentStore.mapValues (DocumentStore.pendingSaves h)).
Qed.

Lemma flushPendingSaves_eq (e : Env) (h : DocumentStore.State) :
  DocumentStore.flushPendingSaves e h
  = (DocumentStore.saveAll (DocumentStore.mapValues (DocumentStore.pendingSaves h)) e,
     {| DocumentStore.documents := DocumentStore.documents h;
        DocumentStore.pendingSaves := []; DocumentStore.saveTimeout := None |}).
Proof.
  unfold DocumentStore.flushPendingSaves, DocumentStore.flushStarted.
  by destruct (DocumentStore.mapValues (DocumentStore.pendingSaves h)).
Qed.

(** While the flag is set the task hook's timers write nothing. *)
Lemma TaskStore_runTimers_suspended (e : Env) (t : TaskStore.State) :
  isImportInProgress e = true → (TaskStore.runTimers e t).1 = e.
Proof.
  intros Hflag. unfold TaskStore.runTimers, TaskStore.itemsTimerFired,
    TaskStore.columnByIdTimerFired, TaskStore.viewModeTimerFired.
  rewrite Hflag. timers.
Qed.

Lemma DocumentStore_runTimers_suspended (e : Env) (d : DocumentStore.State) :
  isImportInProgress e = true → (DocumentStore.runTimers e d).1 = e.
Proof.
  intros Hflag. unfold DocumentStore.runTimers. rewrite saveTimerFired_eq.
  rewrite Hflag. timers.
Qed.

Lemma newlyIssued_perform (op : StoreOp) (e : Env) : newlyIssued e (perform op e) = [op].
Proof. unfold newlyIssued. cbn. by rewrite drop_app_length. Qed.

(** A slice of the task hook with no live timer is not written, whatever the
    other two do. *)
Lemma TaskStore_idle_slice (dt : nat) (e : Env) (t : TaskStore.State) :
  (TaskStore.itemsTimeout t = None →
     TaskStore.itemsTimeout (TaskStore.advance dt e t).2 = None
     ∧ Forall (λ op, savesTasks op = false) (newlyIssued e (TaskStore.advance dt e t).1))
  ∧ (TaskStore.columnByIdTimeout t = None →
     TaskStore.columnByIdTimeout (TaskStore.advance dt e t).2 = None
     ∧ Forall (λ op, savesColumnById op = false) (newlyIssued e (TaskStore.advance dt e t).1))
  ∧ (TaskStore.viewModeTimeout t = None →
     TaskStore.viewModeTimeout (TaskStore.advance dt e t).2 = None
     ∧ Forall (λ op, savesViewMode op = false) (newlyIssued e (TaskStore.advance dt e t).1)).
Proof.
  unfold TaskStore.advance, TaskStore.runTimers, TaskStore.itemsTimerFired,
    TaskStore.columnByIdTimerFired, TaskStore.viewModeTimerFired, newlyIssued.
  destruct t as [its cols view hyd [ti |] [tc |] [tv |]]; cbn;
    (split; [| split]); intros Hnone; try discriminate Hnone;
    timers; rewrite <- ?app_assoc, ?drop_app_length, ?drop_all;
    (split; [done |]); repeat constructor.
Qed.

(** C5. While [importInProgress] is set, a timer of either hook that comes
    due writes nothing: the environment only ages.  The timer is then gone
    and, in the document hook, the pending map is empty, so nothing is left
    to write later: a slice with no live timer is never written by the
    passing of time, with the flag set or cleared. *)
Theorem suspended_timer_discards_write (dt : nat) (e : Env)
    (t : TaskStore.State) (d : DocumentStore.State) :
  isImportInProgress e = true →
  (TaskStore.advance dt e t).1 = tick dt e
  ∧ (DocumentStore.advance dt e d).1 = tick dt e
  ∧ (due TaskStore.deadline (TaskStore.itemsTimeout t) (clock e + dt) = true →
     TaskStore.itemsTimeout (TaskStore.advance dt e t).2 = None)
  ∧ (due TaskStore.deadline (TaskStore.columnByIdTimeout t) (clock e + dt) = true →
     TaskStore.columnByIdTimeout (TaskStore.advance dt e t).2 = None)
  ∧ (due TaskStore.deadline (TaskStore.viewModeTimeout t) (clock e + dt) = true →
     TaskStore.viewModeTimeout (TaskStore.advance dt e t).2 = None)
  ∧ (due id (DocumentStore.saveTimeout d) (clock e + dt) = true →
     DocumentStore.pendingSaves (DocumentStore.advance dt e d).2 = []
     ∧ DocumentStore.saveTimeout (DocumentStore.advance dt e d).2 = None)
  ∧ (∀ dt' e' t',
       (TaskStore.itemsTimeout t' = None →
          Forall (λ op, savesTasks op = false) (newlyIssued e' (TaskStore.advance dt' e' t').1))
       ∧ (TaskStore.columnByIdTimeout t' = None →
          Forall (λ op, savesColumnById op = false)
                 (newlyIssued e' (TaskStore.advance dt' e' t').1))
       ∧ (TaskStore.viewModeTimeout t' = None →
          Forall (λ op, savesViewMode op = false)
                 (newlyIssued e' (TaskStore.advance dt' e' t').1)))
  ∧ (∀ dt' e' d', DocumentStore.saveTimeout d' = None →
       DocumentStore.advance dt' e' d' = (tick dt' e', d')).
Proof.
  intros Hflag.
  split; [by apply TaskStore_runTimers_suspended |].
  split; [by apply DocumentStore_runTimers_suspended |].
  unfold TaskStore.advance, DocumentStore.advance, TaskStore.runTimers,
    DocumentStore.runTimers, TaskStore.itemsTimerFired, TaskStore.columnByIdTimerFired,
    TaskStore.viewModeTimerFired.
  rewrite !saveTimerFired_eq, !isImportInProgress_tick, Hflag. cbn [tick clock].
  split; [intros Hdue; rewrite Hdue; timers |].
  split; [intros Hdue; timers |].
  split; [intros Hdue; timers |].
  split; [intros Hdue; by rewrite Hdue |].
  split.
  - intros dt' e' t'. pose proof (TaskStore_idle_slice dt' e' t') as (Hi & Hc & Hv).
    split; [intros Hn; by apply Hi |]. split; [intros Hn; by apply Hc |].
    intros Hn; by apply Hv.
  - intros dt' e' d' Hnone. by rewrite Hnone.
Qed.

(** [mapSet] files the value under its key. *)
Lemma mapSet_elem (k : string) (v : DocumentRecord) (m : list (string * DocumentRecord)) :
  (k, v) ∈ DocumentStore.mapSet k v m.
Proof.
  induction m as [| [k' v'] m IH]; cbn; [by left |].
  destruct (String.eqb k' k); [by left | by right].
Qed.


(** C10. The two delete operations of the document hook issue their store
    delete whether or not [importInProgress] is set: with the flag set the
    store loses the records at once.  The flag gates only the timer callback
    (which then writes nothing); the explicit flush is not gated either. *)
Theorem deletes_ignore_import_flag (e : Env) (h : DocumentStore.State)
    (id taskId : string) :
  isImportInProgress e = true →
  (DocumentStore.deleteDocument id e h).1 = perform (OpDeleteDocument id) e
  ∧ store (DocumentStore.deleteDocument id e h).1 = Db.deleteDocument id (store e)
  ∧ (DocumentStore.deleteDocumentsByTaskId taskId e h).1
    = perform (OpDeleteDocumentsByTaskId taskId) e
  ∧ store (DocumentStore.deleteDocumentsByTaskId taskId e h).1
    = Db.deleteDocumentsByTaskId taskId (store e)
  ∧ (DocumentStore.saveTimerFired e h).1 = e
  ∧ (DocumentStore.flushPendingSaves e h).1
    = DocumentStore.saveAll (DocumentStore.mapValues (DocumentStore.pendingSaves h)) e.
Proof.
  intros Hflag. rewrite saveTimerFired_eq, flushPendingSaves_eq, Hflag. done.
Qed.

(** The [scheduleSave] calls of one [updateDocument] leave the documents alone
    and, when there is at least one, start the timer. *)
Lemma scheduleSave_fold (e : Env) (touched : list DocumentRecord) :
  ∀ h, DocumentStore.documents (foldl (λ h doc, DocumentStore.scheduleSave doc e h) h touched)
       = DocumentStore.documents h
       ∧ DocumentStore.saveTimeout
           (foldl (λ h doc, DocumentStore.scheduleSave doc e h) h touched)
         = match touched with
           | [] => DocumentStore.saveTimeout h
           | _ => Some (clock e + DocumentStore.DEBOUNCE_MS)
           end.
Proof.
  induction touched as [| doc touched IH]; intros h; [done |].
  cbn [foldl]. destruct (IH (DocumentStore.scheduleSave doc e h)) as [-> ->].
  split; [done |]. by destruct touched.
Qed.

Lemma mapDelete_elem (x k : string) (y : DocumentRecord) (m : list (string * DocumentRecord)) :
  (x, y) ∈ DocumentStore.mapDelete k m ↔ (x, y) ∈ m ∧ x ≠ k.
Proof. unfold DocumentStore.mapDelete. rewrite list_elem_of_filter. cbn. tauto. Qed.

(** The pending saves that survive the cancellation loop of
    [deleteDocumentsByTaskId]. *)
Lemma cancelled_elem (x : string) (y : DocumentRecord) (docs : list DocumentRecord) :
  ∀ m, (x, y) ∈ foldl (λ m doc, DocumentStore.mapDelete (doc_id doc) m) m docs
       ↔ (x, y) ∈ m ∧ ∀ doc, doc ∈ docs → doc_id doc ≠ x.
Proof.
  induction docs as [| doc docs IH]; intros m; cbn.
  - split; [intros Hin; split; [done |]; by intros doc ?%elem_of_nil | tauto].
  - rewrite IH, mapDelete_elem. split.
    + intros [[Hin Hne] Hrest]. split; [done |].
      intros doc' [-> | Hin']%elem_of_cons; [done | by apply Hrest].
    + intros [Hin Hall]. split; [split; [done |] |].
      * intros ->. by apply (Hall doc); [left |].
      * intros doc' Hin'. apply Hall. by right.
Qed.


End HookWrites.

Lemma suspended_timer_discards_write_witness :
  isImportInProgress Fixtures.suspended = true
  ∧ (TaskStore.advance 300 Fixtures.suspended Fixtures.renaming).1
    = tick 300 Fixtures.suspended
  ∧ (DocumentStore.advance 300 Fixtures.suspended Fixtures.editing).1
    = tick 300 Fixtures.suspended
  ∧ DocumentStore.pendingSaves
      (DocumentStore.advance 300 Fixtures.suspended Fixtures.editing).2 = [].
Proof.
  split; [reflexivity |].
  pose proof (suspended_timer_discards_write 300 Fixtures.suspended Fixtures.renaming
                Fixtures.editing eq_refl) as (Htask & Hdoc & _ & _ & _ & Hpending & _).
  split; [exact Htask |]. split; [exact Hdoc |]. exact (proj1 (Hpending eq_refl)).
Defined.

Lemma deletes_ignore_import_flag_witness :
  isImportInProgress Fixtures.suspended = true
  ∧ Db.documents (store Fixtures.suspended) !! "d1" = Some (Fixtures.note "d1" "t1")
  ∧ store (DocumentStore.deleteDocument "d1" Fixtures.suspended Fixtures.editing).1
    = Db.deleteDocument "d1" (store Fixtures.suspended)
  ∧ Db.documents (Db.deleteDocument "d1" (store Fixtures.suspended)) !! "d1" = None.
Proof.
  split; [reflexivity |]. split; [reflexivity |].
  split; [| reflexivity].
  exact (proj1 (proj2 (deletes_ignore_import_flag Fixtures.suspended Fixtures.editing
                         "d1" "t1" eq_refl))).
Defined.


(** ** Debounce *)

Section Debounce.
Import TaskStore.



Import DocumentStore.

Lemma saveAll_issued (saves : list DocumentRecord) :
  ∀ e : Env, issued (saveAll saves e) = (issued e ++ map OpSaveDocument saves)%list.
Proof.
  unfold saveAll. induction saves as [| doc saves IH]; intros e; cbn.
  - by rewrite app_nil_r.
  - rewrite IH. cbn. by rewrite <- app_assoc.
Qed.



Lemma mapSet_keys (x k : string) (v : DocumentRecord) (m : list (string * DocumentRecord)) :
  x ∈ (mapSet k v m).*1 → x = k ∨ x ∈ m.*1.
Proof.
  induction m as [| [k' v'] m IH]; cbn.
  - intros ->%list_elem_of_singleton. by left.
  - destruct (String.eqb_spec k' k) as [-> | Hne]; cbn.
    + intros [-> | Hin]%elem_of_cons; [by left | right; by right].
    + intros [-> | Hin]%elem_of_cons; [right; by left |].
      destruct (IH Hin) as [-> | Hin']; [by left | right; by right].
Qed.

Lemma mapSet_NoDup (k : string) (v : DocumentRecord) (m : list (string * DocumentRecord)) :
  NoDup m.*1 → NoDup (mapSet k v m).*1.
Proof.
  induction m as [| [k' v'] m IH]; cbn; intros Hnodup.
  - apply NoDup_singleton.
  - apply NoDup_cons in Hnodup as [Hfresh Hnodup].
    destruct (String.eqb_spec k' k) as [-> | Hne]; cbn.
    + by apply NoDup_cons.
    + apply NoDup_cons. split; [| by apply IH].
      intros [-> | Hin]%mapSet_keys; done.
Qed.





End Debounce.



(** ** Cascade delete *)

Section Cascade.
Import DocumentStore.

(** [DocumentRun.consistent], as a proposition. *)
Lemma consistent_spec (h : State) :
  DocumentRun.consistent h = true ↔
  ∀ k d, (k, d) ∈ pendingSaves h →
         doc_id d = k
         ∧ ∃ doc, doc ∈ documents h ∧ doc_id doc = k ∧ doc_taskId doc = doc_taskId d.
Proof.
  unfold DocumentRun.consistent. rewrite forallb_forall. split.
  - intros Hall k d Hin. apply list_elem_of_In, Hall in Hin. cbn in Hin.
    apply andb_true_iff in Hin as [Hid Hex]. apply String.eqb_eq in Hid.
    split; [done |]. apply existsb_exists in Hex as (doc & Hdoc & Hsame).
    apply andb_true_iff in Hsame as [Hk Ht].
    exists doc. split; [by apply list_elem_of_In |]. split; by apply String.eqb_eq.
  - intros Hall [k d] Hin. apply list_elem_of_In, Hall in Hin as (Hid & doc & Hdoc & Hk & Ht).
    cbn. apply andb_true_iff. split; [by apply String.eqb_eq |].
    apply existsb_exists. exists doc. split; [by apply list_elem_of_In |].
    apply andb_true_iff. split; by apply String.eqb_eq.
Qed.

Lemma mapSet_elem_inv (x k : string) (y v : DocumentRecord)
    (m : list (string * DocumentRecord)) :
  (x, y) ∈ mapSet k v m → (x, y) = (k, v) ∨ (x, y) ∈ m.
Proof.
  induction m as [| [k' v'] m IH]; cbn.
  - intros ->%list_elem_of_singleton. by left.
  - destruct (String.eqb k' k).
    + intros [-> | Hin]%elem_of_cons; [by left | right; by right].
    + intros [-> | Hin]%elem_of_cons; [right; by left |].
      destruct (IH Hin) as [-> | Hin']; [by left | right; by right].
Qed.

(** Every state the document hook reaches from hydration keeps its pending
    saves consistent with the documents in memory. *)
Lemma step_consistent (a : DocumentRun.Action) (e : Env) (h : State) :
  DocumentRun.consistent h = true →
  DocumentRun.consistent (DocumentRun.step a (e, h)).2 = true.
Proof.
  rewrite !consistent_spec. intros Hcons.
  destruct a as [newId now taskId title | id updates now | id | taskId | | dt]; cbn.
  - intros k d [[= -> ->] | Hin]%mapSet_elem_inv.
    + split; [done |]. eexists. split; [apply elem_of_app; right; by left | done].
    + destruct (Hcons k d Hin) as (Hid & doc & Hdoc & Hk & Ht).
      split; [done |]. exists doc. split; [apply elem_of_app; by left | done].
  - unfold updateDocument.
    set (upd := λ doc, if String.eqb (doc_id doc) id then applyUpdates updates now doc else doc).
    set (docs' := map upd (documents h)).
    assert (∀ doc, doc_id (upd doc) = doc_id doc ∧ doc_taskId (upd doc) = doc_taskId doc)
      as Hupd by (intros doc; unfold upd; by destruct (String.eqb _ _)).
    assert (∀ (touched : list DocumentRecord) (h0 : State),
              documents h0 = docs' →
              (∀ doc, doc ∈ touched → doc ∈ docs') →
              (∀ k d, (k, d) ∈ pendingSaves h0 →
                      doc_id d = k
                      ∧ ∃ doc, doc ∈ docs' ∧ doc_id doc = k ∧ doc_taskId doc = doc_taskId d) →
              ∀ k d, (k, d) ∈ pendingSaves (foldl (λ h doc, scheduleSave doc e h) h0 touched) →
                     doc_id d = k
                     ∧ ∃ doc, doc ∈ documents (foldl (λ h doc, scheduleSave doc e h) h0 touched)
                              ∧ doc_id doc = k ∧ doc_taskId doc = doc_taskId d) as Hfold.
    { induction touched as [| u touched IH]; intros h0 Hdocs Hsub Hinv; cbn.
      - rewrite Hdocs. exact Hinv.
      - apply IH; [done | by intros doc ?; apply Hsub; right |].
        cbn. intros k d [[= -> ->] | Hin]%mapSet_elem_inv.
        + split; [done |]. exists u. split; [apply Hsub; by left | done].
        + by apply Hinv. }
    apply Hfold; [done | |].
    + intros doc Hin. by apply list_elem_of_filter in Hin as [_ ?].
    + cbn. intros k d Hin. destruct (Hcons k d Hin) as (Hid & doc & Hdoc & Hk & Ht).
      split; [done |]. exists (upd doc). destruct (Hupd doc) as [Hi Hj].
      split; [by apply list_elem_of_fmap_2 |]. by rewrite Hi, Hj.
  - intros k d [Hin Hne]%mapDelete_elem.
    destruct (Hcons k d Hin) as (Hid & doc & Hdoc & Hk & Ht).
    split; [done |]. exists doc. split; [| done].
    apply list_elem_of_filter. split; [congruence | done].
  - intros k d [Hin Hkept]%cancelled_elem.
    destruct (Hcons k d Hin) as (Hid & doc & Hdoc & Hk & Ht).
    split; [done |]. exists doc. split; [| done].
    apply list_elem_of_filter. split; [| done].
    intros Htask. apply (Hkept doc); [| done].
    by apply list_elem_of_filter.
  - rewrite flushPendingSaves_eq. by intros k d ?%elem_of_nil.
  - unfold advance, runTimers. rewrite saveTimerFired_eq.
    destruct (due id (saveTimeout h) (clock (tick dt e))); [| exact Hcons].
    destruct (isImportInProgress (tick dt e)); cbn; by intros k d ?%elem_of_nil.
Qed.

Lemma run_consistent (actions : list DocumentRun.Action) :
  ∀ (w : Env * State), DocumentRun.consistent w.2 = true →
  DocumentRun.consistent (DocumentRun.run actions w).2 = true.
Proof.
  induction actions as [| a actions IH]; intros [e h] Hcons; [done |].
  cbn. apply IH. by apply step_consistent.
Qed.

Lemma reachable_consistent (actions : list DocumentRun.Action) (e : Env)
    (docs : list DocumentRecord) :
  DocumentRun.consistent (DocumentRun.run actions (e, DocumentRun.hydrated docs)).2 = true.
Proof. by apply run_consistent. Qed.

Section OneTask.
Variable taskId : string.

Local Abbreviation storeClean := (StoreState.noDocumentsOf taskId).
Local Abbreviation pendingClean := (DocumentRun.nonePendingOf taskId).
Local Abbreviation clean := (AppRun.clean taskId).

Lemma applyOp_documents (op : StoreOp) (s : Db.Store) :
  savesTasks op || savesColumnById op || savesViewMode op = true →
  Db.documents (applyOp op s) = Db.documents s.
Proof.
  destruct op; try discriminate; intros _; [| done | done].
  unfold applyOp, Db.saveTasks. rewrite bulkAdd_guarded. by destruct (Db.bulkAdd _ _).
Qed.

Lemma TaskStore_runTimers_documents (e : Env) (t : TaskStore.State) :
  Db.documents (store (TaskStore.runTimers e t).1) = Db.documents (store e).
Proof.
  unfold TaskStore.runTimers, TaskStore.itemsTimerFired, TaskStore.columnByIdTimerFired,
    TaskStore.viewModeTimerFired.
  repeat (cbn [fst snd perform store];
          match goal with
          | |- context [if ?c then _ else _] => destruct c eqn:?
          | |- context [match ?t with Some _ => _ | None => _ end] => destruct t eqn:?
          end);
    cbn [fst snd perform store]; rewrite ?applyOp_documents by done; done.
Qed.

Lemma saveDocument_clean (doc : DocumentRecord) (s : Db.Store) :
  doc_taskId doc ≠ taskId → storeClean s → storeClean (applyOp (OpSaveDocument doc) s).
Proof.
  intros Hother Hclean k v. cbn.
  destruct (decide (doc_id doc = k)) as [<- | Hne].
  - rewrite lookup_insert_eq. intros [= <-]. cbn. by apply String.eqb_neq.
  - rewrite lookup_insert_ne by done. apply Hclean.
Qed.

Lemma saveAll_clean (saves : list DocumentRecord) :
  ∀ e, Forall (λ doc, doc_taskId doc ≠ taskId) saves →
       storeClean (store e) → storeClean (store (saveAll saves e)).
Proof.
  unfold saveAll. induction saves as [| doc saves IH]; intros e Hother Hclean; [done |].
  apply Forall_cons in Hother as [Hdoc Hother]. cbn [foldl].
  apply IH; [done |]. by apply saveDocument_clean.
Qed.

Lemma delete_clean (s : Db.Store) : storeClean (Db.deleteDocumentsByTaskId taskId s).
Proof.
  intros k v. cbn. rewrite map_lookup_filter_Some. by intros [_ ?].
Qed.

Lemma saveNext_clean (saves : list DocumentRecord) (e : Env) :
  Forall (λ doc, doc_taskId doc ≠ taskId) saves → storeClean (store e) →
  storeClean (store (saveNext saves e).1)
  ∧ Forall (λ doc, doc_taskId doc ≠ taskId) (saveNext saves e).2.
Proof.
  intros Hsaves Hstore. destruct saves as [| doc rest]; [done |].
  apply Forall_cons in Hsaves as [Hdoc Hrest]. cbn [saveNext fst snd perform store].
  split; [by apply saveDocument_clean | done].
Qed.

Lemma timersFire_clean (dt : nat) (a : ItemList.App) :
  storeClean (store (ItemList.env a)) → pendingClean (ItemList.documentStore a) →
  storeClean (store (ItemList.env (ItemList.timersFire dt a).1))
  ∧ pendingClean (ItemList.documentStore (ItemList.timersFire dt a).1)
  ∧ Forall (λ doc, doc_taskId doc ≠ taskId) (ItemList.timersFire dt a).2.
Proof.
  intros Hstore Hpending. unfold ItemList.timersFire.
  pose proof (TaskStore_runTimers_documents (tick dt (ItemList.env a)) (ItemList.taskStore a))
    as Hdocs.
  destruct (TaskStore.runTimers _ _) as [e1 t1]. cbn [fst] in Hdocs.
  assert (storeClean (store e1)) as Hstore1.
  { intros k v. rewrite Hdocs. apply Hstore. }
  destruct (due id _ _); [| done].
  unfold saveTimerStarted.
  destruct (isImportInProgress e1); cbn [fst snd ItemList.env ItemList.documentStore].
  { split; [done |]. split; [by intros k doc ?%elem_of_nil | done]. }
  assert (Forall (λ doc, doc_taskId doc ≠ taskId)
                 (mapValues (pendingSaves (ItemList.documentStore a)))) as Hsaves.
  { apply Forall_forall. intros doc Hin.
    apply list_elem_of_fmap in Hin as ([k d] & -> & Hin). by apply (Hpending k). }
  destruct (saveNext_clean _ e1 Hsaves Hstore1) as [Hwritten Hrest].
  destruct (saveNext _ e1) as [e2 rest]. cbn [fst snd ItemList.env ItemList.documentStore] in *.
  split; [done |]. split; [by intros k doc ?%elem_of_nil | done].
Qed.

Lemma react_clean (ev : AppRun.Event) (w : AppRun.World) :
  clean w → clean (AppRun.react ev w).
Proof.
  intros (Hstore & Hpending & Hloops). destruct ev as [dt | i]; cbn [AppRun.react].
  - destruct (timersFire_clean dt (AppRun.app w) Hstore Hpending) as (Hs & Hp & Hrest).
    destruct (ItemList.timersFire dt (AppRun.app w)) as [a1 rest]. cbn [fst snd] in *.
    split; [done |]. split; [done |]. cbn [AppRun.loops].
    apply Forall_app. split; [done |]. by apply Forall_singleton.
  - destruct (AppRun.loops w !! i) as [saves |] eqn:Hi; [| done].
    unfold ItemList.saveLoopResumes.
    destruct (saveNext_clean saves (ItemList.env (AppRun.app w))) as [Hs Hrest];
      [by apply (Forall_lookup_1 _ _ _ _ Hloops Hi) | done |].
    destruct (saveNext saves _) as [e1 rest]. cbn [fst snd] in *.
    split; [done |]. split; [done |]. cbn [AppRun.loops].
    by apply Forall_insert.
Qed.

(** X24. Removing a task removes it and its column entry from memory,
    removes its documents from memory and from the store, and drops their
    pending saves.  When no save loop under way has a document of the task
    left to save, the removal is final: whatever timers fire and whatever
    turns the save loops take afterwards, the store holds no document of the
    task. *)
Theorem removeItem_final_without_waiting_save (a : ItemList.App)
    (loops : list (list DocumentRecord)) (later : list AppRun.Event) :
  DocumentRun.consistent (ItemList.documentStore a) = true →
  Forall (Forall (λ doc, doc_taskId doc ≠ taskId)) loops →
  let a' := ItemList.removeItem taskId a in
  let after := AppRun.play later {| AppRun.app := a'; AppRun.loops := loops |} in
  (∀ item, item ∈ TaskStore.items (ItemList.taskStore a') → task_id item ≠ taskId)
  ∧ TaskStore.columnById (ItemList.taskStore a') !! taskId = None
  ∧ (∀ doc, doc ∈ documents (ItemList.documentStore a') → doc_taskId doc ≠ taskId)
  ∧ (∀ k doc, (k, doc) ∈ pendingSaves (ItemList.documentStore a') → doc_taskId doc ≠ taskId)
  ∧ newlyIssued (ItemList.env a) (ItemList.env a') = [OpDeleteDocumentsByTaskId taskId]
  ∧ StoreState.noDocumentsOf taskId (store (ItemList.env (AppRun.app after)))
  ∧ Forall (Forall (λ doc, doc_taskId doc ≠ taskId)) (AppRun.loops after).
Proof.
  intros Hcons' Hloops a' after.
  pose proof (proj1 (consistent_spec (ItemList.documentStore a)) Hcons') as Hcons.
  assert (pendingClean (ItemList.documentStore a')) as Hpending.
  { intros k doc [Hin Hkept]%cancelled_elem Htask.
    destruct (Hcons k doc Hin) as (Hid & doc' & Hdoc' & Hk & Ht).
    apply (Hkept doc'); [| done]. apply list_elem_of_filter. split; [congruence | done]. }
  split; [by intros item [? _]%list_elem_of_filter |].
  split; [apply lookup_delete_eq |].
  split; [by intros doc [? _]%list_elem_of_filter |].
  split; [done |].
  split; [apply newlyIssued_perform |].
  assert (clean after) as (Hclean & _ & Hrest); [| done].
  subst after. unfold AppRun.play.
  induction later as [| ev later IH] using rev_ind.
  - split; [apply delete_clean | done].
  - rewrite foldl_app. cbn [foldl]. by apply react_clean.
Qed.

End OneTask.

(** C7.  [removeItem] cancels what is in the pending map, but a save loop
    under way holds its own copy of the documents it has yet to save.  Here
    the edits of [d1] and [d3], both of task [t1], are pending when the
    timer of the document hook fires: the callback clears the map, issues
    the save of [d1] and waits for the store.  Then the task is removed: its
    documents leave memory and the store, and nothing is pending.  Then the
    loop takes its next turn and saves [d3].  Once the timers of the task
    hook have fired, the store holds no task, and the document [d3] of the
    removed task. *)
Theorem waiting_save_resurrects_document :
  let saving := ItemList.timersFire 200 Fixtures.beforeSave in
  let removed := ItemList.removeItem "t1" saving.1 in
  let resumed := ItemList.saveLoopResumes saving.2 removed in
  let settled := ItemList.advance 300 resumed.1 in
  saving.2 = [ Fixtures.doc "d3" "t1" "other" ]
  ∧ TaskStore.items (ItemList.taskStore removed) = []
  ∧ documents (ItemList.documentStore removed) = []
  ∧ pendingSaves (ItemList.documentStore removed) = []
  ∧ Db.documents (store (ItemList.env removed)) = ∅
  ∧ resumed.2 = []
  ∧ issued (ItemList.env settled)
    = [ OpSaveDocument (Fixtures.doc "d1" "t1" "edited");
        OpDeleteDocumentsByTaskId "t1";
        OpSaveDocument (Fixtures.doc "d3" "t1" "other");
        OpSaveTasks [];
        OpSetColumnById ∅ ]
  ∧ Db.tasks (store (ItemList.env settled)) = ∅
  ∧ Db.documents (store (ItemList.env settled))
    = {[ "d3" := documentToJs (Fixtures.doc "d3" "t1" "other") ]}
  ∧ ¬ StoreState.noDocumentsOf "t1" (store (ItemList.env settled)).
Proof.
  cbn zeta. do 9 (split; [vm_compute; reflexivity |]).
  intros Hclean.
  specialize (Hclean "d3" (documentToJs (Fixtures.doc "d3" "t1" "other"))).
  vm_compute in Hclean. by specialize (Hclean eq_refl).
Qed.

End Cascade.

Lemma removeItem_final_without_waiting_save_witness :
  DocumentRun.consistent (ItemList.documentStore Fixtures.beforeRemove) = true
  ∧ Db.documents (store (ItemList.env Fixtures.beforeRemove)) !! "d1"
    = Some (Fixtures.note "d1" "t1")
  ∧ (("d1", Fixtures.doc "d1" "t1" "edited")
       ∈ DocumentStore.pendingSaves (ItemList.documentStore Fixtures.beforeRemove))
  ∧ StoreState.noDocumentsOf "t1"
      (store (ItemList.env
                (AppRun.app
                   (AppRun.play
                      [ AppRun.Elapses 150; AppRun.LoopResumes 0; AppRun.Elapses 400 ]
                      {| AppRun.app := ItemList.removeItem "t1" Fixtures.beforeRemove;
                         AppRun.loops := [ [ Fixtures.doc "d4" "t2" "draft" ] ] |})))).
Proof.
  split; [reflexivity |]. split; [reflexivity |]. split; [by left |].
  refine (proj1 (proj2 (proj2 (proj2 (proj2 (proj2
            (removeItem_final_without_waiting_save "t1" Fixtures.beforeRemove
               [ [ Fixtures.doc "d4" "t2" "draft" ] ]
               [ AppRun.Elapses 150; AppRun.LoopResumes 0; AppRun.Elapses 400 ]
               eq_refl _))))))).
  repeat constructor. discriminate.
Defined.

(** ** Sub-task auto-transition *)

Section AutoTransition.
Import ItemList.

(** The column map after the [setColumnById] calls of one [toggleSubTask]. *)
Lemma moved_columns (e : Env) (moved : list TaskRecord) :
  ∀ t, TaskStore.columnById
         (foldl (λ t item,
                   TaskStore.setColumnById (λ prev, <[task_id item := Column2]> prev) e t)
                t moved)
       = foldl (λ cols item, <[task_id item := Column2]> cols) (TaskStore.columnById t) moved.
Proof. induction moved as [| item moved IH]; intros t; [done |]. cbn. by rewrite IH. Qed.

Lemma moved_lookup (editingId k : string) (moved : list TaskRecord) :
  Forall (λ item, task_id item = editingId) moved →
  ∀ cols : gmap string ColumnId,
  foldl (λ cols item, <[task_id item := Column2]> cols) cols moved !! k
  = match moved with
    | [] => cols !! k
    | _ => if decide (editingId = k) then Some Column2 else cols !! k
    end.
Proof.
  induction 1 as [| item moved Hid Hall IH]; intros cols; [done |].
  cbn [foldl]. rewrite IH, Hid. destruct moved as [| item' moved].
  - apply lookup_insert.
  - case_decide; [done |]. by rewrite lookup_insert_ne.
Qed.

(** What [toggleSubTask] does to the column map: nothing, or it maps the task
    being edited to column-2, and then only if that task was in column-1. *)
Lemma toggleSubTask_columns (subTaskId : string) (a : App) :
  ∃ moved : list TaskRecord,
    (moved = [] ∨ ∃ editingId, editingItemId a = Some editingId ∧ editingId ≠ ""
                  ∧ columnOf (TaskStore.columnById (taskStore a)) editingId = Some Column1
                  ∧ Forall (λ item, task_id item = editingId) moved)
    ∧ TaskStore.columnById (taskStore (toggleSubTask subTaskId a))
      = foldl (λ cols item, <[task_id item := Column2]> cols)
              (TaskStore.columnById (taskStore a)) moved
    ∧ ∀ editingId item,
        editingItemId a = Some editingId → editingId ≠ "" →
        item ∈ TaskStore.items (taskStore a) → task_id item = editingId →
        existsb st_completed (map (toggle subTaskId) (task_subTasks item)) = true →
        columnOf (TaskStore.columnById (taskStore a)) editingId = Some Column1 →
        item ∈ moved.
Proof.
  unfold toggleSubTask. destruct (editingItemId a) as [editingId |] eqn:Hediting.
  2: { exists []. split; [by left |]. split; [done |]. intros ? ? [=]. }
  destruct (String.eqb_spec editingId "") as [-> | Hne].
  { exists []. split; [by left |]. split; [done |]. by intros ? ? [= <-]. }
  set (moves := λ item : TaskRecord, _ && _ && _).
  exists (List.filter moves (TaskStore.items (taskStore a))).
  split; [| split].
  - destruct (List.filter moves _) as [| item0 rest] eqn:Hfilter; [by left |]. right.
    exists editingId. split; [done |]. split; [done |].
    assert (∀ item, item ∈ List.filter moves (TaskStore.items (taskStore a)) →
                    task_id item = editingId
                    ∧ columnOf (TaskStore.columnById (taskStore a)) editingId = Some Column1)
      as Hmoved.
    { intros item [_ Hm]%list_elem_of_In%filter_In. unfold moves in Hm.
      rewrite !andb_true_iff in Hm. destruct Hm as [[Hid _] Hcol].
      apply String.eqb_eq in Hid. apply bool_decide_eq_true in Hcol.
      split; [done |]. by rewrite <- Hid. }
    rewrite Hfilter in Hmoved. split.
    + by apply (Hmoved item0); left.
    + apply Forall_forall. intros item Hin. by apply Hmoved.
  - cbn [taskStore]. by rewrite moved_columns.
  - intros editingId' item [= <-] _ Hin Hid Hdone Hcol.
    apply list_elem_of_In, filter_In. split; [by apply list_elem_of_In |].
    unfold moves. rewrite Hid, String.eqb_refl, Hdone. cbn.
    by apply bool_decide_eq_true.
Qed.

(** The pass of [itemsByColumn] over [items], from any point on: it ends
    without a throw exactly when every task left has a column. *)
Lemma itemsByColumn_fold (columnById : gmap string ColumnId) (items : list TaskRecord) :
  ∀ r : option Columns,
  foldl (λ r item,
           m ← r; column ← columnOf columnById (task_id item); Some (push column item m))
        r items
  = m ← r;
    columns ← mapM (λ item, columnOf columnById (task_id item)) items;
    Some (foldl (λ m p, push p.2 p.1 m) m (zip items columns)).
Proof.
  induction items as [| item items IH]; intros r; cbn [foldl mapM].
  - by destruct r.
  - rewrite IH. destruct r as [m |]; [| done]. cbn.
    destruct (columnOf columnById (task_id item)) as [column |]; [| done]. cbn.
    by destruct (mapM _ items).
Qed.

(** A list that [itemsByColumn] went through has a column for every task. *)
Lemma itemsByColumn_Some (columnById : gmap string ColumnId) (items : list TaskRecord)
    (rendered : Columns) (item : TaskRecord) :
  itemsByColumn items columnById = Some rendered → item ∈ items →
  is_Some (columnOf columnById (task_id item)).
Proof.
  unfold itemsByColumn. rewrite itemsByColumn_fold. cbn.
  destruct (mapM _ items) as [columns |] eqn:Hcolumns; [| done].
  intros _ Hin. apply mapM_Some in Hcolumns.
  apply list_elem_of_lookup in Hin as [i Hi].
  destruct (Forall2_lookup_l _ _ _ _ _ Hcolumns Hi) as (column & _ & Hcolumn).
  by exists column.
Qed.

(** C8. Take the application with the editor open on a task, its list
    rendered ([itemsByColumn] is computed in every render).  Toggling a
    sub-task to completed while the task is mapped to column-1, or to no
    column, maps the task to column-2; toggling the sub-task again leaves the
    task in column-2.  In general one [toggleSubTask] leaves every entry of
    the column map as it was, except that it may map a task that was in
    column-1 to column-2: it never maps a task to column-1. *)
Theorem toggleSubTask_auto_transition (a : App) (editingId subTaskId : string)
    (item : TaskRecord) (st : SubTask) (rendered : Columns) :
  editingItemId a = Some editingId → editingId ≠ "" →
  item ∈ TaskStore.items (taskStore a) → task_id item = editingId →
  st ∈ task_subTasks item → st_id st = subTaskId → st_completed st = false →
  itemsByColumn (TaskStore.items (taskStore a)) (TaskStore.columnById (taskStore a))
  = Some rendered →
  TaskStore.columnById (taskStore a) !! editingId = Some Column1
  ∨ TaskStore.columnById (taskStore a) !! editingId = None →
  let a1 := toggleSubTask subTaskId a in
  let a2 := toggleSubTask subTaskId a1 in
  (∃ item1 st1, item1 ∈ TaskStore.items (taskStore a1) ∧ task_id item1 = editingId
                ∧ st1 ∈ task_subTasks item1 ∧ st_id st1 = subTaskId
                ∧ st_completed st1 = true)
  ∧ TaskStore.columnById (taskStore a1) !! editingId = Some Column2
  ∧ TaskStore.columnById (taskStore a2) !! editingId = Some Column2
  ∧ (∀ (b : App) (sid k : string),
       TaskStore.columnById (taskStore (toggleSubTask sid b)) !! k
       = TaskStore.columnById (taskStore b) !! k
       ∨ (columnOf (TaskStore.columnById (taskStore b)) k = Some Column1
          ∧ TaskStore.columnById (taskStore (toggleSubTask sid b)) !! k = Some Column2)).
Proof.
  intros Hediting Hne Hitem Hid Hst Hsid Hopen Hrendered Hmapped a1 a2.
  assert (columnOf (TaskStore.columnById (taskStore a)) editingId = Some Column1) as Hcol.
  { destruct (itemsByColumn_Some _ _ _ item Hrendered Hitem) as [column Hcolumn].
    rewrite Hid in Hcolumn. unfold columnOf in *.
    destruct Hmapped as [-> | Hnone]; [done |]. rewrite Hnone in *.
    by destruct (bool_decide (editingId ∈ objectPrototypeNames)). }
  assert (∀ (b : App) (sid k : string),
       TaskStore.columnById (taskStore (toggleSubTask sid b)) !! k
       = TaskStore.columnById (taskStore b) !! k
       ∨ (columnOf (TaskStore.columnById (taskStore b)) k = Some Column1
          ∧ TaskStore.columnById (taskStore (toggleSubTask sid b)) !! k = Some Column2))
    as Hgeneral.
  { intros b sid k. destruct (toggleSubTask_columns sid b) as (moved & Hmoved & -> & _).
    destruct Hmoved as [-> | (eid & _ & _ & Hwas & Hall)]; [by left |].
    rewrite (moved_lookup eid k moved Hall). destruct moved; [by left |].
    case_decide as Hk; [subst k; by right | by left]. }
  assert (toggle subTaskId st ∈ map (toggle subTaskId) (task_subTasks item)) as Htoggled
    by by apply list_elem_of_fmap_2.
  assert (st_completed (toggle subTaskId st) = true ∧ st_id (toggle subTaskId st) = subTaskId)
    as [Hdone Hsame].
  { unfold toggle. rewrite Hsid, String.eqb_refl. cbn. by rewrite Hopen. }
  assert (TaskStore.columnById (taskStore a1) !! editingId = Some Column2) as Hmoved.
  { subst a1. destruct (toggleSubTask_columns subTaskId a) as (moved & Hshape & -> & Hin).
    assert (item ∈ moved) as Hinmoved.
    { apply (Hin editingId); try done. apply existsb_exists.
      exists (toggle subTaskId st). by rewrite <- list_elem_of_In. }
    destruct Hshape as [-> | (eid & Heid & _ & _ & Hall)]; [by apply elem_of_nil in Hinmoved |].
    assert (eid = editingId) as -> by congruence.
    rewrite (moved_lookup editingId editingId moved Hall).
    destruct moved; [by apply elem_of_nil in Hinmoved |]. by case_decide. }
  split; [| split; [done | split; [| done]]].
  - subst a1. unfold toggleSubTask. rewrite Hediting.
    apply String.eqb_neq in Hne as ->. cbn [taskStore].
    exists {| task_id := task_id item; task_label := task_label item;
              task_link := task_link item;
              task_subTasks := map (toggle subTaskId) (task_subTasks item) |},
           (toggle subTaskId st).
    split; [| done].
    assert (∀ t moved, TaskStore.items
              (foldl (λ t item0, TaskStore.setColumnById
                                   (λ prev, <[task_id item0 := Column2]> prev) (env a) t)
                     t moved) = TaskStore.items t) as ->.
    { intros t moved. revert t. induction moved as [| m moved IH]; intros t; [done |].
      cbn. by rewrite IH. }
    cbn [TaskStore.setItems TaskStore.items].
    apply list_elem_of_fmap. exists item. split; [| done].
    by rewrite Hid, String.eqb_refl.
  - subst a2. destruct (Hgeneral a1 subTaskId editingId) as [-> | [_ ->]]; done.
Qed.

End AutoTransition.

Lemma toggleSubTask_auto_transition_witness :
  TaskStore.columnById (ItemList.taskStore Fixtures.planning) !! "t1" = Some Column1
  ∧ TaskStore.columnById
      (ItemList.taskStore (ItemList.toggleSubTask "s1" Fixtures.planning)) !! "t1"
    = Some Column2
  ∧ TaskStore.columnById
      (ItemList.taskStore
         (ItemList.toggleSubTask "s1" (ItemList.toggleSubTask "s1" Fixtures.planning)))
      !! "t1"
    = Some Column2.
Proof.
  split; [reflexivity |].
  pose proof (toggleSubTask_auto_transition Fixtures.planning "t1" "s1"
                {| task_id := "t1"; task_label := "write"; task_link := None;
                   task_subTasks := [ Fixtures.step1 ] |}
                Fixtures.step1
                {| ItemList.column1 := TaskStore.items (ItemList.taskStore Fixtures.planning);
                   ItemList.column2 := []; ItemList.column3 := [] |}
                eq_refl) as Hmove.
  destruct Hmove as (_ & Hfirst & Hsecond & _);
    [discriminate | by left | reflexivity | by left | reflexivity | reflexivity
    | reflexivity | by left |].
  split; [exact Hfirst | exact Hsecond].
Defined.

(** ** Reading back what was saved *)

Section StoreReadBack.

(** After a successful [bulkAdd] the table lists what it listed before and the
    added records. *)
Lemma bulkAdd_Permutation (rs : list JsVal) :
  ∀ t t' : gmap string JsVal, Db.bulkAdd rs t = Db.Ok t' →
  Db.toArray t' ≡ₚ (rs ++ Db.toArray t)%list.
Proof.
  induction rs as [| r rs IH]; intros t t' Hadd.
  - by injection Hadd as <-.
  - rewrite bulkAdd_cons in Hadd. destruct (Db.add r t) as [t1 |] eqn:Hr; [| done].
    apply add_Ok in Hr as (k & _ & Hfree & ->).
    rewrite (IH _ _ Hadd). unfold Db.toArray.
    rewrite (map_to_list_insert t k r Hfree). cbn.
    by rewrite Permutation_middle.
Qed.

(** A [bulkAdd] that succeeds added records with pairwise different, free
    string keys. *)
Lemma bulkAdd_keys (rs : list JsVal) :
  ∀ t t' : gmap string JsVal, Db.bulkAdd rs t = Db.Ok t' →
  ∃ ks, Db.keyOf <$> rs = Some <$> ks ∧ NoDup ks ∧ ∀ k, k ∈ ks → t !! k = None.
Proof.
  induction rs as [| r rs IH]; intros t t' Hadd.
  - exists []. split; [done |]. split; [constructor |]. by intros k ?%elem_of_nil.
  - rewrite bulkAdd_cons in Hadd. destruct (Db.add r t) as [t1 |] eqn:Hr; [| done].
    apply add_Ok in Hr as (k & Hkey & Hfree & ->).
    destruct (IH _ _ Hadd) as (ks & Hks & Hnodup & Hfresh).
    exists (k :: ks). split; [cbn; by rewrite Hkey, Hks |]. split.
    + apply NoDup_cons. split; [| done]. intros Hin. specialize (Hfresh k Hin).
      by rewrite lookup_insert_eq in Hfresh.
    + intros k' [-> | Hin]%elem_of_cons; [done |]. specialize (Hfresh k' Hin).
      destruct (decide (k = k')) as [-> | Hne]; [by rewrite lookup_insert_eq in Hfresh |].
      by rewrite lookup_insert_ne in Hfresh.
Qed.

(** [saveTasks] is a [bulkAdd] into the emptied tasks table. *)
Lemma saveTasks_bulkAdd (ts : list JsVal) (s : Db.Store) :
  Db.saveTasks ts s
  = match Db.bulkAdd ts ∅ with
    | Db.Ok t => Db.Ok {| Db.tasks := t; Db.settings := Db.settings s;
                          Db.documents := Db.documents s |}
    | Db.Err err => Db.Err err
    end.
Proof. unfold Db.saveTasks, Db.clear. by rewrite bulkAdd_guarded. Qed.

(** X1. After a successful [saveTasks], [getAllTasks] returns the saved
    records, each once, in some order, and the documents and the settings are
    as before: [saveTasks] replaces the tasks table and touches nothing
    else. *)
Theorem saveTasks_getAllTasks (ts : list JsVal) (s s' : Db.Store) :
  Db.saveTasks ts s = Db.Ok s' →
  Db.getAllTasks s' ≡ₚ ts
  ∧ Db.documents s' = Db.documents s
  ∧ Db.settings s' = Db.settings s.
Proof.
  rewrite saveTasks_bulkAdd. destruct (Db.bulkAdd ts ∅) as [t |] eqn:Hadd; [| done].
  intros [= <-]. split; [| done]. unfold Db.getAllTasks. cbn.
  rewrite (bulkAdd_Permutation _ _ _ Hadd). unfold Db.toArray.
  by rewrite map_to_list_empty, app_nil_r.
Qed.

(** X2. For records whose [id] is a string, as the record types of db.ts
    have it, [saveTasks] succeeds exactly when no two records share an id,
    whatever the store held before. *)
Theorem saveTasks_succeeds_iff (ts : list JsVal) (s : Db.Store) :
  Forall (λ t, isType TString t.["id"] = true) ts →
  (∃ s', Db.saveTasks ts s = Db.Ok s') ↔ NoDup (getProp "id" <$> ts).
Proof.
  intros Hstrings.
  assert (∃ ks, Db.keyOf <$> ts = Some <$> ks ∧ getProp "id" <$> ts = JStr <$> ks)
    as (ks & Hkeys & Hids).
  { induction Hstrings as [| r ts Hr _ (ks & Hkeys & Hids)]; [by exists [] |].
    destruct (isType_string _ Hr) as [k Hid].
    exists (k :: ks). rewrite !fmap_cons, Hkeys, Hids, Hid.
    unfold Db.keyOf. by rewrite Hid. }
  rewrite saveTasks_bulkAdd, Hids. split.
  - intros [s' Hsave]. destruct (Db.bulkAdd ts ∅) as [t |] eqn:Hadd; [| done].
    destruct (bulkAdd_keys _ _ _ Hadd) as (ks' & Hks & Hnodup & _).
    rewrite Hkeys in Hks. apply (inj (fmap Some)) in Hks as <-.
    apply NoDup_fmap_2_strong; [| done]. by intros x y _ _ [=].
  - intros Hnodup%NoDup_fmap_1.
    destruct (bulkAdd_succeeds ts ∅ ks Hkeys Hnodup) as [t ->];
      [by intros; apply lookup_empty |].
    by eexists.
Qed.

(** X3. In a store whose tasks sit under their ids, writing back what
    [getAllTasks] read succeeds and leaves the store as it is. *)
Theorem saveTasks_write_back (s : Db.Store) :
  StoreState.wellKeyed (Db.tasks s) = true →
  Db.saveTasks (Db.getAllTasks s) s = Db.Ok s.
Proof.
  intros Hkeyed. rewrite saveTasks_bulkAdd. unfold Db.getAllTasks.
  rewrite bulkAdd_toArray by done. by destruct s.
Qed.

(** X4. [deleteDocumentsByTaskId] removes the documents of that task and no
    other: afterwards [getDocumentsByTaskId] finds none for the task and what
    it found before for every other task, [getDocument] reads [undefined] for
    a document of the task and the stored record for any other id, and tasks
    and settings are untouched. *)
Theorem deleteDocumentsByTaskId_getDocumentsByTaskId (taskId : string) (s : Db.Store) :
  let s' := Db.deleteDocumentsByTaskId taskId s in
  Db.getDocumentsByTaskId taskId s' = []
  ∧ (∀ other, other ≠ taskId →
       Db.getDocumentsByTaskId other s' = Db.getDocumentsByTaskId other s)
  ∧ (∀ id, Db.getDocument id s'
           = if isStr taskId (Db.getDocument id s).["taskId"] then JUndefined
             else Db.getDocument id s)
  ∧ Db.tasks s' = Db.tasks s ∧ Db.settings s' = Db.settings s.
Proof.
  cbn zeta. unfold Db.getDocumentsByTaskId, Db.getDocument, Db.deleteDocumentsByTaskId.
  cbn [Db.documents Db.tasks Db.settings].
  split; [| split; [| split; [| done]]].
  - rewrite map_filter_filter.
    match goal with |- Db.toArray ?m = [] => assert (m = ∅) as -> end.
    { apply map_empty_filter. intros k v _ [? ?]. cbn in *. congruence. }
    unfold Db.toArray. by rewrite map_to_list_empty.
  - intros other Hne. rewrite map_filter_filter. f_equal. apply map_filter_ext.
    intros k v _. cbn. split; [tauto |]. intros Hother. split; [done |].
    destruct (v.["taskId"]); try done. cbn in *.
    apply String.eqb_eq in Hother as ->. by apply String.eqb_neq.
  - intros id. rewrite map_lookup_filter.
    destruct (Db.documents s !! id) as [v |] eqn:Hv; cbn; [| done].
    case_guard as Hg; cbn; cbn in Hg; [by rewrite Hg |].
    by apply not_false_is_true in Hg as ->.
Qed.


End StoreReadBack.

Lemma saveTasks_succeeds_iff_witness :
  ∃ s', Db.saveTasks Fixtures.twoTasks Fixtures.imported = Db.Ok s'.
Proof.
  apply (saveTasks_succeeds_iff Fixtures.twoTasks Fixtures.imported).
  - by repeat constructor.
  - apply NoDup_cons. split; [by intros [=]%list_elem_of_singleton | apply NoDup_singleton].
Defined.

Lemma saveTasks_getAllTasks_witness :
  Db.saveTasks Fixtures.twoTasks Db.empty = Db.Ok Fixtures.savedTwo
  ∧ Db.getAllTasks Fixtures.savedTwo ≡ₚ Fixtures.twoTasks.
Proof.
  split; [vm_compute; reflexivity |].
  apply (saveTasks_getAllTasks Fixtures.twoTasks Db.empty Fixtures.savedTwo).
  vm_compute; reflexivity.
Defined.

Lemma saveTasks_write_back_witness :
  Db.saveTasks (Db.getAllTasks Fixtures.imported) Fixtures.imported = Db.Ok Fixtures.imported.
Proof.
  apply (saveTasks_write_back Fixtures.imported). vm_compute; reflexivity.
Defined.

(** ** Cleaning up orphans *)

Section Cleanup.
Import ImportExport.

(** The entries of a filtered map are the entries that pass the filter. *)
Lemma map_to_list_filter_perm {A : Type} (P : string * A → Prop) `{∀ kv, Decision (P kv)}
    (m : gmap string A) :
  map_to_list (filter P m) ≡ₚ filter P (map_to_list m).
Proof.
  induction m as [| k v m Hfree IH] using map_ind.
  - by rewrite map_filter_empty, map_to_list_empty.
  - rewrite (map_to_list_insert m k v Hfree). destruct (decide (P (k, v))) as [Hp | Hn].
    + rewrite map_filter_insert_True by done. rewrite filter_cons_True by done.
      rewrite map_to_list_insert; [by rewrite IH |].
      by rewrite map_lookup_filter, Hfree.
    + rewrite map_filter_insert_False by done. rewrite filter_cons_False by done.
      by rewrite delete_id.
Qed.

(** [bulkDelete] of string keys succeeds and removes these keys. *)
Lemma bulkDelete_strings (ks : list string) :
  ∀ t : gmap string JsVal,
  ∃ t', Db.bulkDelete (JStr <$> ks) t = Db.Ok t'
        ∧ ∀ k, t' !! k = if decide (k ∈ ks) then None else t !! k.
Proof.
  unfold Db.bulkDelete. induction ks as [| k0 ks IH]; intros t.
  - exists t. split; [done |]. intros k. case_decide as Hin; [by apply elem_of_nil in Hin | done].
  - cbn [fmap list_fmap foldl mbind Db.Result_bind].
    destruct (IH (delete k0 t)) as (t' & -> & Hlookup). exists t'. split; [done |].
    intros k. rewrite Hlookup. destruct (decide (k = k0)) as [-> | Hne].
    + rewrite lookup_delete_eq. rewrite (decide_True (P := k0 ∈ k0 :: ks)) by left.
      by case_decide.
    + rewrite lookup_delete_ne by done.
      destruct (decide (k ∈ ks)) as [Hin | Hout].
      * rewrite decide_True; [done | by right].
      * rewrite decide_False; [done |]. by intros [? | ?]%elem_of_cons.
Qed.

(** The key of a record is its [id], when that is a string. *)
Lemma keyOf_id (v : JsVal) (k : string) : Db.keyOf v = Some k ↔ v.["id"] = JStr k.
Proof.
  unfold Db.keyOf. destruct (v.["id"]); split; try done; congruence.
Qed.

(** The ids of the records of a well-keyed list that pass a test. *)
Lemma ids_of_filter (Q : JsVal → Prop) `{∀ v, Decision (Q v)} (l : list (string * JsVal)) :
  (∀ k v, (k, v) ∈ l → Db.keyOf v = Some k) →
  map (getProp "id") (filter Q l.*2) = JStr <$> (filter (λ kv, Q kv.2) l).*1.
Proof.
  induction l as [| [k v] l IH]; intros Hkeys; [done |].
  cbn [fmap list_fmap snd]. destruct (decide (Q v)) as [Hq | Hn].
  - rewrite !filter_cons_True by done. cbn.
    rewrite (proj1 (keyOf_id v k)) by by apply Hkeys; left.
    f_equal. apply IH. intros k' v' Hin. apply Hkeys. by right.
  - rewrite !filter_cons_False by done. apply IH. intros k' v' Hin. apply Hkeys. by right.
Qed.

(** [Set.prototype.has] does not depend on the order of insertion. *)
Lemma includes_Permutation (xs ys : list JsVal) (v : JsVal) :
  xs ≡ₚ ys → includes xs v = includes ys v.
Proof.
  intros Hperm. unfold includes. apply eq_true_iff_eq. rewrite !existsb_exists.
  split; intros (x & Hin & Hx); exists x; (split; [| done]);
    apply list_elem_of_In; apply list_elem_of_In in Hin;
    [by rewrite <- Hperm | by rewrite Hperm].
Qed.

(** A filter that no element passes gives the empty list. *)
Lemma filter_none {A : Type} (P : A → Prop) `{∀ x, Decision (P x)} (l : list A) :
  Forall (λ x, ¬ P x) l → filter P l = [].
Proof.
  induction 1 as [| x l Hx _ IH]; [done |]. by rewrite filter_cons_False.
Qed.

(** A store without orphans is left as it is. *)
Lemma cleanupOrphanedDocuments_clean (s : Db.Store) :
  StoreState.noOrphansb s = true → cleanupOrphanedDocuments s = Db.Ok (0, s).
Proof.
  unfold StoreState.noOrphansb, Db.getAllDocuments, Db.getAllTasks. intros Hclean.
  unfold cleanupOrphanedDocuments. rewrite filter_none.
  - cbn. by destruct s.
  - apply Forall_forall. intros d Hd. rewrite forallb_forall in Hclean.
    rewrite (Hclean d) by by apply list_elem_of_In. done.
Qed.

(** X6. On a store whose documents sit under their ids,
    [cleanupOrphanedDocuments] succeeds and keeps exactly the documents whose
    [taskId] is the id of a stored task; the number it returns is the number
    of documents it removed; tasks and settings are untouched; the result
    has no orphan, and cleaning it again removes nothing and returns 0. *)
Theorem cleanupOrphanedDocuments_removes_orphans (s : Db.Store) :
  StoreState.wellKeyed (Db.documents s) = true →
  ∃ n s',
    cleanupOrphanedDocuments s = Db.Ok (n, s')
    ∧ Db.documents s'
      = filter (λ kv, includes (map (getProp "id") (Db.getAllTasks s)) (kv.2).["taskId"] = true)
               (Db.documents s)
    ∧ n + size (Db.documents s') = size (Db.documents s)
    ∧ Db.tasks s' = Db.tasks s
    ∧ Db.settings s' = Db.settings s
    ∧ StoreState.noOrphansb s' = true
    ∧ cleanupOrphanedDocuments s' = Db.Ok (0, s').
Proof.
  intros Hkeyed.
  set (ids := map (getProp "id") (Db.getAllTasks s)).
  set (orphan := λ doc : JsVal, includes ids doc.["taskId"] = false).
  set (kept := filter (λ kv : string * JsVal, includes ids (kv.2).["taskId"] = true)
                      (Db.documents s)).
  set (gone := (filter (λ kv : string * JsVal, orphan kv.2) (map_to_list (Db.documents s))).*1).
  set (s' := {| Db.tasks := Db.tasks s; Db.settings := Db.settings s; Db.documents := kept |}).
  destruct (bulkDelete_strings gone (Db.documents s)) as (d & Hdelete & Hlookup).
  assert (d = kept) as ->.
  { apply map_eq. intros k. rewrite Hlookup. subst kept. rewrite map_lookup_filter.
    case_decide as Hin.
    - apply list_elem_of_fmap in Hin as ([k' v] & Hk & [Horphan Hin]%list_elem_of_filter).
      cbn in Hk. subst k'. apply elem_of_map_to_list in Hin as ->. cbn.
      unfold orphan in Horphan. cbn in Horphan.
      by rewrite option_guard_False by congruence.
    - destruct (Db.documents s !! k) as [v |] eqn:Hv; [| done]. cbn.
      rewrite option_guard_True; [done |]. cbn. apply not_false_is_true. intros Horphan.
      apply Hin. apply list_elem_of_fmap. exists (k, v). split; [done |].
      apply list_elem_of_filter. split; [done |]. by apply elem_of_map_to_list. }
  assert (length gone + size kept = size (Db.documents s)) as Hcount.
  { subst gone. rewrite length_fmap.
    rewrite <- (length_map_to_list (Db.documents s)), <- (length_map_to_list kept).
    subst kept. rewrite map_to_list_filter_perm.
    rewrite <- (filter_app_complement
                  (λ kv : string * JsVal, includes ids (kv.2).["taskId"] = true)
                  (map_to_list (Db.documents s))) at 3.
    rewrite length_app, Nat.add_comm. f_equal. f_equal.
    apply list_filter_iff. intros [k v]. unfold orphan. cbn.
    by destruct (includes ids v.["taskId"]). }
  assert (StoreState.noOrphansb s' = true) as Hclean.
  { unfold StoreState.noOrphansb, Db.getAllDocuments, Db.toArray. cbn.
    apply forallb_forall. intros v Hv. apply list_elem_of_In in Hv.
    apply list_elem_of_fmap in Hv as ([k v'] & -> & Hin).
    apply elem_of_map_to_list in Hin.
    by apply map_lookup_filter_Some in Hin as [_ Hin]. }
  assert (cleanupOrphanedDocuments s = Db.Ok (length gone, s')) as Hrun.
  { unfold cleanupOrphanedDocuments.
    replace (map (getProp "id")
               (filter (λ doc, includes (map (getProp "id") (Db.toArray (Db.tasks s)))
                                        doc.["taskId"] = false)
                       (Db.toArray (Db.documents s))))
      with (JStr <$> gone)
      by (symmetry;
          exact (ids_of_filter orphan (map_to_list (Db.documents s))
                               (λ k v, wellKeyed_lookup _ k v Hkeyed))).
    rewrite length_fmap. destruct gone as [| k0 gone0] eqn:Hgone.
    - cbn. subst s'. do 3 f_equal. apply map_eq. intros k. rewrite Hlookup.
      by case_decide as Hin; [apply elem_of_nil in Hin |].
    - cbn [length Nat.ltb Nat.leb]. by rewrite Hdelete. }
  exists (length gone), s'. split; [exact Hrun |]. split; [done |].
  split; [exact Hcount |]. split; [done |]. split; [done |]. split; [done |].
  by apply cleanupOrphanedDocuments_clean.
Qed.

End Cleanup.

Lemma cleanupOrphanedDocuments_removes_orphans_witness :
  Db.documents Fixtures.orphaned !! "d2" = Some (Fixtures.note "d2" "ghost")
  ∧ ∃ n s',
      ImportExport.cleanupOrphanedDocuments Fixtures.orphaned = Db.Ok (n, s')
      ∧ Db.documents s'
        = filter (λ kv, includes (map (getProp "id") (Db.getAllTasks Fixtures.orphaned))
                                 (kv.2).["taskId"] = true)
                 (Db.documents Fixtures.orphaned)
      ∧ n + size (Db.documents s') = size (Db.documents Fixtures.orphaned)
      ∧ Db.tasks s' = Db.tasks Fixtures.orphaned
      ∧ Db.settings s' = Db.settings Fixtures.orphaned
      ∧ StoreState.noOrphansb s' = true
      ∧ ImportExport.cleanupOrphanedDocuments s' = Db.Ok (0, s').
Proof.
  split; [reflexivity |].
  apply (cleanupOrphanedDocuments_removes_orphans Fixtures.orphaned).
  vm_compute; reflexivity.
Defined.

(** ** What a backup needs to be imported *)

Section Backups.
Context `{Platform}.
Import ImportExport.

(** A rejected value is reported with a reason. *)
Lemma validateImportData_error (v : JsVal) :
  valid (validateImportData v) = false →
  ∃ msg, error (validateImportData v) = Some msg ∧ msg ≠ "".
Proof.
  unfold validateImportData.
  destruct (negb (truthy v) || negb (isType TObject v)); [by eexists |].
  destruct (v.["version"]) as [| | b | n | s | xs | props]; try by eexists.
  destruct (PrimFloat.ltb EXPORT_VERSION n);
    [intros _; eexists; split; [done | apply versionTooNew_nonempty] |].
  destruct (negb (isArray v.["tasks"])); [by eexists |].
  destruct (forOf checkTask (elements v.["tasks"])) as [r |] eqn:Htasks.
  { apply forOf_Some in Htasks as (t & _ & Ht).
    apply checkTask_Some in Ht as (_ & msg & Hmsg & Hne & _). intros _. by exists msg. }
  destruct (negb (isArray v.["documents"])); [by eexists |].
  destruct (forOf checkDocument (elements v.["documents"])) as [r |] eqn:Hdocs.
  { apply forOf_Some in Hdocs as (d & _ & Hd).
    apply checkDocument_Some in Hd as (_ & msg & Hmsg & Hne & _). intros _. by exists msg. }
  destruct (negb (truthy v.["settings"]) || negb (isType TObject v.["settings"]));
    [by eexists |].
  destruct (negb (isType TObject v.["settings"].["columnById"])
            || isNull v.["settings"].["columnById"]); [by eexists |].
  destruct (negb (includes validViewModes v.["settings"].["viewMode"])); [by eexists |].
  discriminate.
Qed.

(** [parseError || !data] holds exactly when there is no data. *)
Lemma rejected_data (content : string) :
  SettingsMenu.rejected (parseImportFile content)
  = match data (parseImportFile content) with Some _ => false | None => true end.
Proof.
  unfold parseImportFile, SettingsMenu.rejected.
  destruct (JSON_parse content) as [v |]; [| done].
  destruct (valid (validateImportData v)) eqn:Hvalid; cbn; [done |].
  apply orb_true_r.
Qed.

(** X7. [parseImportFile] returns either data or a non-empty error message,
    never both and never neither: data only for a text that [JSON.parse]
    reads and the validator accepts, and then without an error.  So the
    test [parseError || !data] of the settings menu holds exactly when there
    is no data. *)
Theorem parseImportFile_data_or_error (content : string) :
  let r := parseImportFile content in
  match data r with
  | Some v => JSON_parse content = Some v
              ∧ validateImportData v = ok
              ∧ parseError r = None
  | None => ∃ msg, parseError r = Some msg ∧ msg ≠ ""
  end
  ∧ SettingsMenu.rejected r = match data r with Some _ => false | None => true end.
Proof.
  cbn zeta. split; [| apply rejected_data]. unfold parseImportFile.
  destruct (JSON_parse content) as [v |]; [| by eexists].
  destruct (valid (validateImportData v)) eqn:Hvalid; cbn.
  - split; [done |]. split; [| done]. by apply validateImportData_valid.
  - destruct (validateImportData_error v Hvalid) as (msg & Hmsg & Hne).
    rewrite Hmsg. by exists msg.
Qed.

(** What the importer reads off a validated backup. *)
Lemma validated_arrays (data : JsVal) :
  valid (validateImportData data) = true →
  data.["tasks"] = JArr (elements data.["tasks"])
  ∧ data.["documents"] = JArr (elements data.["documents"])
  ∧ nullish data.["settings"] = false
  ∧ (∀ t, t ∈ elements data.["tasks"] → ∃ k, t.["id"] = JStr k)
  ∧ (∀ d, d ∈ elements data.["documents"] → ∃ k, d.["id"] = JStr k).
Proof.
  intros Hvalid.
  pose proof (valid_holds data Contract.CheckTasks Hvalid) as Htasks.
  pose proof (valid_holds data Contract.CheckDocuments Hvalid) as Hdocs.
  pose proof (valid_holds data Contract.CheckSettings Hvalid) as Hsettings.
  cbn [Contract.holds] in Htasks, Hdocs, Hsettings.
  apply andb_true_iff in Htasks as [Htasks Htyped], Hdocs as [Hdocs Hdtyped].
  apply andb_true_iff in Hsettings as [[Hsettings _]%andb_true_iff _].
  rewrite forallb_forall in Htyped, Hdtyped.
  split; [by apply isArray_elements |]. split; [by apply isArray_elements |].
  split; [by destruct (data.["settings"]) |]. split.
  - intros t Hin. apply list_elem_of_In, Htyped in Hin. unfold Contract.hasTaskFields in Hin.
    rewrite !andb_true_iff in Hin. apply isType_string. tauto.
  - intros d Hin. apply list_elem_of_In, Hdtyped in Hin. unfold Contract.hasDocumentFields in Hin.
    rewrite !andb_true_iff in Hin. apply isType_string. tauto.
Qed.

(** On a validated backup [importAllData] is two [bulkAdd]s into empty
    tables and the two settings. *)
Lemma importAllData_bulkAdd (data : JsVal) (s : Db.Store) :
  valid (validateImportData data) = true →
  importAllData data s
  = match Db.bulkAdd (elements data.["tasks"]) ∅ with
    | Db.Err err => Db.Err err
    | Db.Ok t =>
      match Db.bulkAdd (validDocuments (elements data.["tasks"])
                                       (elements data.["documents"])) ∅ with
      | Db.Err err => Db.Err err
      | Db.Ok d =>
        Db.Ok {| Db.tasks := t; Db.documents := d;
                 Db.settings := <["viewMode" := data.["settings"].["viewMode"]]>
                                  (<["columnById" := data.["settings"].["columnById"]]> ∅) |}
      end
    end.
Proof.
  intros (Htasks & Hdocs & Hsettings & _)%validated_arrays. unfold importAllData.
  rewrite Htasks, Hdocs, Hsettings. cbn [elements]. unfold Db.clear.
  by rewrite !bulkAdd_guarded.
Qed.

(** Records with string ids have these strings as keys. *)
Lemma string_ids (rs : list JsVal) :
  (∀ r, r ∈ rs → ∃ k, r.["id"] = JStr k) →
  ∃ ks, getProp "id" <$> rs = JStr <$> ks ∧ Db.keyOf <$> rs = Some <$> ks.
Proof.
  induction rs as [| r rs IH]; intros Hids; [by exists [] |].
  destruct (Hids r) as [k Hk]; [by left |].
  destruct IH as (ks & Hks & Hkeys); [intros r' Hin; apply Hids; by right |].
  exists (k :: ks). cbn. rewrite Hks, Hkeys, Hk. split; [done |].
  unfold Db.keyOf. by rewrite Hk.
Qed.

(** On records with string ids, [bulkAdd] into an empty table succeeds
    exactly when no id is repeated, and fails with [ConstraintError] only. *)
Lemma bulkAdd_strings (rs : list JsVal) :
  (∀ r, r ∈ rs → ∃ k, r.["id"] = JStr k) →
  ((∃ t, Db.bulkAdd rs ∅ = Db.Ok t) ↔ NoDup (getProp "id" <$> rs))
  ∧ ∀ t err, Db.bulkAdd rs t = Db.Err err → err = Db.ConstraintError.
Proof.
  intros Hids. destruct (string_ids rs Hids) as (ks & Hks & Hkeys). split.
  - rewrite Hks. split.
    + intros [t Hadd]. destruct (bulkAdd_keys _ _ _ Hadd) as (ks' & Hks' & Hnodup & _).
      rewrite Hkeys in Hks'. apply (inj (fmap Some)) in Hks' as <-.
      apply NoDup_fmap; [| done]. by intros ?? [= ->].
    + intros Hnodup. apply NoDup_fmap in Hnodup; [| by intros ?? [= ->]].
      apply (bulkAdd_succeeds rs ∅ ks Hkeys Hnodup). intros k _. apply lookup_empty.
  - clear Hks. revert ks Hkeys. induction rs as [| r rs IH]; intros ks Hkeys t err; [done |].
    destruct ks as [| k ks]; [done |]. injection Hkeys as Hk Hrest.
    rewrite bulkAdd_cons. unfold Db.add. rewrite Hk.
    destruct (t !! k); [by intros [= <-] |].
    apply (IH (λ r' Hin, Hids r' (list_elem_of_further _ _ _ Hin)) ks Hrest).
Qed.

(** The documents the importer keeps. *)
Lemma validDocuments_subset (tasks documents : list JsVal) (d : JsVal) :
  d ∈ validDocuments tasks documents →
  d ∈ documents ∧ includes (map (getProp "id") tasks) d.["taskId"] = true.
Proof. unfold validDocuments. rewrite list_elem_of_filter. tauto. Qed.

(** X8. A validated backup imports exactly when no two of its tasks share
    an id and no two of the documents it keeps share an id (the documents it
    drops as orphans may repeat ids); an import of a validated backup that
    fails, fails with [ConstraintError]. *)
Theorem importAllData_succeeds_iff (data : JsVal) (s : Db.Store) :
  valid (validateImportData data) = true →
  let tasks := elements data.["tasks"] in
  let kept := validDocuments tasks (elements data.["documents"]) in
  ((∃ s', importAllData data s = Db.Ok s')
   ↔ NoDup (getProp "id" <$> tasks) ∧ NoDup (getProp "id" <$> kept))
  ∧ (∀ err, importAllData data s = Db.Err err → err = Db.ConstraintError).
Proof.
  intros Hvalid tasks kept. rewrite importAllData_bulkAdd by done. fold tasks. fold kept.
  destruct (validated_arrays data Hvalid) as (_ & _ & _ & Htids & Hdids).
  destruct (bulkAdd_strings tasks Htids) as [Htasks Hterr].
  destruct (bulkAdd_strings kept) as [Hkept Hkerr].
  { intros d [Hin _]%validDocuments_subset. by apply Hdids. }
  rewrite <- Htasks, <- Hkept. split.
  - split.
    + intros [s' Himport]. destruct (Db.bulkAdd tasks ∅) as [t |]; [| done].
      destruct (Db.bulkAdd kept ∅) as [d |]; [| done]. split; by eexists.
    + intros [[t ->] [d ->]]. by eexists.
  - intros err. destruct (Db.bulkAdd tasks ∅) as [t |] eqn:Ht.
    + destruct (Db.bulkAdd kept ∅) as [d |] eqn:Hd; [done |].
      intros [= <-]. by apply (Hkerr ∅).
    + intros [= <-]. by apply (Hterr ∅).
Qed.

(** An imported store has no orphan. *)
Lemma importAllData_noOrphansb (data : JsVal) (s s' : Db.Store) :
  valid (validateImportData data) = true →
  importAllData data s = Db.Ok s' → StoreState.noOrphansb s' = true.
Proof.
  intros Hvalid. rewrite importAllData_bulkAdd by done.
  destruct (Db.bulkAdd (elements data.["tasks"]) ∅) as [t |] eqn:Ht; [| done].
  destruct (Db.bulkAdd (validDocuments _ _) ∅) as [d |] eqn:Hd; [| done].
  intros [= <-]. unfold StoreState.noOrphansb, Db.getAllDocuments, Db.getAllTasks. cbn.
  apply bulkAdd_Permutation in Ht, Hd. unfold Db.toArray at 2 in Ht. unfold Db.toArray at 2 in Hd.
  rewrite map_to_list_empty, app_nil_r in Ht, Hd.
  apply forallb_forall. intros x Hx. apply list_elem_of_In in Hx.
  rewrite Hd in Hx. apply validDocuments_subset in Hx as [_ Hx].
  rewrite (includes_Permutation _ (map (getProp "id") (elements data.["tasks"])));
    [exact Hx |]. by rewrite Ht.
Qed.

(** X9. After a successful import of a validated backup,
    [cleanupOrphanedDocuments] finds nothing to remove: it returns 0 and
    leaves the store as imported. *)
Theorem cleanup_after_import (data : JsVal) (s s' : Db.Store) :
  valid (validateImportData data) = true →
  importAllData data s = Db.Ok s' →
  cleanupOrphanedDocuments s' = Db.Ok (0, s').
Proof.
  intros Hvalid Himport.
  by apply cleanupOrphanedDocuments_clean, (importAllData_noOrphansb data s).
Qed.

End Backups.

Lemma importAllData_succeeds_iff_witness :
  ((∃ s', ImportExport.importAllData Fixtures.backup Db.empty = Db.Ok s')
   ↔ NoDup (getProp "id" <$> elements Fixtures.backup.["tasks"])
     ∧ NoDup (getProp "id"
                <$> ImportExport.validDocuments (elements Fixtures.backup.["tasks"])
                                                (elements Fixtures.backup.["documents"])))
  ∧ (∀ err, ImportExport.importAllData Fixtures.backup Db.empty = Db.Err err
            → err = Db.ConstraintError).
Proof.
  apply (importAllData_succeeds_iff (H := Reference.platform) Fixtures.backup Db.empty).
  vm_compute; reflexivity.
Defined.

Lemma cleanup_after_import_witness :
  ImportExport.cleanupOrphanedDocuments Fixtures.imported = Db.Ok (0, Fixtures.imported).
Proof.
  apply (cleanup_after_import (H := Reference.platform) Fixtures.backup Db.empty
           Fixtures.imported); vm_compute; reflexivity.
Defined.

(** ** The import dialog *)

Section ImportFlow.
Context `{Platform}.
Import ImportExport SettingsMenu.

(** A table filled by [bulkAdd] has as many records as were added. *)
Lemma bulkAdd_size (rs : list JsVal) (t : gmap string JsVal) :
  Db.bulkAdd rs ∅ = Db.Ok t → size t = length rs.
Proof.
  intros Hadd%bulkAdd_Permutation. unfold Db.toArray in Hadd.
  rewrite map_to_list_empty, app_nil_r in Hadd.
  by rewrite <- (length_map_to_list t), <- Hadd, length_fmap.
Qed.

(** What [handleConfirmImport] does with a text that parses. *)
Lemma handleConfirmImport_parsed (m : State) (e : Env) (v : JsVal) :
  data (parseImportFile (String_trim (importText m))) = Some v →
  handleConfirmImport m e
  = match importAllData v (store e) with
    | Db.Ok s' =>
      ({| dialogMode := DialogNone; importText := ""; error := None;
          isLoading := false; pageReloaded := true |},
       {| clock := clock e; store := s'; importInProgress := true; issued := issued e |})
    | Db.Err _ =>
      ({| dialogMode := dialogMode m; importText := importText m;
          error := Some "Failed to import data. Please try again.";
          isLoading := false; pageReloaded := pageReloaded m |},
       setImportInProgress false e)
    end.
Proof.
  intros Hdata. unfold handleConfirmImport.
  rewrite rejected_data, Hdata. cbn [setImportInProgress store clock issued importInProgress].
  by destruct (importAllData v (store e)).
Qed.

(** A text without data leaves the environment alone. *)
Lemma handleConfirmImport_rejected (m : State) (e : Env) :
  data (parseImportFile (String_trim (importText m))) = None →
  (handleConfirmImport m e).2 = e
  ∧ pageReloaded (handleConfirmImport m e).1 = pageReloaded m.
Proof.
  intros Hdata. unfold handleConfirmImport.
  by rewrite rejected_data, Hdata.
Qed.

(** Data that [parseImportFile] returns passed validation. *)
Lemma parsed_valid (content : string) (v : JsVal) :
  data (parseImportFile content) = Some v → valid (validateImportData v) = true.
Proof.
  unfold parseImportFile. destruct (JSON_parse content) as [v' |]; [| done].
  destruct (valid (validateImportData v')) eqn:Hvalid; cbn; [| done]. by intros [= <-].
Qed.

(** X10. The preview of the import dialog counts the tasks and the
    documents of the backup as written, before the import drops orphans:
    when the preview accepts the pasted text and the confirmed import goes
    through, the store then holds exactly [taskCount] tasks and at most
    [documentCount] documents. *)
Theorem preview_counts_before_filtering (m : State) (shown : option ImportPreview) (e : Env) :
  dialogMode m = DialogImport →
  pageReloaded m = false →
  let previewed := handlePreviewImport m shown in
  let confirmed := handleConfirmImport previewed.1 e in
  dialogMode previewed.1 = DialogConfirmImport →
  pageReloaded confirmed.1 = true →
  ∃ preview,
    previewed.2 = Some preview
    ∧ size (Db.tasks (store confirmed.2)) = taskCount preview
    ∧ (size (Db.documents (store confirmed.2)) ≤ documentCount preview)%nat.
Proof.
  intros Hmode Hfresh previewed confirmed Hshown Hdone. subst confirmed previewed.
  unfold handlePreviewImport in *.
  destruct (String.eqb (String_trim (importText m)) "");
    [cbn in Hshown; congruence |].
  rewrite rejected_data in *.
  destruct (data (parseImportFile (String_trim (importText m)))) as [v |] eqn:Hdata;
    [| cbn in Hshown; congruence].
  cbn [fst snd] in *. eexists. split; [done |]. cbn [taskCount documentCount].
  rewrite (handleConfirmImport_parsed _ e v) in * by done.
  pose proof (parsed_valid _ _ Hdata) as Hvalid.
  rewrite importAllData_bulkAdd in * by done.
  destruct (Db.bulkAdd (elements v.["tasks"]) ∅) as [t |] eqn:Ht;
    [| cbn in Hdone; congruence].
  destruct (Db.bulkAdd (validDocuments _ _) ∅) as [d |] eqn:Hd;
    [| cbn in Hdone; congruence].
  cbn. rewrite (bulkAdd_size _ _ Ht), (bulkAdd_size _ _ Hd). split; [done |].
  apply length_filter.
Qed.

(** While the flag is set, the passing of time only ages the environment,
    and a timer that fires starts no save loop. *)
Lemma timersFire_suspended (dt : nat) (a : ItemList.App) :
  isImportInProgress (ItemList.env a) = true →
  ItemList.env (ItemList.timersFire dt a).1 = tick dt (ItemList.env a)
  ∧ (ItemList.timersFire dt a).2 = [].
Proof.
  intros Hflag. unfold ItemList.timersFire.
  pose proof (TaskStore_runTimers_suspended (tick dt (ItemList.env a)) (ItemList.taskStore a)
                Hflag) as Htask.
  destruct (TaskStore.runTimers _ _) as [e1 t1]. cbn in Htask. subst e1.
  destruct (due id _ _); [| done].
  unfold DocumentStore.saveTimerStarted. by rewrite isImportInProgress_tick, Hflag.
Qed.

(** After the import, what a run of timers and loop turns issues are saves
    of documents that the save loops under way still had to save. *)
Lemma play_suspended (saves : list DocumentRecord) (events : list AppRun.Event) :
  ∀ w : AppRun.World,
  isImportInProgress (ItemList.env (AppRun.app w)) = true →
  Forall (λ loop, loop ⊆ saves) (AppRun.loops w) →
  let after := AppRun.play events w in
  ∃ written,
    issued (ItemList.env (AppRun.app after))
    = (issued (ItemList.env (AppRun.app w)) ++ (OpSaveDocument <$> written))%list
    ∧ written ⊆ saves
    ∧ (written = [] → store (ItemList.env (AppRun.app after))
                      = store (ItemList.env (AppRun.app w))).
Proof.
  unfold AppRun.play.
  induction events as [| ev events IH]; intros w Hflag Hloops; cbn [foldl].
  { exists []. cbn. rewrite app_nil_r. split; [done |].
    split; [by intros x ?%elem_of_nil | done]. }
  destruct ev as [dt | i]; cbn [AppRun.react].
  - destruct (timersFire_suspended dt (AppRun.app w) Hflag) as [Henv Hrest].
    destruct (ItemList.timersFire dt (AppRun.app w)) as [a1 rest]. cbn [fst snd] in *.
    subst rest.
    destruct (IH {| AppRun.app := a1; AppRun.loops := AppRun.loops w ++ [[]] |})
      as (written & Hissued & Hsub & Hstore).
    + cbn. by rewrite Henv.
    + cbn. apply Forall_app. split; [done |]. apply Forall_singleton.
      by intros x ?%elem_of_nil.
    + exists written. cbn [AppRun.app] in *. rewrite Henv in *. by split; [| split].
  - destruct (AppRun.loops w !! i) as [loop |] eqn:Hi; [| by apply IH].
    pose proof (Forall_lookup_1 _ _ _ _ Hloops Hi) as Hloop.
    unfold ItemList.saveLoopResumes. destruct loop as [| doc rest]; cbn [DocumentStore.saveNext].
    + destruct (IH {| AppRun.app :=
                        {| ItemList.env := ItemList.env (AppRun.app w);
                           ItemList.taskStore := ItemList.taskStore (AppRun.app w);
                           ItemList.documentStore := ItemList.documentStore (AppRun.app w);
                           ItemList.editingItemId := ItemList.editingItemId (AppRun.app w) |};
                      AppRun.loops := <[i := []]> (AppRun.loops w) |})
        as (written & Hissued & Hsub & Hstore); [done | | by exists written].
      cbn. by rewrite list_insert_id.
    + destruct (IH {| AppRun.app :=
                        {| ItemList.env := perform (OpSaveDocument doc) (ItemList.env (AppRun.app w));
                           ItemList.taskStore := ItemList.taskStore (AppRun.app w);
                           ItemList.documentStore := ItemList.documentStore (AppRun.app w);
                           ItemList.editingItemId := ItemList.editingItemId (AppRun.app w) |};
                      AppRun.loops := <[i := rest]> (AppRun.loops w) |})
        as (written & Hissued & Hsub & Hstore); [done | |].
      { cbn. apply Forall_insert; [done |]. intros x Hx. apply Hloop. by right. }
      exists (doc :: written). cbn [AppRun.app ItemList.env perform issued] in *.
      split; [by rewrite Hissued, <- app_assoc |]. split; [| done].
      intros x [-> | Hx]%elem_of_cons; [apply Hloop; by left | by apply Hsub].
Qed.

(** X11. After [handleConfirmImport] went through, the store holds what
    [importAllData] made of the pasted text and [importInProgress] stays
    set.  From then until the page is reloaded no timer that fires issues a
    store call, whatever the two hooks had pending.  The flag is read when a
    timer callback starts, so a save loop that is under way is not stopped:
    the store calls issued after the import are saves of documents such
    loops still had to save, and when there is no such document nothing is
    issued and the store stays as imported. *)
Theorem imported_store_survives_timers (m : State) (e : Env) (t : TaskStore.State)
    (d : DocumentStore.State) (editing : option string)
    (loops : list (list DocumentRecord)) (later : list AppRun.Event) :
  pageReloaded m = false →
  pageReloaded (handleConfirmImport m e).1 = true →
  let e' := (handleConfirmImport m e).2 in
  let after := AppRun.play later
                 {| AppRun.app := {| ItemList.env := e'; ItemList.taskStore := t;
                                     ItemList.documentStore := d;
                                     ItemList.editingItemId := editing |};
                    AppRun.loops := loops |} in
  (∃ v, data (parseImportFile (String_trim (importText m))) = Some v
        ∧ importAllData v (store e) = Db.Ok (store e'))
  ∧ isImportInProgress e' = true
  ∧ issued e' = issued e
  ∧ (∃ written, newlyIssued e' (ItemList.env (AppRun.app after)) = OpSaveDocument <$> written
                ∧ written ⊆ concat loops)
  ∧ (concat loops = [] →
     store (ItemList.env (AppRun.app after)) = store e'
     ∧ issued (ItemList.env (AppRun.app after)) = issued e).
Proof.
  intros Hfresh Hdone e' after.
  destruct (data (parseImportFile (String_trim (importText m)))) as [v |] eqn:Hdata.
  2: { destruct (handleConfirmImport_rejected m e Hdata) as [_ Hsame]. congruence. }
  subst after e'. rewrite (handleConfirmImport_parsed m e v Hdata) in *.
  destruct (importAllData v (store e)) as [s' |] eqn:Himport; [| cbn in Hdone; congruence].
  cbn [fst snd store]. split; [by exists v |]. split; [done |]. split; [done |].
  set (w := {| AppRun.app := _ |}).
  destruct (play_suspended (concat loops) later w) as (written & Hissued & Hsub & Hstore).
  { done. }
  { apply Forall_forall. intros loop Hin doc Hdoc.
    apply list_elem_of_In, in_concat. exists loop. by rewrite <- !list_elem_of_In. }
  cbn zeta in *. split.
  - exists written. split; [| done]. unfold newlyIssued. rewrite Hissued. cbn.
    by rewrite drop_app_length.
  - intros Hnone. rewrite Hnone in Hsub.
    assert (written = []) as ->.
    { destruct written as [| doc ?]; [done |].
      exfalso. apply (elem_of_nil doc), Hsub. by left. }
    rewrite Hissued, Hstore by done. cbn. by rewrite app_nil_r.
Qed.

(** X12. When the pasted text is accepted but the import fails, the store
    is as before and no store call was issued, the dialog stays as it was,
    with the failure message, and [importInProgress] is cleared, also when
    it was set before: a timer of the document hook that comes due
    afterwards writes its pending saves. *)
Theorem failed_import_resumes_saving (m : State) (e : Env) (v : JsVal) (err : Db.Error)
    (d : DocumentStore.State) (dt : nat) :
  data (parseImportFile (String_trim (importText m))) = Some v →
  importAllData v (store e) = Db.Err err →
  due id (DocumentStore.saveTimeout d) (clock e + dt) = true →
  let r := handleConfirmImport m e in
  store r.2 = store e
  ∧ issued r.2 = issued e
  ∧ isImportInProgress r.2 = false
  ∧ error r.1 = Some "Failed to import data. Please try again."
  ∧ dialogMode r.1 = dialogMode m
  ∧ pageReloaded r.1 = pageReloaded m
  ∧ newlyIssued r.2 (DocumentStore.advance dt r.2 d).1
    = OpSaveDocument <$> DocumentStore.mapValues (DocumentStore.pendingSaves d).
Proof.
  intros Hdata Himport Hdue. cbn zeta.
  rewrite (handleConfirmImport_parsed m e v Hdata), Himport. cbn [fst snd].
  do 6 (split; [done |]).
  unfold DocumentStore.advance, DocumentStore.runTimers. rewrite saveTimerFired_eq.
  cbn [tick setImportInProgress clock isImportInProgress importInProgress].
  rewrite Hdue. cbn [fst]. unfold newlyIssued. rewrite saveAll_issued.
  cbn [issued]. by rewrite drop_app_length.
Qed.

End ImportFlow.

Lemma preview_counts_before_filtering_witness :
  (SettingsMenu.handlePreviewImport (H := Reference.platform)
     (Fixtures.pasted Fixtures.orphanedText) None).2
  = Some {| SettingsMenu.taskCount := 1; SettingsMenu.documentCount := 2 |}
  ∧ ∃ preview,
      (SettingsMenu.handlePreviewImport (H := Reference.platform)
         (Fixtures.pasted Fixtures.orphanedText) None).2 = Some preview
      ∧ size (Db.tasks (store (SettingsMenu.handleConfirmImport (H := Reference.platform)
                                 (SettingsMenu.handlePreviewImport (H := Reference.platform)
                                    (Fixtures.pasted Fixtures.orphanedText) None).1
                                 Fixtures.idle).2))
        = SettingsMenu.taskCount preview
      ∧ (size (Db.documents (store (SettingsMenu.handleConfirmImport (H := Reference.platform)
                                      (SettingsMenu.handlePreviewImport (H := Reference.platform)
                                         (Fixtures.pasted Fixtures.orphanedText) None).1
                                      Fixtures.idle).2))
         ≤ SettingsMenu.documentCount preview)%nat.
Proof.
  split; [vm_compute; reflexivity |].
  apply (preview_counts_before_filtering (H := Reference.platform)
           (Fixtures.pasted Fixtures.orphanedText) None Fixtures.idle);
    vm_compute; reflexivity.
Defined.

Lemma imported_store_survives_timers_witness :
  let e' := (SettingsMenu.handleConfirmImport (H := Reference.platform)
               (Fixtures.menu Fixtures.orphanedText) Fixtures.idle).2 in
  let after := AppRun.play
                 [ AppRun.Elapses 300; AppRun.LoopResumes 0; AppRun.Elapses 300 ]
                 {| AppRun.app := {| ItemList.env := e'; ItemList.taskStore := Fixtures.renaming;
                                     ItemList.documentStore := Fixtures.editing;
                                     ItemList.editingItemId := None |};
                    AppRun.loops := [ [ Fixtures.doc "d3" "t1" "other" ] ] |} in
  isImportInProgress e' = true
  ∧ newlyIssued e' (ItemList.env (AppRun.app after))
    = [ OpSaveDocument (Fixtures.doc "d3" "t1" "other") ]
  ∧ ∃ written, newlyIssued e' (ItemList.env (AppRun.app after)) = OpSaveDocument <$> written
               ∧ written ⊆ [ Fixtures.doc "d3" "t1" "other" ].
Proof.
  destruct (imported_store_survives_timers (H := Reference.platform)
              (Fixtures.menu Fixtures.orphanedText) Fixtures.idle Fixtures.renaming
              Fixtures.editing None [ [ Fixtures.doc "d3" "t1" "other" ] ]
              [ AppRun.Elapses 300; AppRun.LoopResumes 0; AppRun.Elapses 300 ])
    as (_ & Hflag & _ & Hwritten & _); [vm_compute; reflexivity | vm_compute; reflexivity |].
  split; [exact Hflag |]. split; [vm_compute; reflexivity | exact Hwritten].
Defined.

Lemma failed_import_resumes_saving_witness :
  let r := SettingsMenu.handleConfirmImport (H := Reference.platform)
             (Fixtures.menu Fixtures.repeatedText) Fixtures.suspended in
  isImportInProgress Fixtures.suspended = true
  ∧ store r.2 = store Fixtures.suspended
  ∧ isImportInProgress r.2 = false
  ∧ SettingsMenu.error r.1 = Some "Failed to import data. Please try again."
  ∧ newlyIssued r.2 (DocumentStore.advance 300 r.2 Fixtures.editing).1
    = [ OpSaveDocument (Fixtures.doc "d1" "t1" "edited") ].
Proof.
  split; [reflexivity |].
  destruct (failed_import_resumes_saving (H := Reference.platform)
              (Fixtures.menu Fixtures.repeatedText) Fixtures.suspended Fixtures.repeated
              Db.ConstraintError Fixtures.editing 300)
    as (Hstore & _ & Hflag & Herror & _ & _ & Hsaves); try (vm_compute; reflexivity).
  split; [exact Hstore |]. split; [exact Hflag |]. split; [exact Herror |]. exact Hsaves.
Defined.

(** ** The document hook and the store *)




Section Mirror.
Import DocumentStore.

(** The saves of a timer callback or a flush put each document under its
    id and leave the flag alone. *)
Lemma saveAll_documents (saves : list DocumentRecord) :
  ∀ e, Db.documents (store (saveAll saves e))
       = foldl (λ m doc, <[doc_id doc := documentToJs doc]> m) (Db.documents (store e)) saves
       ∧ importInProgress (saveAll saves e) = importInProgress e.
Proof.
  unfold saveAll. induction saves as [| doc saves IH]; intros e; [done |].
  cbn [foldl]. destruct (IH (perform (OpSaveDocument doc) e)) as [-> ->]. done.
Qed.

(** Two elements of a list without repeated images that have the same image
    are the same element. *)
Lemma NoDup_fmap_eq {A B : Type} (f : A → B) (l : list A) (x y : A) :
  NoDup (f <$> l) → x ∈ l → y ∈ l → f x = f y → x = y.
Proof.
  induction l as [| z l IH]; cbn; [by intros _ ?%elem_of_nil |].
  intros [Hfresh Hnodup]%NoDup_cons [-> | Hx]%elem_of_cons [-> | Hy]%elem_of_cons Heq;
    try done.
  - exfalso. apply Hfresh. rewrite Heq. by apply list_elem_of_fmap_2.
  - exfalso. apply Hfresh. rewrite <- Heq. by apply list_elem_of_fmap_2.
  - by apply IH.
Qed.

(** Where a record of the table comes from after a series of puts. *)
Lemma puts_lookup (saves : list DocumentRecord) :
  ∀ (m : gmap string JsVal) k v,
  foldl (λ m doc, <[doc_id doc := documentToJs doc]> m) m saves !! k = Some v →
  m !! k = Some v ∨ ∃ doc, doc ∈ saves ∧ doc_id doc = k ∧ v = documentToJs doc.
Proof.
  induction saves as [| doc saves IH]; intros m k v; cbn [foldl]; [by left |].
  intros [Hk | (doc' & Hin & Hid & Hv)]%IH.
  - destruct (decide (doc_id doc = k)) as [<- | Hne].
    + rewrite lookup_insert_eq in Hk. injection Hk as <-. right. exists doc.
      split; [by left | done].
    + rewrite lookup_insert_ne in Hk by done. by left.
  - right. exists doc'. split; [by right | done].
Qed.

(** A document that is saved, or was stored and is the only one saved under
    its id, is stored afterwards. *)
Lemma puts_stored (saves : list DocumentRecord) (doc0 : DocumentRecord) :
  (∀ doc, doc ∈ saves → doc_id doc = doc_id doc0 → doc = doc0) →
  ∀ m : gmap string JsVal,
  doc0 ∈ saves ∨ m !! doc_id doc0 = Some (documentToJs doc0) →
  foldl (λ m doc, <[doc_id doc := documentToJs doc]> m) m saves !! doc_id doc0
  = Some (documentToJs doc0).
Proof.
  induction saves as [| doc saves IH]; intros Honly m; cbn [foldl].
  - intros [Hin | Hm]; [by apply elem_of_nil in Hin | done].
  - intros Hcase. apply IH; [intros doc' Hin; apply Honly; by right |].
    destruct (decide (doc_id doc = doc_id doc0)) as [Heq | Hne].
    + right. rewrite (Honly doc) by (done || by left). apply lookup_insert_eq.
    + destruct Hcase as [[-> | Hin]%elem_of_cons | Hm]; [done | by left |].
      right. by rewrite lookup_insert_ne.
Qed.

(** [Map.prototype.set] keeps the entries of the other keys... *)
Lemma mapSet_other (k k' : string) (v v' : DocumentRecord)
    (m : list (string * DocumentRecord)) :
  k' ≠ k → (k', v') ∈ m → (k', v') ∈ mapSet k v m.
Proof.
  intros Hne. induction m as [| [k0 v0] m IH]; cbn; [by intros ?%elem_of_nil |].
  destruct (String.eqb_spec k0 k) as [-> | Hk0].
  - intros [[= -> ->] | Hin]%elem_of_cons; [done | by right].
  - intros [-> | Hin]%elem_of_cons; [by left | right; by apply IH].
Qed.

(** ... and replaces the entry of its own key. *)
Lemma mapSet_replaces (x k : string) (y v : DocumentRecord)
    (m : list (string * DocumentRecord)) :
  NoDup m.*1 → (x, y) ∈ mapSet k v m → (x, y) = (k, v) ∨ (x ≠ k ∧ (x, y) ∈ m).
Proof.
  induction m as [| [k0 v0] m IH]; cbn.
  - intros _ ->%list_elem_of_singleton. by left.
  - intros [Hfresh Hnodup]%NoDup_cons. destruct (String.eqb_spec k0 k) as [-> | Hk0].
    + intros [-> | Hin]%elem_of_cons; [by left |]. right. split; [| by right].
      intros ->. apply Hfresh. by apply (list_elem_of_fmap_2 fst) in Hin.
    + intros [[= -> ->] | Hin]%elem_of_cons; [right; split; [done | by left] |].
      destruct (IH Hnodup Hin) as [-> | [Hne Hin']]; [by left |].
      right. split; [done | by right].
Qed.

(** Deleting from the pending map repeats no key. *)
Lemma mapDelete_NoDup (k : string) (m : list (string * DocumentRecord)) :
  NoDup m.*1 → NoDup (mapDelete k m).*1.
Proof.
  intros Hnodup. apply (sublist_NoDup _ _ Hnodup). apply fmap_sublist, sublist_filter.
Qed.

Lemma cancelled_NoDup (docs : list DocumentRecord) :
  ∀ m, NoDup m.*1 → NoDup (foldl (λ m doc, mapDelete (doc_id doc) m) m docs).*1.
Proof.
  induction docs as [| doc docs IH]; intros m Hnodup; [done |].
  cbn. by apply IH, mapDelete_NoDup.
Qed.

(** Writing the pending saves keeps hook and store in agreement, with
    nothing pending. *)
Lemma written_synced (e : Env) (h : State) :
  DocumentRun.synced (e, h) →
  DocumentRun.synced (saveAll (mapValues (pendingSaves h)) e,
          {| documents := documents h; pendingSaves := []; saveTimeout := None |}).
Proof.
  intros (Hids & Hkeys & Hstored & Hmemory & Hpending). cbn [fst snd] in *.
  unfold DocumentRun.synced. cbn [fst snd documents pendingSaves].
  destruct (saveAll_documents (mapValues (pendingSaves h)) e) as [-> _].
  assert (∀ doc, doc ∈ mapValues (pendingSaves h) → doc ∈ documents h) as Hsaved.
  { intros doc ([k doc'] & -> & Hin)%list_elem_of_fmap. by apply (Hpending k). }
  split; [done |]. split; [constructor |]. split; [| split].
  - intros k v [Hold | (doc & Hin & Hid & ->)]%puts_lookup; [by apply Hstored |].
    exists doc. split; [by apply Hsaved |]. done.
  - intros doc Hin. right. apply puts_stored.
    + intros doc' Hin' Hid. apply (NoDup_fmap_eq doc_id (documents h)); try done.
      by apply Hsaved.
    + destruct (Hmemory doc Hin) as [Hp | Hs]; [left | by right].
      by apply (list_elem_of_fmap_2 snd) in Hp.
  - by intros k doc ?%elem_of_nil.
Qed.

(** Filing a save for [doc] keeps hook and store in agreement, when [docs]
    are the documents of [h] with [doc] added or put in the place of the
    document with its id. *)
Lemma scheduled_synced (e : Env) (docs : list DocumentRecord) (h : State)
    (doc : DocumentRecord) :
  NoDup (doc_id <$> docs) →
  doc ∈ docs →
  (∀ old, old ∈ documents h → doc_id old ≠ doc_id doc → old ∈ docs) →
  (∀ new, new ∈ docs → new = doc ∨ (new ∈ documents h ∧ doc_id new ≠ doc_id doc)) →
  (∀ old, old ∈ documents h →
          ∃ new, new ∈ docs ∧ doc_id new = doc_id old ∧ doc_taskId new = doc_taskId old) →
  DocumentRun.synced (e, h) →
  DocumentRun.synced (e, scheduleSave doc e
               {| documents := docs; pendingSaves := pendingSaves h;
                  saveTimeout := saveTimeout h |}).
Proof.
  intros Hnodup Hdoc Hkept Hnew Hversions (Hids & Hkeys & Hstored & Hmemory & Hpending).
  cbn [fst snd] in *. unfold DocumentRun.synced.
  cbn [fst snd scheduleSave documents pendingSaves].
  split; [done |]. split; [by apply mapSet_NoDup |]. split; [| split].
  - intros k v (old & Hold & Hid & Htask)%Hstored.
    destruct (Hversions old Hold) as (new & Hin & Hsame & Hsametask).
    exists new. split; [done |]. split; [congruence |]. by rewrite Hsametask.
  - intros new [-> | [Hold Hne]]%Hnew; [left; apply mapSet_elem |].
    destruct (Hmemory new Hold) as [Hp | Hs]; [left | by right].
    by apply mapSet_other.
  - intros k p [[= -> ->] | [Hne Hin]]%mapSet_replaces; [done | | done].
    destruct (Hpending k p Hin) as [Hp <-]. split; [| done]. by apply Hkept.
Qed.

(** The test of [usesFreshId], as a proposition. *)
Lemma fresh_id (newId : string) (docs : list DocumentRecord) :
  negb (existsb (λ doc, String.eqb (doc_id doc) newId) docs) = true →
  ∀ doc, doc ∈ docs → doc_id doc ≠ newId.
Proof.
  intros Hfresh doc Hin Hid. apply negb_true_iff in Hfresh.
  apply not_true_iff_false in Hfresh. apply Hfresh, existsb_exists.
  exists doc. split; [by apply list_elem_of_In | by apply String.eqb_eq].
Qed.

Lemma addDocument_synced (newId : string) (now : float) (taskId title : string)
    (e : Env) (h : State) :
  (∀ doc, doc ∈ documents h → doc_id doc ≠ newId) →
  DocumentRun.synced (e, h) → DocumentRun.synced (e, (addDocument newId now taskId title e h).2).
Proof.
  intros Hfresh Hsynced. pose proof Hsynced as (Hids & _). cbn [fst snd] in Hids.
  unfold addDocument. cbn [snd]. apply scheduled_synced; try done.
  - rewrite fmap_app. apply NoDup_app. split; [done |]. split; [| apply NoDup_singleton].
    intros k (doc & Hk & Hin)%list_elem_of_fmap Hnew%list_elem_of_singleton.
    cbn in Hnew. apply (Hfresh doc Hin). congruence.
  - apply elem_of_app. right. by left.
  - intros old Hold _. apply elem_of_app. by left.
  - intros new [Hold | ->%list_elem_of_singleton]%elem_of_app; [| by left].
    right. split; [done |]. by apply Hfresh.
  - intros old Hold. exists old. split; [apply elem_of_app; by left | done].
Qed.

(** The documents [updateDocument] hands to [scheduleSave]. *)
Lemma updated_one (id : string) (docs : list DocumentRecord) :
  NoDup (doc_id <$> docs) →
  filter (λ doc, doc_id doc = id) docs = []
  ∨ ∃ doc, filter (λ doc, doc_id doc = id) docs = [doc].
Proof.
  induction docs as [| doc docs IH]; [by left |]. rewrite fmap_cons.
  intros [Hfresh Hnodup]%NoDup_cons. destruct (decide (doc_id doc = id)) as [Hid | Hne].
  - right. exists doc. rewrite filter_cons_True by done. f_equal.
    apply filter_none, Forall_forall. intros doc' Hin Hid'. apply Hfresh.
    rewrite Hid, <- Hid'. by apply list_elem_of_fmap_2.
  - rewrite filter_cons_False by done. by apply IH.
Qed.

Lemma updateDocument_synced (id : string) (updates : Updates) (now : float)
    (e : Env) (h : State) :
  DocumentRun.synced (e, h) → DocumentRun.synced (e, updateDocument id updates now e h).
Proof.
  intros Hsynced. pose proof Hsynced as (Hids & _). cbn [fst snd] in Hids.
  unfold updateDocument.
  set (upd := λ doc, if String.eqb (doc_id doc) id then applyUpdates updates now doc else doc).
  assert (∀ doc, doc_id (upd doc) = doc_id doc ∧ doc_taskId (upd doc) = doc_taskId doc)
    as Hupd by by intros doc; unfold upd; destruct (String.eqb (doc_id doc) id).
  assert (doc_id <$> map upd (documents h) = doc_id <$> documents h) as Hsame.
  { rewrite <- list_fmap_compose. apply list_fmap_ext. intros _ doc _. apply Hupd. }
  destruct (updated_one id (map upd (documents h))) as [Hnone | [doc Hone]];
    [by rewrite Hsame | |].
  - rewrite Hnone. cbn [foldl].
    assert (map upd (documents h) = documents h) as ->; [| by destruct h].
    rewrite <- (list_fmap_id (documents h)) at 2. apply list_fmap_ext.
    intros _ doc Hin%list_elem_of_lookup_2. unfold upd.
    destruct (String.eqb_spec (doc_id doc) id) as [Hid | Hne]; [| done]. exfalso.
    assert (upd doc ∈ filter (λ doc, doc_id doc = id) (map upd (documents h))) as Hin'.
    { apply list_elem_of_filter. split; [by rewrite (proj1 (Hupd doc)) |].
      by apply list_elem_of_fmap_2. }
    rewrite Hnone in Hin'. by apply elem_of_nil in Hin'.
  - rewrite Hone. cbn [foldl].
    assert (doc ∈ map upd (documents h) ∧ doc_id doc = id) as [Hdoc Hid].
    { assert (doc ∈ filter (λ doc, doc_id doc = id) (map upd (documents h))) as Hin
        by (rewrite Hone; by left).
      apply list_elem_of_filter in Hin. tauto. }
    apply scheduled_synced; try done.
    + by rewrite Hsame.
    + intros old Hold Hne. replace old with (upd old); [by apply list_elem_of_fmap_2 |].
      unfold upd. destruct (String.eqb_spec (doc_id old) id) as [Heq | _]; [| done].
      congruence.
    + intros new (old & -> & Hold)%list_elem_of_fmap.
      destruct (decide (doc_id old = id)) as [Heq | Hne].
      * left. apply (NoDup_fmap_eq doc_id (map upd (documents h))).
        -- by rewrite Hsame.
        -- by apply list_elem_of_fmap_2.
        -- done.
        -- rewrite (proj1 (Hupd old)). congruence.
      * right. unfold upd. apply String.eqb_neq in Hne as Hne'. rewrite Hne'.
        split; [done | congruence].
    + intros old Hold. exists (upd old). split; [by apply list_elem_of_fmap_2 |].
      apply Hupd.
Qed.

Lemma deleteDocument_synced (id : string) (e : Env) (h : State) :
  DocumentRun.synced (e, h) → DocumentRun.synced (deleteDocument id e h).
Proof.
  intros (Hids & Hkeys & Hstored & Hmemory & Hpending). cbn [fst snd] in *.
  unfold DocumentRun.synced, deleteDocument.
  cbn [fst snd documents pendingSaves perform store applyOp Db.deleteDocument Db.documents].
  split; [| split; [| split; [| split]]].
  - apply (sublist_NoDup _ _ Hids), fmap_sublist, sublist_filter.
  - by apply mapDelete_NoDup.
  - intros k v [Hne Hk]%lookup_delete_Some.
    destruct (Hstored k v Hk) as (doc & Hin & Hid & Htask).
    exists doc. split; [| done]. apply list_elem_of_filter. split; [congruence | done].
  - intros doc [Hne Hin]%list_elem_of_filter.
    destruct (Hmemory doc Hin) as [Hp | Hs]; [left; by apply mapDelete_elem |].
    right. by rewrite lookup_delete_ne.
  - intros k doc [Hin Hne]%mapDelete_elem. destruct (Hpending k doc Hin) as [Hdoc <-].
    split; [| done]. apply list_elem_of_filter. by split.
Qed.

Lemma deleteDocumentsByTaskId_synced (taskId : string) (e : Env) (h : State) :
  DocumentRun.synced (e, h) → DocumentRun.synced (deleteDocumentsByTaskId taskId e h).
Proof.
  intros (Hids & Hkeys & Hstored & Hmemory & Hpending). cbn [fst snd] in *.
  unfold DocumentRun.synced, deleteDocumentsByTaskId.
  cbn [fst snd documents pendingSaves perform store applyOp Db.deleteDocumentsByTaskId
       Db.documents].
  split; [| split; [| split; [| split]]].
  - apply (sublist_NoDup _ _ Hids), fmap_sublist, sublist_filter.
  - by apply cancelled_NoDup.
  - intros k v [Hk Hother]%map_lookup_filter_Some. cbn in Hother.
    destruct (Hstored k v Hk) as (doc & Hin & Hid & Htask).
    exists doc. split; [| done]. apply list_elem_of_filter. split; [| done].
    intros Heq. rewrite Htask, Heq in Hother. cbn in Hother.
    by rewrite String.eqb_refl in Hother.
  - intros doc [Hne Hin]%list_elem_of_filter.
    destruct (Hmemory doc Hin) as [Hp | Hs].
    + left. apply cancelled_elem. split; [done |].
      intros doc' [Htask Hin']%list_elem_of_filter Hid.
      apply Hne. rewrite <- Htask. f_equal.
      by apply (NoDup_fmap_eq doc_id (documents h)).
    + right. apply map_lookup_filter_Some. split; [done |]. cbn.
      by apply String.eqb_neq.
  - intros k doc [Hin Hkept]%cancelled_elem. destruct (Hpending k doc Hin) as [Hdoc <-].
    split; [| done]. apply list_elem_of_filter. split; [| done].
    intros Htask. apply (Hkept doc); [| done]. apply list_elem_of_filter. by split.
Qed.

(** With no import in progress every step of the hook keeps it in agreement
    with the store. *)
Lemma step_synced (a : DocumentRun.Action) (w : Env * State) :
  isImportInProgress w.1 = false →
  DocumentRun.usesFreshId a w.2 = true →
  DocumentRun.synced w →
  DocumentRun.synced (DocumentRun.step a w) ∧ isImportInProgress (DocumentRun.step a w).1 = false.
Proof.
  destruct w as [e h]. cbn [fst snd]. intros Hflag Hfresh Hsynced.
  destruct a as [newId now taskId title | id updates now | id | taskId | | dt];
    cbn [DocumentRun.step DocumentRun.usesFreshId fst snd] in *.
  - split; [| done]. apply addDocument_synced; [by apply fresh_id | done].
  - split; [| done]. by apply updateDocument_synced.
  - split; [by apply deleteDocument_synced | done].
  - split; [by apply deleteDocumentsByTaskId_synced | done].
  - rewrite flushPendingSaves_eq. split; [by apply written_synced |].
    cbn [fst]. unfold isImportInProgress.
    by rewrite (proj2 (saveAll_documents _ _)).
  - unfold advance, runTimers. rewrite saveTimerFired_eq.
    rewrite isImportInProgress_tick, Hflag.
    assert (DocumentRun.synced (tick dt e, h)) as Hticked by done.
    destruct (due id (saveTimeout h) (clock (tick dt e))); [| done].
    split; [by apply written_synced |]. cbn [fst]. unfold isImportInProgress.
    by rewrite (proj2 (saveAll_documents _ _)).
Qed.

Lemma run_synced (actions : list DocumentRun.Action) :
  ∀ w, isImportInProgress w.1 = false →
       DocumentRun.freshRun actions w = true →
       DocumentRun.synced w →
       DocumentRun.synced (DocumentRun.run actions w)
       ∧ isImportInProgress (DocumentRun.run actions w).1 = false.
Proof.
  unfold DocumentRun.run.
  induction actions as [| a actions IH]; intros w Hflag Hfresh Hsynced; [done |].
  cbn [DocumentRun.freshRun] in Hfresh. apply andb_true_iff in Hfresh as [Ha Hrest].
  destruct (step_synced a w Hflag Ha Hsynced) as [Hnext Hflag'].
  cbn [foldl]. by apply IH.
Qed.

(** A hook without pending saves that agrees with the store mirrors it. *)
Lemma synced_mirror (e : Env) (h : State) :
  DocumentRun.synced (e, h) → pendingSaves h = [] → Db.documents (store e) = DocumentRun.mirror h.
Proof.
  intros (Hids & _ & Hstored & Hmemory & _) Hnone. cbn [fst snd] in *.
  unfold DocumentRun.mirror. apply map_eq. intros k.
  set (l := map (λ doc, (doc_id doc, documentToJs doc)) (documents h)).
  assert (NoDup l.*1) as Hnodup.
  { subst l. by rewrite <- list_fmap_compose. }
  destruct (Db.documents (store e) !! k) as [v |] eqn:Hk.
  - symmetry. apply elem_of_list_to_map; [done |].
    destruct (Hstored k v Hk) as (doc & Hin & <- & _).
    destruct (Hmemory doc Hin) as [Hp | Hs]; [rewrite Hnone in Hp; by apply elem_of_nil in Hp |].
    assert (v = documentToJs doc) as -> by congruence.
    subst l. apply list_elem_of_fmap. by exists doc.
  - symmetry. apply not_elem_of_list_to_map_1.
    intros ([k' v] & Hk' & (doc & [= -> ->] & Hin)%list_elem_of_fmap)%list_elem_of_fmap.
    cbn in Hk'. subst k.
    destruct (Hmemory doc Hin) as [Hp | Hs]; [rewrite Hnone in Hp; by apply elem_of_nil in Hp |].
    congruence.
Qed.

(** A hook hydrated from the store agrees with it. *)
Lemma hydrated_synced (e : Env) (docs : list DocumentRecord) :
  NoDup (doc_id <$> docs) →
  Db.documents (store e) = DocumentRun.mirror (DocumentRun.hydrated docs) →
  DocumentRun.synced (e, DocumentRun.hydrated docs).
Proof.
  intros Hnodup Hstore. unfold DocumentRun.synced. cbn [fst snd DocumentRun.hydrated documents pendingSaves].
  rewrite Hstore. unfold DocumentRun.mirror. cbn [DocumentRun.hydrated documents].
  set (l := map (λ doc, (doc_id doc, documentToJs doc)) docs).
  assert (NoDup l.*1) as Hkeys by (subst l; by rewrite <- list_fmap_compose).
  split; [done |]. split; [constructor |]. split; [| split].
  - intros k v Hk. apply elem_of_list_to_map in Hk; [| done].
    apply list_elem_of_fmap in Hk as (doc & [= -> ->] & Hin). by exists doc.
  - intros doc Hin. right. apply elem_of_list_to_map; [done |].
    apply list_elem_of_fmap. by exists doc.
  - by intros k doc ?%elem_of_nil.
Qed.

Lemma concat_empties {A : Type} (l : list (list A)) :
  Forall (λ x, x = []) l → concat l = [].
Proof. induction 1 as [| x l -> _ IH]; [done |]. exact IH. Qed.

Lemma settled_spec (w : DocumentRun.World) :
  DocumentRun.settled w = true ↔ Forall (λ saves, saves = []) (DocumentRun.loops w).
Proof.
  unfold DocumentRun.settled. rewrite forallb_forall, Forall_forall.
  split; intros Hall saves Hin.
  - apply list_elem_of_In, Hall in Hin. by destruct saves.
  - apply list_elem_of_In, Hall in Hin. by subst saves.
Qed.

Lemma waiting_concat (saves : list DocumentRecord) (loops : list (list DocumentRecord)) :
  DocumentRun.waiting saves loops → concat loops = saves.
Proof.
  intros [[-> ->] | (before & after & -> & Hbefore & Hafter)]; [done |].
  rewrite concat_app, concat_cons, (concat_empties before), (concat_empties after) by done.
  apply app_nil_r.
Qed.

(** A loop started when none was waiting is the one loop under way. *)
Lemma waiting_started (rest : list DocumentRecord) (loops : list (list DocumentRecord)) :
  Forall (λ saves, saves = []) loops → DocumentRun.waiting rest (loops ++ [rest]).
Proof. intros Hloops. right. exists loops, []. by split; [| split]. Qed.

Lemma waiting_none (saves : list DocumentRecord) (loops : list (list DocumentRecord)) :
  Forall (λ l, l = []) loops → DocumentRun.waiting saves loops → saves = [].
Proof.
  intros Hloops Hwaiting. rewrite <- (waiting_concat saves loops Hwaiting).
  by apply concat_empties.
Qed.

(** The turn of a loop: a loop with nothing left does nothing, and the one
    loop under way saves its next document. *)
Lemma waiting_resume (saves x : list DocumentRecord) (loops : list (list DocumentRecord))
    (i : nat) :
  DocumentRun.waiting saves loops → loops !! i = Some x →
  (x = [] ∧ <[i := []]> loops = loops)
  ∨ (∃ doc rest, x = doc :: rest ∧ saves = doc :: rest
                 ∧ DocumentRun.waiting rest (<[i := rest]> loops)).
Proof.
  intros Hwaiting Hi. destruct x as [| doc rest].
  { left. split; [done |]. by apply list_insert_id. }
  right. exists doc, rest. split; [done |].
  destruct Hwaiting as [[-> _] | (before & after & -> & Hbefore & Hafter)]; [done |].
  apply lookup_app_Some in Hi as [Hi | [Hlen Hi]].
  { by apply (Forall_lookup_1 _ _ _ _ Hbefore) in Hi. }
  destruct (i - length before) as [| j] eqn:Hj; cbn in Hi.
  2: { by apply (Forall_lookup_1 _ _ _ _ Hafter) in Hi. }
  injection Hi as <-. split; [done |].
  right. exists before, after. split; [| done].
  assert (i = length before + 0) as -> by lia.
  by rewrite insert_app_r.
Qed.

Lemma saveNext_flag (saves : list DocumentRecord) (e : Env) :
  isImportInProgress (saveNext saves e).1 = isImportInProgress e.
Proof. by destruct saves. Qed.

(** An event that does not hurry keeps the hook and the store agreed. *)
Lemma react_agreed (ev : DocumentRun.Event) (w : DocumentRun.World) :
  DocumentRun.agreed w →
  match ev with
  | DocumentRun.Call a =>
    DocumentRun.settled w = true ∧ DocumentRun.usesFreshId a (DocumentRun.hook w) = true
  | DocumentRun.LoopResumes _ => True
  end →
  DocumentRun.agreed (DocumentRun.react ev w).
Proof.
  intros (saves & Hwaiting & Hsynced & Hflag). destruct w as [e h loops].
  cbn [DocumentRun.env DocumentRun.hook DocumentRun.loops] in *.
  destruct ev as [a | i]; cbn [DocumentRun.react].
  - intros [Hsettled%settled_spec Hfresh].
    cbn [DocumentRun.loops DocumentRun.hook] in *.
    assert (saves = []) as -> by by apply (waiting_none saves loops).
    cbn [saveAll foldl] in Hsynced.
    destruct (step_synced a (e, h) Hflag Hfresh Hsynced) as [Hnext Hflag'].
    unfold DocumentRun.begin. cbn [DocumentRun.env DocumentRun.hook DocumentRun.loops].
    destruct a as [newId now taskId title | id updates now | id | taskId | | dt].
    + exists []. by split; [| split].
    + exists []. by split; [| split].
    + cbn [DocumentRun.step fst snd] in *. destruct (deleteDocument id e h) as [e1 h1].
      exists []. by split; [| split].
    + cbn [DocumentRun.step fst snd] in *. destruct (deleteDocumentsByTaskId taskId e h) as [e1 h1].
      exists []. by split; [| split].
    + cbn [DocumentRun.step fst snd] in Hnext, Hflag'.
      unfold flushPendingSaves in Hnext, Hflag'.
      pose proof (saveNext_flag (mapValues (pendingSaves h)) e) as Hturn.
      unfold flushStarted in *. destruct (saveNext _ e) as [e1 rest].
      exists rest. split; [by apply waiting_started |]. split; [done |].
      cbn [fst DocumentRun.env] in *. by rewrite Hturn.
    + cbn [DocumentRun.step fst snd] in Hnext, Hflag'.
      unfold advance, runTimers in Hnext, Hflag'.
      destruct (due id (saveTimeout h) (clock (tick dt e))).
      2: { exists []. by split; [| split]. }
      unfold saveTimerFired in Hnext, Hflag'.
      pose proof (saveNext_flag (mapValues (pendingSaves h)) (tick dt e)) as Hturn.
      unfold saveTimerStarted in *. rewrite isImportInProgress_tick, Hflag in *.
      destruct (saveNext _ (tick dt e)) as [e1 rest].
      exists rest. split; [by apply waiting_started |]. split; [done |].
      cbn [fst DocumentRun.env] in *. by rewrite Hturn.
  - intros _. unfold DocumentRun.resume. cbn [DocumentRun.env DocumentRun.hook DocumentRun.loops].
    destruct (loops !! i) as [x |] eqn:Hi; [| by exists saves].
    destruct (waiting_resume saves x loops i Hwaiting Hi)
      as [[-> Hsame] | (doc & rest & -> & -> & Hrest)].
    + cbn [saveNext]. rewrite Hsame. by exists saves.
    + cbn [saveNext]. exists rest. by split; [| split].
Qed.

Lemma play_agreed (events : list DocumentRun.Event) :
  ∀ w, DocumentRun.agreed w → DocumentRun.unhurried events w = true →
       DocumentRun.agreed (DocumentRun.play events w).
Proof.
  unfold DocumentRun.play.
  induction events as [| ev events IH]; intros w Hagreed Hrun; [done |].
  cbn [DocumentRun.unhurried] in Hrun. apply andb_true_iff in Hrun as [Hev Hrest].
  cbn [foldl]. apply IH; [| done]. apply react_agreed; [done |].
  destruct ev; [by apply andb_true_iff |done].
Qed.

Lemma unhurried_app (events later : list DocumentRun.Event) :
  ∀ w, DocumentRun.unhurried (events ++ later) w
       = DocumentRun.unhurried events w
         && DocumentRun.unhurried later (DocumentRun.play events w).
Proof.
  unfold DocumentRun.play.
  induction events as [| ev events IH]; intros w; [done |].
  cbn [app DocumentRun.unhurried foldl]. by rewrite IH, andb_assoc.
Qed.

(** X13. Take a hydrated document hook whose documents have pairwise
    different ids and are what the documents table holds, with no import in
    progress, and a run of adds (with fresh ids), updates, deletes, deletes
    by task, flushes, passing time and turns of the save loops, in which
    every call arrives when no save loop has a document left to save.  After
    a last [flushPendingSaves], once its loop has run to its end, the
    documents table holds exactly the documents in memory, each as it is in
    memory, and nothing is pending. *)
Theorem flush_mirrors_memory (events : list DocumentRun.Event) (e : Env)
    (docs : list DocumentRecord) :
  isImportInProgress e = false →
  NoDup (doc_id <$> docs) →
  Db.documents (store e) = DocumentRun.mirror (DocumentRun.hydrated docs) →
  let start := {| DocumentRun.env := e; DocumentRun.hook := DocumentRun.hydrated docs;
                  DocumentRun.loops := [] |} in
  DocumentRun.unhurried (events ++ [DocumentRun.Call DocumentRun.FlushPendingSaves]) start
  = true →
  let w := DocumentRun.play (events ++ [DocumentRun.Call DocumentRun.FlushPendingSaves])
                            start in
  Db.documents (store (DocumentRun.finished w)) = DocumentRun.mirror (DocumentRun.hook w)
  ∧ pendingSaves (DocumentRun.hook w) = []
  ∧ NoDup (doc_id <$> documents (DocumentRun.hook w)).
Proof.
  intros Hflag Hnodup Hstore start Hrun w.
  assert (DocumentRun.agreed start) as Hstart.
  { exists []. split; [by left |]. split; [| done]. by apply hydrated_synced. }
  destruct (play_agreed _ start Hstart Hrun) as (saves & Hwaiting & Hsynced & _).
  fold w in Hwaiting, Hsynced.
  assert (pendingSaves (DocumentRun.hook w) = []) as Hnone.
  { subst w. unfold DocumentRun.play. rewrite foldl_app. cbn [foldl DocumentRun.react].
    unfold DocumentRun.begin, flushStarted. by destruct (saveNext _ _). }
  unfold DocumentRun.finished. rewrite (waiting_concat _ _ Hwaiting).
  split; [by apply synced_mirror |]. split; [done |]. by destruct Hsynced as [? _].
Qed.

(** A document the hook does not hold cannot be updated. *)
Lemma updateDocument_unknown (id : string) (updates : Updates) (now : float)
    (e : Env) (h : State) :
  (∀ doc, doc ∈ documents h → doc_id doc ≠ id) → updateDocument id updates now e h = h.
Proof.
  intros Hunknown. unfold updateDocument.
  set (upd := λ doc, if String.eqb (doc_id doc) id then applyUpdates updates now doc else doc).
  assert (map upd (documents h) = documents h) as ->.
  { rewrite <- (list_fmap_id (documents h)) at 2. apply list_fmap_ext.
    intros _ doc Hin%list_elem_of_lookup_2. unfold upd.
    by apply Hunknown, String.eqb_neq in Hin as ->. }
  rewrite filter_none; [by destruct h |].
  apply Forall_forall. intros doc Hin. by apply Hunknown.
Qed.

(** X14. [updateDocument] for a document that [deleteDocument] has removed
    changes nothing: the document is not put back in memory, no save is
    filed and no timer is started, so a late autosave of the editor cannot
    bring a deleted document back. *)
Theorem update_after_delete (id : string) (updates : Updates) (now : float)
    (e e' : Env) (h : State) :
  let deleted := (deleteDocument id e h).2 in
  updateDocument id updates now e' deleted = deleted.
Proof.
  cbn zeta. apply updateDocument_unknown. cbn.
  by intros doc [Hne _]%list_elem_of_filter.
Qed.

End Mirror.

Lemma flush_mirrors_memory_witness :
  let start := {| DocumentRun.env := Fixtures.running; DocumentRun.hook := Fixtures.loaded;
                  DocumentRun.loops := [] |} in
  let w := DocumentRun.play
             (Fixtures.patientSession ++ [DocumentRun.Call DocumentRun.FlushPendingSaves])
             start in
  doc_title <$> DocumentStore.documents (DocumentRun.hook w) = [ "printed" ]
  ∧ Db.documents (store (DocumentRun.finished w)) = DocumentRun.mirror (DocumentRun.hook w).
Proof.
  split; [vm_compute; reflexivity |].
  apply (flush_mirrors_memory Fixtures.patientSession Fixtures.running
           [ Fixtures.doc "d1" "t1" "note" ]).
  - reflexivity.
  - apply NoDup_singleton.
  - vm_compute; reflexivity.
  - vm_compute; reflexivity.
Defined.

(** ** Flushing the task hook *)

Section TaskFlush.

(** The key of a task in the store is its id. *)
Lemma keyOf_taskToJs (items : list TaskRecord) :
  Db.keyOf <$> (taskToJs <$> items) = Some <$> (task_id <$> items).
Proof. induction items as [| item items IH]; [done |]. cbn [fmap list_fmap]. by f_equal. Qed.

(** X15. [flushPendingSaves] of the task hook, with or without an import in
    progress, writes the two settings as they are in memory and leaves the
    documents alone.  When the ids of the tasks in memory are pairwise
    different the tasks table then holds exactly these tasks; when an id is
    repeated [saveTasks] fails and the tasks table is as before, though the
    settings were written.  It leaves no timer, so the passing of time writes
    nothing more. *)
Theorem TaskStore_flush_persists (e : Env) (h : TaskStore.State) :
  let r := TaskStore.flushPendingSaves e h in
  Db.getSetting "columnById" (store r.1) = columnByIdToJs (TaskStore.columnById h)
  ∧ Db.getSetting "viewMode" (store r.1) = JStr (viewModeName (TaskStore.viewMode h))
  ∧ Db.documents (store r.1) = Db.documents (store e)
  ∧ (NoDup (task_id <$> TaskStore.items h) →
     Db.getAllTasks (store r.1) ≡ₚ taskToJs <$> TaskStore.items h)
  ∧ (¬ NoDup (task_id <$> TaskStore.items h) → Db.tasks (store r.1) = Db.tasks (store e))
  ∧ (∀ dt, TaskStore.advance dt r.1 r.2 = (tick dt r.1, r.2)).
Proof.
  cbn zeta. unfold TaskStore.flushPendingSaves. cbn [fst snd perform store applyOp].
  unfold Db.getSetting, Db.setSetting. cbn [Db.settings Db.documents Db.tasks].
  rewrite lookup_insert_eq, lookup_insert_ne, lookup_insert_eq by done.
  rewrite saveTasks_bulkAdd.
  split; [done |]. split; [done |].
  destruct (Db.bulkAdd (map taskToJs (TaskStore.items h)) ∅) as [t |] eqn:Hadd;
    cbn [orKeep Db.documents Db.tasks].
  - split; [done |]. split; [| split; [| done]].
    + intros _. unfold Db.getAllTasks. cbn [Db.tasks].
      rewrite (bulkAdd_Permutation _ _ _ Hadd). unfold Db.toArray.
      by rewrite map_to_list_empty, app_nil_r.
    + intros Hdup. exfalso. apply Hdup.
      destruct (bulkAdd_keys _ _ _ Hadd) as (ks & Hks & Hnodup & _).
      change (map taskToJs (TaskStore.items h)) with (taskToJs <$> TaskStore.items h) in Hks.
      rewrite keyOf_taskToJs in Hks. by apply (inj (fmap Some)) in Hks as ->.
  - split; [done |]. split; [| split; [done | done]].
    intros Hnodup. exfalso.
    destruct (bulkAdd_succeeds (map taskToJs (TaskStore.items h)) ∅
                (task_id <$> TaskStore.items h)) as [t Ht]; try done.
    + apply keyOf_taskToJs.
    + congruence.
Qed.

End TaskFlush.

(** ** The task list *)

Section Items.
Context `{Platform}.
Import ItemList.

(** Where the sort puts an open sub-task, and where a completed one. *)
Lemma sortInsert_open (st : SubTask) (sorted : list SubTask) :
  st_completed st = false →
  sortInsert (λ a b, (Number_ofBool (st_completed a) - Number_ofBool (st_completed b))%Z)
             st sorted
  = st :: sorted.
Proof.
  intros Hopen. destruct sorted as [| y rest]; [done |]. cbn. rewrite Hopen.
  by destruct (st_completed y).
Qed.

Lemma sortInsert_completed (st : SubTask) (open completed : list SubTask) :
  st_completed st = true →
  Forall (λ x, st_completed x = false) open →
  Forall (λ x, st_completed x = true) completed →
  sortInsert (λ a b, (Number_ofBool (st_completed a) - Number_ofBool (st_completed b))%Z)
             st (open ++ completed)
  = (open ++ st :: completed)%list.
Proof.
  intros Hdone Hopen Hcompleted. induction Hopen as [| y open Hy _ IH]; cbn.
  - destruct Hcompleted as [| z completed Hz _]; [done |]. cbn. by rewrite Hdone, Hz.
  - rewrite Hdone, Hy. cbn. by rewrite IH.
Qed.

(** X16. [sortSubTasks] lists the open sub-tasks first and the completed
    ones after them, each group in the order it had. *)
Theorem sortSubTasks_stable (subTasks : list SubTask) :
  sortSubTasks subTasks
  = (filter (λ st, st_completed st = false) subTasks
     ++ filter (λ st, st_completed st = true) subTasks)%list.
Proof.
  unfold sortSubTasks, arraySort. induction subTasks as [| st rest IH]; [done |].
  cbn [foldr]. rewrite IH. destruct (st_completed st) eqn:Hst.
  - rewrite sortInsert_completed; try done.
    + rewrite filter_cons_False by congruence. by rewrite filter_cons_True.
    + apply Forall_forall. by intros x [? _]%list_elem_of_filter.
    + apply Forall_forall. by intros x [? _]%list_elem_of_filter.
  - rewrite sortInsert_open by done.
    rewrite filter_cons_True by done. by rewrite filter_cons_False by congruence.
Qed.





(** The [setColumnById] calls of [toggleSubTask] leave the tasks alone. *)
Lemma moved_items (e : Env) (moved : list TaskRecord) :
  ∀ t, TaskStore.items
         (foldl (λ t item,
                   TaskStore.setColumnById (λ prev, <[task_id item := Column2]> prev) e t)
                t moved)
       = TaskStore.items t.
Proof. induction moved as [| item moved IH]; intros t; [done |]. cbn. by rewrite IH. Qed.

(** The tasks after one [toggleSubTask]. *)
Lemma toggleSubTask_items (subTaskId : string) (a : App) :
  TaskStore.items (taskStore (toggleSubTask subTaskId a))
  = match editingItemId a with
    | None => TaskStore.items (taskStore a)
    | Some editingId =>
      if String.eqb editingId "" then TaskStore.items (taskStore a)
      else map (λ item, if negb (String.eqb (task_id item) editingId) then item
                        else {| task_id := task_id item; task_label := task_label item;
                                task_link := task_link item;
                                task_subTasks := map (toggle subTaskId) (task_subTasks item) |})
               (TaskStore.items (taskStore a))
    end
  ∧ editingItemId (toggleSubTask subTaskId a) = editingItemId a.
Proof.
  unfold toggleSubTask. destruct (editingItemId a) as [editingId |] eqn:Hediting; [| done].
  destruct (String.eqb editingId ""); [done |]. cbn [taskStore editingItemId].
  by rewrite moved_items.
Qed.

(** Toggling a sub-task twice gives it back. *)
Lemma toggle_twice (subTaskId : string) (st : SubTask) :
  toggle subTaskId (toggle subTaskId st) = st.
Proof.
  unfold toggle. destruct (String.eqb (st_id st) subTaskId) eqn:Hid; [| by rewrite Hid].
  cbn. rewrite Hid. destruct st. cbn. by rewrite negb_involutive.
Qed.

(** X18. Toggling the same sub-task twice gives back the tasks as they
    were, sub-tasks included. *)
Theorem toggleSubTask_twice (subTaskId : string) (a : App) :
  TaskStore.items (taskStore (toggleSubTask subTaskId (toggleSubTask subTaskId a)))
  = TaskStore.items (taskStore a).
Proof.
  destruct (toggleSubTask_items subTaskId (toggleSubTask subTaskId a)) as [-> _].
  destruct (toggleSubTask_items subTaskId a) as [-> ->].
  destruct (editingItemId a) as [editingId |]; [| done].
  destruct (String.eqb editingId ""); [done |].
  rewrite <- list_fmap_compose. rewrite <- (list_fmap_id (TaskStore.items (taskStore a))) at 2.
  apply list_fmap_ext. intros _ item _. cbn.
  destruct (String.eqb (task_id item) editingId) eqn:Hid; cbn; rewrite Hid; cbn; [| done].
  destruct item as [id label link subTasks]. cbn. f_equal.
  rewrite <- list_fmap_compose. rewrite <- (list_fmap_id subTasks) at 2.
  apply list_fmap_ext. intros _ st _. apply toggle_twice.
Qed.

(** X19. [addItem] with a non-blank input and a fresh id appends a task
    labelled with the trimmed input, with no sub-tasks, in column-1;
    [removeItem] of that id then gives back the tasks and the column map as
    they were. *)
Theorem addItem_removeItem (newId : string) (f : Form) (a : App) :
  String_trim (inputValue f) ≠ "" →
  (∀ item, item ∈ TaskStore.items (taskStore a) → task_id item ≠ newId) →
  TaskStore.columnById (taskStore a) !! newId = None →
  let added := (addItem newId f a).2 in
  let removed := removeItem newId added in
  (TaskStore.items (taskStore added)
   = TaskStore.items (taskStore a)
     ++ [ {| task_id := newId; task_label := String_trim (inputValue f);
             task_link := None; task_subTasks := [] |} ])%list
  ∧ columnOf (TaskStore.columnById (taskStore added)) newId = Some Column1
  ∧ TaskStore.items (taskStore removed) = TaskStore.items (taskStore a)
  ∧ TaskStore.columnById (taskStore removed) = TaskStore.columnById (taskStore a).
Proof.
  intros Hinput Hfresh Hunmapped. cbn zeta. unfold addItem, removeItem.
  apply String.eqb_neq in Hinput as ->. cbn.
  split; [done |]. split; [unfold columnOf; by rewrite lookup_insert_eq |]. split.
  - rewrite filter_app, filter_cons_False, filter_nil, app_nil_r by (cbn; tauto).
    apply filter_all, Forall_forall. intros item Hin. by apply Hfresh.
  - by apply delete_insert_id.
Qed.

End Items.

Lemma addItem_removeItem_witness :
  let added := (ItemList.addItem (H := Reference.platform) "t2" (Fixtures.typing " read ")
                  Fixtures.planning).2 in
  let removed := ItemList.removeItem "t2" added in
  (TaskStore.items (ItemList.taskStore added)
   = TaskStore.items (ItemList.taskStore Fixtures.planning) ++ [ Fixtures.task "t2" "read" ])%list
  ∧ ItemList.columnOf (TaskStore.columnById (ItemList.taskStore added)) "t2" = Some Column1
  ∧ TaskStore.items (ItemList.taskStore removed)
    = TaskStore.items (ItemList.taskStore Fixtures.planning)
  ∧ TaskStore.columnById (ItemList.taskStore removed)
    = TaskStore.columnById (ItemList.taskStore Fixtures.planning).
Proof.
  apply (addItem_removeItem (H := Reference.platform) "t2" (Fixtures.typing " read ")
           Fixtures.planning).
  - vm_compute. discriminate.
  - intros item ->%list_elem_of_singleton. discriminate.
  - reflexivity.
Defined.

Section Labels.
Context `{Platform}.
Import ItemList.

(** [ItemRun.labelled], as a proposition. *)
Lemma labelled_spec (items : list TaskRecord) :
  ItemRun.labelled items = true
  ↔ ∀ item, item ∈ items →
            task_label item ≠ ""
            ∧ ∀ st, st ∈ task_subTasks item → st_label st ≠ "".
Proof.
  unfold ItemRun.labelled. rewrite forallb_forall. split.
  - intros Hall item Hin. apply list_elem_of_In, Hall in Hin.
    apply andb_true_iff in Hin as [Hlabel Hsub]. split.
    + by apply String.eqb_neq, negb_true_iff.
    + intros st Hst. rewrite forallb_forall in Hsub.
      by apply String.eqb_neq, negb_true_iff, Hsub, list_elem_of_In.
  - intros Hall item Hin. apply list_elem_of_In, Hall in Hin as [Hlabel Hsub].
    apply andb_true_iff. split.
    + by apply negb_true_iff, String.eqb_neq.
    + apply forallb_forall. intros st Hst.
      by apply negb_true_iff, String.eqb_neq, Hsub, list_elem_of_In.
Qed.

(** X20. If every task and every sub-task has a non-empty label, so it is
    after any handler of the component (add or remove a task, drop it on a
    column, save an edit, add, toggle or remove a sub-task), whatever the
    text fields hold. *)
Theorem labels_never_blank (action : ItemRun.Action) (f : Form) (a : App) :
  ItemRun.labelled (TaskStore.items (taskStore a)) = true →
  ItemRun.labelled (TaskStore.items (taskStore (ItemRun.step action (f, a)).2)) = true.
Proof.
  rewrite !labelled_spec. intros Hall.
  destruct action as [newId | idToRemove | itemId columnId | | newId | subTaskId | subTaskId];
    cbn [ItemRun.step fst snd].
  - unfold addItem.
    destruct (String.eqb_spec (String_trim (inputValue f)) "") as [_ | Hlabel]; [done |].
    cbn. intros item [Hin | ->%list_elem_of_singleton]%elem_of_app; [by apply Hall |].
    cbn. split; [done |]. by intros st ?%elem_of_nil.
  - unfold removeItem. cbn. intros item [_ Hin]%list_elem_of_filter. by apply Hall.
  - unfold handleDrop. by repeat case_match.
  - unfold saveEdit. destruct (editingItemId a) as [editingId |]; [| done].
    destruct (String.eqb editingId ""); [done |].
    destruct (String.eqb_spec (String_trim (editingLabel f)) "") as [_ | Hlabel]; [done |].
    cbn. intros item (old & -> & Hin)%list_elem_of_fmap.
    destruct (String.eqb (task_id old) editingId); [| by apply Hall].
    cbn. split; [done |]. by apply Hall.
  - unfold addSubTask. destruct (editingItemId a) as [editingId |]; [| done].
    destruct (String.eqb_spec (String_trim (subTaskInput f)) "") as [_ | Hlabel]; [done |].
    destruct (String.eqb editingId ""); [done |].
    cbn. intros item (old & -> & Hin)%list_elem_of_fmap.
    destruct (String.eqb (task_id old) editingId); [| by apply Hall].
    cbn. split; [by apply Hall |].
    intros st [Hst | ->%list_elem_of_singleton]%elem_of_app; [by apply (Hall old) | done].
  - destruct (toggleSubTask_items subTaskId a) as [-> _].
    destruct (editingItemId a) as [editingId |]; [| done].
    destruct (String.eqb editingId ""); [done |].
    intros item (old & -> & Hin)%list_elem_of_fmap.
    destruct (String.eqb (task_id old) editingId); [| by apply Hall].
    cbn. split; [by apply Hall |].
    intros st (st0 & -> & Hst)%list_elem_of_fmap. unfold toggle.
    destruct (String.eqb (st_id st0) subTaskId); cbn; by apply (Hall old).
  - unfold removeSubTask. destruct (editingItemId a) as [editingId |]; [| done].
    destruct (String.eqb editingId ""); [done |].
    cbn. intros item (old & -> & Hin)%list_elem_of_fmap.
    destruct (String.eqb (task_id old) editingId); [| by apply Hall].
    cbn. split; [by apply Hall |].
    intros st [_ Hst]%list_elem_of_filter. by apply (Hall old).
Qed.

End Labels.

Lemma labels_never_blank_witness :
  ItemRun.labelled
    (TaskStore.items
       (ItemList.taskStore
          (ItemRun.step (H := Reference.platform) (ItemRun.AddItem "t2")
                        (Fixtures.typing "   ", Fixtures.planning)).2)) = true
  ∧ ItemRun.labelled
      (TaskStore.items
         (ItemList.taskStore
            (ItemRun.step (H := Reference.platform) (ItemRun.AddItem "t2")
                          (Fixtures.typing " read ", Fixtures.planning)).2)) = true.
Proof.
  split.
  - apply (labels_never_blank (H := Reference.platform) (ItemRun.AddItem "t2")
             (Fixtures.typing "   ") Fixtures.planning). reflexivity.
  - apply (labels_never_blank (H := Reference.platform) (ItemRun.AddItem "t2")
             (Fixtures.typing " read ") Fixtures.planning). reflexivity.
Defined.

(** ** The editor modal *)

Section Autosave.
Import DocumentEditorModal.
Context `{Platform} {P : Type}.
Variable onSave : DocumentStore.Updates → P → P.

(** A series of edits, each less than 500 ms after the one before, from the
    state an edit at [now] leaves. *)
Lemma burst_saves (changes : list (nat * EditorRun.Edit)) :
  ∀ (now : nat) (s : State) (p : P),
  hasChanges s = true → skipFlushRef s = false →
  saveTimeoutRef s = Some {| TaskStore.deadline := now + 500;
                             TaskStore.captured := updates (title s) (content s) |} →
  Forall (λ c, (c.1 < 500)%nat) changes →
  EditorRun.retitles changes.*2 (title s, content s) = true →
  let r := EditorRun.burst onSave changes now s p in
  let final := foldl (λ r edit, EditorRun.edited edit r) (title s, content s) changes.*2 in
  r.2.2 = foldl (λ p r, onSave (updates r.1 r.2) p) p
                (EditorRun.found changes.*2 (title s, content s))
  ∧ r.2.1 = {| title := final.1; content := final.2; hasChanges := true;
               saveTimeoutRef :=
                 Some {| TaskStore.deadline := r.1 + 500;
                         TaskStore.captured := updates final.1 final.2 |};
               skipFlushRef := false |}.
Proof.
  induction changes as [| [gap edit] changes IH]; intros now s p Hchanged Hskip Htimer Hgaps Hreal.
  - cbn. split; [done |]. destruct s. cbn in *. by subst.
  - apply Forall_cons in Hgaps as [Hgap Hgaps]. cbn [fst] in Hgap.
    cbn [fmap list_fmap snd EditorRun.retitles] in Hreal.
    apply andb_true_iff in Hreal as [Hedit Hreal].
    cbn [EditorRun.burst fmap list_fmap snd foldl EditorRun.found].
    unfold advance. rewrite Htimer. cbn [due TaskStore.deadline].
    assert ((now + 500 <=? now + gap)%nat = false) as -> by (apply Nat.leb_gt; lia).
    assert (EditorRun.change onSave (now + gap) edit s p
            = ({| title := (EditorRun.edited edit (title s, content s)).1;
                  content := (EditorRun.edited edit (title s, content s)).2;
                  hasChanges := true;
                  saveTimeoutRef :=
                    Some {| TaskStore.deadline := now + gap + 500;
                            TaskStore.captured :=
                              updates (EditorRun.edited edit (title s, content s)).1
                                      (EditorRun.edited edit (title s, content s)).2 |};
                  skipFlushRef := false |},
               onSave (updates (title s) (content s)) p)) as ->.
    { destruct edit as [value | newContent];
        cbn [EditorRun.change EditorRun.edited fst snd] in *.
      - unfold changeTitle. apply negb_true_iff in Hedit as ->. cbn [andb].
        unfold rerender, flushPendingSave. by rewrite Hskip, Hchanged.
      - unfold changeContent, rerender, flushPendingSave. by rewrite Hskip, Hchanged. }
    destruct (EditorRun.edited edit (title s, content s)) as [title' content'].
    cbn [fst snd] in *. by apply (IH (now + gap) {| title := title' |}).
Qed.

(** X21. In the editor modal, from its opening: in a series of edits, each
    less than 500 ms after the one before (no edit setting the title to what
    it is), every edit but the first hands the title and content it finds
    to [onSave] at once, through the cleanup of the mount effect.  After the
    last edit nothing happens for less than 500 ms, and at 500 ms the timer
    hands the final title and content to [onSave].  So n edits reach
    [onSave] n times: the 500 ms timer delays the last of them only. *)
Theorem each_edit_saves_the_previous_one (doc : DocumentRecord) (gap : nat)
    (first : EditorRun.Edit) (changes : list (nat * EditorRun.Edit)) (now : nat) (p : P) :
  Forall (λ c, (c.1 < 500)%nat) changes →
  EditorRun.retitles changes.*2 (EditorRun.edited first (doc_title doc, doc_content doc))
  = true →
  let r := EditorRun.burst onSave ((gap, first) :: changes) now (mount doc) p in
  let start := EditorRun.edited first (doc_title doc, doc_content doc) in
  let final := foldl (λ r edit, EditorRun.edited edit r) start changes.*2 in
  r.2.2 = foldl (λ p r, onSave (updates r.1 r.2) p) p (EditorRun.found changes.*2 start)
  ∧ (∀ dt, (dt < 500)%nat → advance onSave (r.1 + dt) r.2.1 r.2.2 = r.2)
  ∧ (advance onSave (r.1 + 500) r.2.1 r.2.2).2 = onSave (updates final.1 final.2) r.2.2.
Proof.
  intros Hgaps Hreal r start final. subst r final start. cbn [EditorRun.burst].
  assert (advance onSave (now + gap) (mount doc) p = (mount doc, p)) as -> by done.
  assert (EditorRun.change onSave (now + gap) first (mount doc) p
          = ({| title := (EditorRun.edited first (doc_title doc, doc_content doc)).1;
                content := (EditorRun.edited first (doc_title doc, doc_content doc)).2;
                hasChanges := true;
                saveTimeoutRef :=
                  Some {| TaskStore.deadline := now + gap + 500;
                          TaskStore.captured :=
                            updates (EditorRun.edited first (doc_title doc, doc_content doc)).1
                                    (EditorRun.edited first (doc_title doc, doc_content doc)).2 |};
                skipFlushRef := false |}, p)) as ->.
  { destruct first as [value | newContent]; cbn; [| done].
    unfold changeTitle. cbn. by rewrite andb_false_r. }
  destruct (EditorRun.edited first (doc_title doc, doc_content doc)) as [title0 content0].
  cbn [fst snd] in *.
  destruct (burst_saves changes (now + gap)
              {| title := title0; content := content0; hasChanges := true;
                 saveTimeoutRef :=
                   Some {| TaskStore.deadline := now + gap + 500;
                           TaskStore.captured := updates title0 content0 |};
                 skipFlushRef := false |} p) as [Hsaved Hstate]; try done.
  cbn [title content] in Hsaved, Hstate.
  destruct (EditorRun.burst onSave changes (now + gap) _ p) as [last [s' p']].
  cbn [fst snd] in *. subst s'. split; [done |]. split.
  - intros dt Hdt. unfold advance. cbn [saveTimeoutRef due TaskStore.deadline].
    by assert ((last + 500 <=? last + dt)%nat = false) as -> by (apply Nat.leb_gt; lia).
  - unfold advance. cbn [saveTimeoutRef due TaskStore.deadline]. by rewrite Nat.leb_refl.
Qed.

End Autosave.

Lemma each_edit_saves_the_previous_one_witness :
  let r := EditorRun.burst (H := Reference.platform) Fixtures.record
             ((0, EditorRun.EditTitle "n") :: Fixtures.keystrokes) 0
             (DocumentEditorModal.mount (Fixtures.doc "d1" "t1" "note")) [] in
  DocumentStore.upd_title <$> r.2.2 = [ Some "n"; Some "no"; Some "not" ]
  ∧ (∀ dt, (dt < 500)%nat →
           DocumentEditorModal.advance Fixtures.record (r.1 + dt) r.2.1 r.2.2 = r.2)
  ∧ DocumentStore.upd_title
      <$> (DocumentEditorModal.advance Fixtures.record (r.1 + 500) r.2.1 r.2.2).2
    = [ Some "n"; Some "no"; Some "not"; Some "not" ].
Proof.
  destruct (each_edit_saves_the_previous_one (H := Reference.platform) Fixtures.record
              (Fixtures.doc "d1" "t1" "note") 0 (EditorRun.EditTitle "n")
              Fixtures.keystrokes 0 [])
    as (Hsaved & Hquiet & Hlast).
  - repeat constructor.
  - reflexivity.
  - split; [by rewrite Hsaved |]. split; [exact Hquiet |]. by rewrite Hlast, Hsaved.
Defined.

Section EndToEnd.
Import DocumentEditorModal.
Context `{Platform}.

(** What [updateDocument] leaves in the hook for a document it holds. *)
Lemma updateDocument_known (id : string) (updates : DocumentStore.Updates) (now : float)
    (e : Env) (h : DocumentStore.State) (doc : DocumentRecord) :
  doc ∈ DocumentStore.documents h → doc_id doc = id →
  DocumentStore.applyUpdates updates now doc
    ∈ DocumentStore.documents (DocumentStore.updateDocument id updates now e h)
  ∧ DocumentStore.saveTimeout (DocumentStore.updateDocument id updates now e h)
    = Some (clock e + DocumentStore.DEBOUNCE_MS).
Proof.
  intros Hin Hid. unfold DocumentStore.updateDocument.
  set (upd := λ doc, if String.eqb (doc_id doc) id
                     then DocumentStore.applyUpdates updates now doc else doc).
  set (touched := filter (λ doc, doc_id doc = id) (map upd (DocumentStore.documents h))).
  assert (upd doc = DocumentStore.applyUpdates updates now doc) as Hdoc
    by (unfold upd; by rewrite Hid, String.eqb_refl).
  destruct (scheduleSave_fold e touched
              {| DocumentStore.documents := map upd (DocumentStore.documents h);
                 DocumentStore.pendingSaves := DocumentStore.pendingSaves h;
                 DocumentStore.saveTimeout := DocumentStore.saveTimeout h |})
    as [-> ->].
  split.
  - cbn. rewrite <- Hdoc. by apply list_elem_of_fmap_2.
  - assert (upd doc ∈ touched) as Htouched.
    { apply list_elem_of_filter. split; [by rewrite Hdoc | by apply list_elem_of_fmap_2]. }
    destruct touched; [by apply elem_of_nil in Htouched | done].
Qed.

(** X22. One edit in an editor opened on a document the hook holds, the
    hook being at rest and in agreement with the store, with no import in
    progress: the edit itself changes nothing outside the modal; 500 ms
    later the modal hands the title (trimmed, Untitled when blank) and the
    content to [updateDocument]; the store is unchanged until 799 ms after
    the edit, and at 800 ms it holds the document as updated. *)
Theorem edit_reaches_store_after_800_ms (edit : EditorRun.Edit) (dateNow : nat → float)
    (e : Env) (d : DocumentStore.State) (doc : DocumentRecord) :
  isImportInProgress e = false →
  DocumentRun.synced (e, d) →
  DocumentStore.saveTimeout d = None →
  doc ∈ DocumentStore.documents d →
  let onSave := saveToHook (doc_id doc) dateNow in
  let typed := EditorRun.edited edit (doc_title doc, doc_content doc) in
  let opened := EditorRun.change onSave (clock e) edit (mount doc) (e, d) in
  let waiting := DocumentStore.advance 500 opened.2.1 opened.2.2 in
  let saved := advance onSave (clock waiting.1) opened.1 waiting in
  let pending := DocumentStore.advance 299 saved.2.1 saved.2.2 in
  let written := DocumentStore.advance 1 pending.1 pending.2 in
  opened.2 = (e, d)
  ∧ waiting = (tick 500 e, d)
  ∧ DocumentStore.applyUpdates (updates typed.1 typed.2) (dateNow (clock e + 500)) doc
      ∈ DocumentStore.documents saved.2.2
  ∧ store pending.1 = store e
  ∧ Db.getDocument (doc_id doc) (store written.1)
    = documentToJs (DocumentStore.applyUpdates (updates typed.1 typed.2)
                                               (dateNow (clock e + 500)) doc).
Proof.
  intros Hflag Hsynced Hidle Hdoc onSave typed opened waiting saved pending written.
  assert (opened = ({| title := typed.1; content := typed.2; hasChanges := true;
                       saveTimeoutRef :=
                         Some {| TaskStore.deadline := clock e + 500;
                                 TaskStore.captured := updates typed.1 typed.2 |};
                       skipFlushRef := false |}, (e, d))) as Hopened.
  { subst opened typed. destruct edit as [value | newContent]; cbn; [| done].
    unfold changeTitle. cbn. by rewrite andb_false_r. }
  assert (waiting = (tick 500 e, d)) as Hwaiting.
  { subst waiting. rewrite Hopened. cbn [fst snd].
    unfold DocumentStore.advance, DocumentStore.runTimers. by rewrite Hidle. }
  set (doc' := DocumentStore.applyUpdates (updates typed.1 typed.2)
                                          (dateNow (clock e + 500)) doc).
  set (d' := DocumentStore.updateDocument (doc_id doc) (updates typed.1 typed.2)
                                          (dateNow (clock e + 500)) (tick 500 e) d).
  assert (saved.2 = (tick 500 e, d')) as Hsaved.
  { subst saved. rewrite Hopened, Hwaiting. cbn [fst snd].
    unfold advance. cbn [saveTimeoutRef due TaskStore.deadline tick clock].
    by rewrite Nat.leb_refl. }
  destruct (updateDocument_known (doc_id doc) (updates typed.1 typed.2)
              (dateNow (clock e + 500)) (tick 500 e) d doc Hdoc eq_refl) as [Hin Htimer].
  fold d' in Hin, Htimer. fold doc' in Hin.
  assert (DocumentRun.synced (tick 500 e, d')) as Hsynced'.
  { apply updateDocument_synced. exact Hsynced. }
  assert (pending = (tick 299 (tick 500 e), d')) as Hpending.
  { subst pending. rewrite Hsaved. cbn [fst snd].
    unfold DocumentStore.advance, DocumentStore.runTimers. rewrite Htimer.
    cbn [due id tick clock].
    by assert ((clock e + 500 + DocumentStore.DEBOUNCE_MS <=? clock e + 500 + 299)%nat = false)
      as -> by (apply Nat.leb_gt; unfold DocumentStore.DEBOUNCE_MS; lia). }
  split; [by rewrite Hopened |]. split; [done |]. split; [by rewrite Hsaved |].
  split; [by rewrite Hpending |].
  subst written. rewrite Hpending. cbn [fst snd].
  set (e3 := tick 1 (tick 299 (tick 500 e))).
  unfold DocumentStore.advance, DocumentStore.runTimers. rewrite Htimer. fold e3.
  assert (due id (Some (clock (tick 500 e) + DocumentStore.DEBOUNCE_MS)) (clock e3) = true)
    as -> by (subst e3; unfold DocumentStore.DEBOUNCE_MS; cbn; apply Nat.leb_le; lia).
  rewrite saveTimerFired_eq.
  change (isImportInProgress e3) with (isImportInProgress e). rewrite Hflag.
  assert (DocumentRun.synced (e3, d')) as Hsynced3 by exact Hsynced'.
  destruct (written_synced e3 d' Hsynced3) as (_ & _ & _ & Hmemory & _).
  cbn [fst snd DocumentStore.documents DocumentStore.pendingSaves] in Hmemory.
  destruct (Hmemory doc' Hin) as [Hp | Hs]; [by apply elem_of_nil in Hp |].
  change (doc_id doc') with (doc_id doc) in Hs.
  unfold Db.getDocument. cbn [fst]. by rewrite Hs.
Qed.

End EndToEnd.

Lemma edit_reaches_store_after_800_ms_witness :
  let onSave := DocumentEditorModal.saveToHook "d1" (λ _, 9%float) in
  let opened := EditorRun.change (H := Reference.platform) onSave 0 (EditorRun.EditTitle "  ")
                  (DocumentEditorModal.mount (Fixtures.doc "d1" "t1" "note"))
                  (Fixtures.running, Fixtures.loaded) in
  let waiting := DocumentStore.advance 500 opened.2.1 opened.2.2 in
  let saved := DocumentEditorModal.advance onSave (clock waiting.1) opened.1 waiting in
  let pending := DocumentStore.advance 299 saved.2.1 saved.2.2 in
  let written := DocumentStore.advance 1 pending.1 pending.2 in
  store pending.1 = store Fixtures.running
  ∧ (Db.getDocument "d1" (store written.1)).["title"] = JStr "Untitled".
Proof.
  destruct (edit_reaches_store_after_800_ms (H := Reference.platform)
              (EditorRun.EditTitle "  ") (λ _, 9%float) Fixtures.running Fixtures.loaded
              (Fixtures.doc "d1" "t1" "note"))
    as (_ & _ & _ & Hpending & Hwritten).
  - reflexivity.
  - apply hydrated_synced; [apply NoDup_singleton | vm_compute; reflexivity].
  - reflexivity.
  - by left.
  - split; [exact Hpending |]. exact (f_equal (getProp "title") Hwritten).
Defined.

Section DeleteFromEditor.
Import DocumentEditorModal.
Context `{Platform}.

(** X23. Deleting from the editor is final: [handleDelete] does to hook and
    store what [deleteDocument] does, and afterwards neither the autosave
    timer, if it still fires, nor a close of the modal, with or without
    save, changes the hook or the store. *)
Theorem delete_from_editor_is_final (id : string) (dateNow : nat → float) (s : State)
    (w : Env * DocumentStore.State) (now : nat) (skipSave : bool) :
  let onSave := saveToHook id dateNow in
  let deleted := handleDelete onSave (deleteFromHook id) s w in
  deleted.2 = DocumentStore.deleteDocument id w.1 w.2
  ∧ store deleted.2.1 = Db.deleteDocument id (store w.1)
  ∧ (∀ doc, doc ∈ DocumentStore.documents deleted.2.2 → doc_id doc ≠ id)
  ∧ (advance onSave now deleted.1 deleted.2).2 = deleted.2
  ∧ (handleClose onSave skipSave deleted.1 deleted.2).2 = deleted.2.
Proof.
  intros onSave deleted.
  assert (deleted = ({| title := title s; content := content s; hasChanges := hasChanges s;
                        saveTimeoutRef := saveTimeoutRef s; skipFlushRef := true |},
                     DocumentStore.deleteDocument id w.1 w.2)) as -> by done.
  cbn [fst snd].
  assert (∀ updates, onSave updates (DocumentStore.deleteDocument id w.1 w.2)
                     = DocumentStore.deleteDocument id w.1 w.2) as Hlate.
  { intros updates. subst onSave. unfold saveToHook, DocumentStore.deleteDocument.
    cbn [fst snd]. f_equal. apply updateDocument_unknown. cbn.
    by intros doc [Hne _]%list_elem_of_filter. }
  split; [done |]. split; [done |]. split; [by intros doc [Hne _]%list_elem_of_filter |].
  split.
  - unfold advance, saveTimerFired. cbn [saveTimeoutRef].
    destruct (saveTimeoutRef s) as [t |]; [| done].
    destruct (due TaskStore.deadline (Some t) now); [| done]. apply Hlate.
  - unfold handleClose, flushPendingSave. cbn [hasChanges title content].
    destruct skipSave; [done |]. destruct (hasChanges s); [| done]. apply Hlate.
Qed.

End DeleteFromEditor.
